(** * Security gate: pattern library, classifier, scanner and gate controller

    A shallow embedding of [scripts/lib/security-patterns.js] and
    [scripts/hooks/security-gate.js], together with the properties stated
    about them.

    Conventions.
    - A JavaScript string is a [string]; every [ascii] stands for one
      UTF-16 code unit below 256, and a statement about all strings is
      one about the strings of these code units.  Where the code units
      beyond them behave differently ([toLowerCase] takes the Kelvin sign
      U+212A to [k], the [i] flag of a regular expression does not), the
      statements are written with the folding that holds of all of them.
    - What [JSON.parse] gives and the code does not check (the
      configuration, the fields of the hook's event) is a [json] value,
      or, where the code only tests and scans it, a [Value]: a string or
      a value of another kind.
    - A regular-expression literal is a [regex] syntax tree, run by a
      backtracking matcher that lists the possible end positions in the
      order in which a backtracking engine tries them; the head of that
      list is the match JavaScript reports.
    - An exception is the [Throw] outcome of a [result]. *)

From Stdlib Require Import ZArith Lia Ascii String List DecimalString Sorted.
From stdpp Require Import base list strings gmap.

Local Open Scope string_scope.
Local Open Scope list_scope.

(* ===================================================================== *)
(** ** Characters and strings *)
(* ===================================================================== *)

Module Js.

Definition code (c : ascii) : nat := nat_of_ascii c.

Definition in_range (lo hi c : ascii) : bool :=
  (code lo <=? code c)%nat && (code c <=? code hi)%nat.

Definition is_upper (c : ascii) : bool := in_range "A" "Z" c.
Definition is_lower (c : ascii) : bool := in_range "a" "z" c.
Definition is_digit (c : ascii) : bool := in_range "0" "9" c.

(** [\w] *)
Definition is_word (c : ascii) : bool :=
  is_upper c || is_lower c || is_digit c || Ascii.eqb c "_".

(** [\s] restricted to code units below 256: TAB, LF, VT, FF, CR, SP, NBSP. *)
Definition is_space (c : ascii) : bool :=
  let n := code c in
  ((9 <=? n)%nat && (n <=? 13)%nat) || (n =? 32)%nat || (n =? 160)%nat.

(** Line terminators below 256, the characters [.] refuses. *)
Definition is_line_terminator (c : ascii) : bool :=
  let n := code c in (n =? 10)%nat || (n =? 13)%nat.

Definition LF : ascii := ascii_of_nat 10.
Definition nl : string := String LF EmptyString.

(** ASCII case mapping, the part of case folding that can relate a
    pattern character below 128 to an input character. *)
Definition ascii_lower (c : ascii) : ascii :=
  if is_upper c then ascii_of_nat (code c + 32) else c.
Definition ascii_upper (c : ascii) : ascii :=
  if is_lower c then ascii_of_nat (code c - 32) else c.

(** [String.prototype.toLowerCase] on code units below 256: A-Z and the
    Latin-1 capitals 192-222 (without the multiplication sign 215). *)
Definition lower_char (c : ascii) : ascii :=
  let n := code c in
  if is_upper c then ascii_of_nat (n + 32)
  else if (192 <=? n)%nat && (n <=? 222)%nat && negb (n =? 215)%nat
       then ascii_of_nat (n + 32)
       else c.

Fixpoint toLowerCase (s : string) : string :=
  match s with
  | EmptyString => EmptyString
  | String c r => String (lower_char c) (toLowerCase r)
  end.

(** The letters A to Z lower-cased and nothing else: what relates a
    subject to a pattern of lower-case ASCII letters under the [i] flag
    of a regular expression without the [u] flag.  [toLowerCase] does
    more (beyond the code units below 256, it takes the Kelvin sign
    U+212A to [k]). *)
Fixpoint ascii_fold (s : string) : string :=
  match s with
  | EmptyString => EmptyString
  | String c r => String (ascii_lower c) (ascii_fold r)
  end.

Definition chars (s : string) : list ascii := list_ascii_of_string s.
Definition str (l : list ascii) : string := string_of_list_ascii l.

Definition strlen (s : string) : nat := String.length s.

(** [s.startsWith(p)] *)
Fixpoint startsWith (s p : string) : bool :=
  match p, s with
  | EmptyString, _ => true
  | String a p', String b s' => Ascii.eqb a b && startsWith s' p'
  | String _ _, EmptyString => false
  end.

(** [s.includes(p)] on strings *)
Fixpoint includes_str (s p : string) : bool :=
  startsWith s p ||
  match s with
  | EmptyString => false
  | String _ s' => includes_str s' p
  end.

(** [s.endsWith(p)] *)
Definition endsWith (s p : string) : bool :=
  (strlen p <=? strlen s)%nat &&
  String.eqb (String.substring (strlen s - strlen p) (strlen p) s) p.

(** [s.slice(a, b)] for [0 <= a], [0 <= b] *)
Definition slice (a b : nat) (s : string) : string :=
  String.substring a (b - a) s.

(** [s.split(sep)] for a single-character separator: never empty. *)
Fixpoint split_chars (sep : ascii) (l : list ascii) : list (list ascii) :=
  match l with
  | [] => [[]]
  | c :: r =>
      if Ascii.eqb c sep then [] :: split_chars sep r
      else match split_chars sep r with
           | [] => [[c]]
           | w :: ws => (c :: w) :: ws
           end
  end.

Definition split (sep : ascii) (s : string) : list string :=
  map str (split_chars sep (chars s)).

(** [s.replace(/a/g, b)] for single characters *)
Fixpoint replace_char (a b : ascii) (s : string) : string :=
  match s with
  | EmptyString => EmptyString
  | String c r => String (if Ascii.eqb c a then b else c) (replace_char a b r)
  end.

(** [s.trim()] *)
Fixpoint drop_space (l : list ascii) : list ascii :=
  match l with
  | c :: r => if is_space c then drop_space r else l
  | [] => []
  end.
Definition trim (s : string) : string :=
  str (rev (drop_space (rev (drop_space (chars s))))).

(** [arr.join(sep)] *)
Fixpoint join (sep : string) (l : list string) : string :=
  match l with
  | [] => ""
  | [x] => x
  | x :: r => x +:+ sep +:+ join sep r
  end.

End Js.

(* ===================================================================== *)
(** ** Regular expressions *)
(* ===================================================================== *)

Module Re.
Import Js.

(** Members of a character class. *)
Inductive citem : Type :=
| One (c : ascii)
| Range (lo hi : ascii)
| Space          (* \s *)
| NotSpace       (* \S *)
| Word.          (* \w *)

Definition citem_has (it : citem) (c : ascii) : bool :=
  match it with
  | One a => Ascii.eqb a c
  | Range lo hi => in_range lo hi c
  | Space => is_space c
  | NotSpace => negb (is_space c)
  | Word => is_word c
  end.

Inductive regex : Type :=
| Eps
| Chr (c : ascii)
| Dot
| CSet (neg : bool) (items : list citem)
| Seq (r1 r2 : regex)
| Alt (r1 r2 : regex)
| Star (greedy : bool) (r : regex)
| Bol
| Eol
| WordB
| NegLook (r : regex)
| Group (n : nat) (r : regex).

(** Derived forms. *)
Fixpoint lit_chars (l : list ascii) : regex :=
  match l with
  | [] => Eps
  | [c] => Chr c
  | c :: r => Seq (Chr c) (lit_chars r)
  end.
Definition lit (s : string) : regex := lit_chars (chars s).

Fixpoint seqs (l : list regex) : regex :=
  match l with
  | [] => Eps
  | [r] => r
  | r :: rs => Seq r (seqs rs)
  end.

Fixpoint alts (l : list regex) : regex :=
  match l with
  | [] => CSet false []
  | [r] => r
  | r :: rs => Alt r (alts rs)
  end.

Definition opt (r : regex) : regex := Alt r Eps.              (* r?  *)
Definition star (r : regex) : regex := Star true r.            (* r*  *)
Definition lazy_star (r : regex) : regex := Star false r.      (* r*? *)
Definition plus (r : regex) : regex := Seq r (Star true r).    (* r+  *)
Fixpoint at_least (n : nat) (r : regex) : regex :=             (* r{n,} *)
  match n with
  | O => Star true r
  | S k => Seq r (at_least k r)
  end.
Definition set (items : list citem) : regex := CSet false items.
Definition nset (items : list citem) : regex := CSet true items.
Definition ws : regex := set [Space].                          (* \s *)
Definition any : regex := set [Space; NotSpace].               (* [\s\S] *)

(** Captures: group number to (start, end), most recent first. *)
Definition caps : Type := list (nat * (nat * nat)).

Section Matcher.
(** the [i] flag *)
Variable ic : bool.
(** the subject string *)
Variable s : list ascii.

Definition chr_ok (a x : ascii) : bool :=
  if ic then Ascii.eqb (ascii_upper a) (ascii_upper x) else Ascii.eqb a x.

Definition items_have (items : list citem) (x : ascii) : bool :=
  existsb (fun it => citem_has it x) items.

Definition set_ok (neg : bool) (items : list citem) (x : ascii) : bool :=
  let found :=
    if ic then items_have items x || items_have items (ascii_upper x)
              || items_have items (ascii_lower x)
    else items_have items x in
  xorb neg found.

Definition word_at (i : nat) : bool :=
  match s !! i with Some c => is_word c | None => false end.

Definition word_boundary (i : nat) : bool :=
  xorb (match i with O => false | S k => word_at k end) (word_at i).

Definition step1 (ok : ascii -> bool) (i : nat) (c : caps)
  : list (nat * caps) :=
  match s !! i with
  | Some x => if ok x then [(S i, c)] else []
  | None => []
  end.

(** The iterations of a quantified [r*] or [r*?] from [i]; [step] gives
    the matches of [r].  An iteration that consumes nothing is refused,
    so that [length s - i + 1] rounds of fuel are never used up. *)
Fixpoint star_loop (greedy : bool)
    (step : nat -> caps -> list (nat * caps))
    (fuel : nat) (i : nat) (c : caps) {struct fuel} : list (nat * caps) :=
  match fuel with
  | O => [(i, c)]
  | S f =>
      let more :=
        flat_map (fun jc => if (i <? fst jc)%nat
                            then star_loop greedy step f (fst jc) (snd jc)
                            else [])
                 (step i c) in
      if greedy then more ++ [(i, c)] else (i, c) :: more
  end.

(** [run r i c]: the end positions (with captures) of the matches of
    [r] that start at [i], in backtracking priority order. *)
Fixpoint run (r : regex) (i : nat) (c : caps) {struct r}
  : list (nat * caps) :=
  match r with
  | Eps => [(i, c)]
  | Chr a => step1 (chr_ok a) i c
  | Dot => step1 (fun x => negb (is_line_terminator x)) i c
  | CSet neg items => step1 (set_ok neg items) i c
  | Seq r1 r2 => flat_map (fun jc => run r2 (fst jc) (snd jc)) (run r1 i c)
  | Alt r1 r2 => run r1 i c ++ run r2 i c
  | Star greedy r1 => star_loop greedy (run r1) (S (length s - i)) i c
  | Bol => if (i =? 0)%nat then [(i, c)] else []
  | Eol => if (i =? length s)%nat then [(i, c)] else []
  | WordB => if word_boundary i then [(i, c)] else []
  | NegLook r1 => match run r1 i c with [] => [(i, c)] | _ :: _ => [] end
  | Group n r1 =>
      map (fun jc => (fst jc, (n, (i, fst jc)) :: snd jc)) (run r1 i c)
  end.

(** Leftmost match at or after [i], trying [fuel + 1] start positions. *)
Fixpoint search (r : regex) (fuel i : nat) : option (nat * nat * caps) :=
  match run r i [] with
  | (j, c) :: _ => Some (i, j, c)
  | [] => match fuel with
          | O => None
          | S f => search r f (S i)
          end
  end.

Definition exec_from (r : regex) (from : nat) : option (nat * nat * caps) :=
  if (from <=? length s)%nat then search r (length s - from) from else None.
End Matcher.

(** What it means for [r] to match the characters of [s] from [i] up to
    [j], whatever the order in which the matcher finds the matches. *)
Section Meaning.
Variable ic : bool.
Variable s : list ascii.

(** Iterations of a quantifier, each of them consuming something. *)
Inductive iter (R : nat -> nat -> Prop) : nat -> nat -> Prop :=
| iter_stop (i : nat) : iter R i i
| iter_step (i k j : nat) : R i k -> i < k -> iter R k j -> iter R i j.

Fixpoint Matches (r : regex) (i j : nat) {struct r} : Prop :=
  match r with
  | Eps => j = i
  | Chr a => exists x, s !! i = Some x /\ chr_ok ic a x = true /\ j = S i
  | Dot =>
      exists x, s !! i = Some x /\ is_line_terminator x = false /\ j = S i
  | CSet neg items =>
      exists x, s !! i = Some x /\ set_ok ic neg items x = true /\ j = S i
  | Seq r1 r2 => exists k, Matches r1 i k /\ Matches r2 k j
  | Alt r1 r2 => Matches r1 i j \/ Matches r2 i j
  | Star _ r1 => iter (Matches r1) i j
  | Bol => i = 0 /\ j = i
  | Eol => i = length s /\ j = i
  | WordB => word_boundary s i = true /\ j = i
  | NegLook r1 => (forall k, ~ Matches r1 i k) /\ j = i
  | Group _ r1 => Matches r1 i j
  end.
End Meaning.

(** A regular-expression object: source and flags. *)
Record regexp : Type := mkRegexp {
  re_source : regex;
  re_ignoreCase : bool;
  re_global : bool
}.

(** A match: [index], the end offset, and the matched groups.  *)
Record rmatch : Type := mkMatch {
  m_input : string;
  m_index : nat;
  m_end : nat;
  m_caps : caps
}.

(** [match[0]] *)
Definition m0 (m : rmatch) : string :=
  slice (m_index m) (m_end m) (m_input m).

(** [match[n]] for a group that took part in the match *)
Definition mgroup (n : nat) (m : rmatch) : string :=
  match List.find (fun e => (fst e =? n)%nat) (m_caps m) with
  | Some (_, (a, b)) => slice a b (m_input m)
  | None => ""
  end.

(** [re.exec(s)] with [re.lastIndex = lastIndex] before the call: the
    match and the value of [re.lastIndex] after it.  Without the [g]
    flag [lastIndex] is neither read nor advanced. *)
Definition exec (re : regexp) (lastIndex : nat) (s : string)
  : option rmatch * nat :=
  let from := if re_global re then lastIndex else O in
  match exec_from (re_ignoreCase re) (chars s) (re_source re) from with
  | Some (i, j, c) =>
      (Some (mkMatch s i j c), if re_global re then j else lastIndex)
  | None => (None, if re_global re then O else lastIndex)
  end.

(** [re.test(s)] and [s.match(re)] for a regular expression without [g] *)
Definition test (re : regexp) (s : string) : bool :=
  match fst (exec re O s) with Some _ => true | None => false end.

Definition smatch (re : regexp) (s : string) : option rmatch :=
  fst (exec re O s).

(** [/src/], [/src/i] *)
Definition re_ (r : regex) : regexp := mkRegexp r false false.
Definition re_i (r : regex) : regexp := mkRegexp r true false.

End Re.

(* ===================================================================== *)
(** ** Data model *)
(* ===================================================================== *)

Import Js Re.

(** Outcome of a computation that may throw. *)
Inductive result (A : Type) : Type :=
| Ok (a : A)
| Throw (msg : string).
Arguments Ok {A} a.
Arguments Throw {A} msg.

Definition rbind {A B : Type} (x : result A) (f : A -> result B) : result B :=
  match x with
  | Ok a => f a
  | Throw e => Throw e
  end.

Inductive Severity : Type := CRITICAL | HIGH | MEDIUM.

Global Instance Severity_eq_dec : EqDecision Severity.
Proof. solve_decision. Defined.

Inductive ContentType : Type :=
| agent | skill | command | rule | hook_config | hook_script | unknown.

Global Instance ContentType_eq_dec : EqDecision ContentType.
Proof. solve_decision. Defined.

Definition contentType_name (t : ContentType) : string :=
  match t with
  | agent => "agent"
  | skill => "skill"
  | command => "command"
  | rule => "rule"
  | hook_config => "hook-config"
  | hook_script => "hook-script"
  | unknown => "unknown"
  end.

(** An element of a parsed front-matter list: a string, or any other
    JSON value (kept as its text). *)
Inductive jsval : Type :=
| JString (s : string)
| JOther (text : string).

Global Instance jsval_eq_dec : EqDecision jsval.
Proof. solve_decision. Defined.

(** A front-matter value: a string or an array. *)
Inductive fmval : Type :=
| VStr (s : string)
| VArr (l : list jsval).

(** A value that [JSON.parse] gives.  A number is kept as the text that
    JavaScript prints for it; an object as its own properties. *)
#[warnings="-register-all"]
Inductive json : Type :=
| JNull
| JBool (b : bool)
| JNum (shown : string)
| JStr (s : string)
| JArr (items : list json)
| JObj (props : list (string * json)).

(** Truthiness: [null], [false], zero and the empty string are falsy. *)
Definition truthy_json (v : json) : bool :=
  match v with
  | JNull => false
  | JBool b => b
  | JNum shown => negb (String.eqb shown "0")
  | JStr s => negb (String.eqb s "")
  | JArr _ | JObj _ => true
  end.

Definition has_own (name : string) (props : list (string * json)) : bool :=
  existsb (fun kv => String.eqb (fst kv) name) props.

(** The conversion to a string ([String(v)], ['.' + v], a property
    key).  An array joins its elements with commas, [null] elements
    being empty; an object prints as [[object Object]], unless a property
    of its own hides [toString]: a parsed value holds no function, and
    the conversion throws. *)
Fixpoint to_string (v : json) : result string :=
  match v with
  | JNull => Ok "null"
  | JBool true => Ok "true"
  | JBool false => Ok "false"
  | JNum shown => Ok shown
  | JStr s => Ok s
  | JArr items =>
      (fix joined (l : list json) : result string :=
         match l with
         | [] => Ok ""
         | x :: rest =>
             rbind (match x with JNull => Ok "" | _ => to_string x end)
               (fun sx =>
                  match rest with
                  | [] => Ok sx
                  | _ :: _ =>
                      rbind (joined rest) (fun sr => Ok (sx +:+ "," +:+ sr))
                  end)
         end) items
  | JObj props =>
      if has_own "toString" props
      then Throw "Cannot convert object to primitive value"
      else Ok "[object Object]"
  end.

(** The policy configuration, as far as the code reads it: the values of
    the five properties that it looks up in what [JSON.parse] gave, none of
    them checked; [None] for a property that is absent, as all are in a
    parsed value that is not an object.  A configuration that is [null]
    is the [None] of an [option Config]. *)
Record Config : Type := mkConfig {
  blockOnSeverity : option json;
  warnOnSeverity : option json;
  auditLogPath : option json;
  whitelistedUrls : option json;
  allowedPatterns : option json
}.

Record Finding : Type := mkFinding {
  f_severity : Severity;
  f_id : string;
  f_description : string;
  f_line : nat;
  f_match : string
}.

(** What a custom check reports: [{ line, match }]. *)
Record Hit : Type := mkHit { h_line : nat; h_match : string }.

Definition frontmatter : Type := gmap string fmval.

Definition CheckFn : Type :=
  string -> option frontmatter -> option Config -> result (option Hit).

Record Pattern : Type := mkPattern {
  p_id : string;
  p_severity : Severity;
  p_description : string;
  p_regex : option regexp;
  p_contentTypes : list ContentType;
  p_check : option CheckFn;
  p_multiline : bool
}.

(** [x || d] on parsed values *)
Definition or_json (x : option json) (d : json) : json :=
  match x with
  | Some v => if truthy_json v then v else d
  | None => d
  end.

(** [arr.includes(x)] *)
Definition includes {A : Type} `{EqDecision A} (l : list A) (x : A) : bool :=
  existsb (fun y => bool_decide (y = x)) l.

(** [lines[i] || ''] *)
Definition line_at (lines : list string) (i : nat) : string :=
  match lines !! i with Some l => l | None => "" end.

Definition dq : ascii := "034"%char.
Definition sq : ascii := "'"%char.
Definition bq : ascii := "`"%char.
Definition bs : ascii := "\"%char.
Definition quote : string := String dq "".

(* ===================================================================== *)
(** ** Pattern library *)
(* ===================================================================== *)

Module Rules.

(** [(?:api[_-]?key|password|secret|token|credential)\s*[:=]\s*[\x22']([a-zA-Z0-9+/=_\-]{16,})[\x22']]
    with flags [gi]; [\x22] is the double quote. *)
Definition secretRegex : regexp :=
  mkRegexp
    (seqs [ alts [ seqs [lit "api"; opt (set [One "_"; One "-"]); lit "key"];
                   lit "password"; lit "secret"; lit "token"; lit "credential" ];
            star ws; set [One ":"; One "="]; star ws;
            set [One dq; One sq];
            Group 1 (at_least 16
                       (set [Range "a" "z"; Range "A" "Z"; Range "0" "9";
                             One "+"; One "/"; One "="; One "_"; One "-"]));
            set [One dq; One sq] ])
    true true.

(** [^(sk-)?[0-9a-f]{16,}$|^(test|example|fake|dummy|placeholder|your[_-])] with flag [i] *)
Definition fakePatterns : regexp :=
  re_i (Alt (seqs [ Bol; opt (Group 1 (lit "sk-"));
                    at_least 16 (set [Range "0" "9"; Range "a" "f"]); Eol ])
            (seqs [ Bol;
                    Group 2 (alts [ lit "test"; lit "example"; lit "fake";
                                    lit "dummy"; lit "placeholder";
                                    seqs [lit "your"; set [One "_"; One "-"]] ]) ])).

(** [(?:WRONG|BAD|NEVER|DON'T|don't|wrong|bad|never|anti.?pattern)] with flag [i] *)
Definition badExample : regexp :=
  re_i (alts [ lit "WRONG"; lit "BAD"; lit "NEVER"; lit "DON'T"; lit "don't";
               lit "wrong"; lit "bad"; lit "never";
               seqs [lit "anti"; opt Dot; lit "pattern"] ]).

(** The line [i] of CRIT-001's loop is skipped when it, or one of the
    lines [max(0, i-1)], [max(0, i-2)], documents a bad practice. *)
Definition documents_bad_practice (lines : list string) (i : nat) : bool :=
  test badExample (line_at lines i)
  || test badExample (line_at lines (Nat.max 0 (i - 1)))
  || test badExample (line_at lines (Nat.max 0 (i - 2))).

(** The [for] loop of CRIT-001 from index [i], over [n] more lines. *)
Fixpoint crit001_loop (lines : list string) (n i : nat) : option Hit :=
  match n with
  | O => None
  | S n' =>
      let line := line_at lines i in
      if documents_bad_practice lines i then crit001_loop lines n' (S i)
      else
        match fst (exec secretRegex 0 line) with
        | Some m =>
            if negb (test fakePatterns (mgroup 1 m))
            then Some (mkHit (i + 1) (m0 m))
            else crit001_loop lines n' (S i)
        | None => crit001_loop lines n' (S i)
        end
  end.

Definition crit001_check : CheckFn := fun content _ _ =>
  let lines := split LF content in
  Ok (crit001_loop lines (length lines) 0).

(** [frontmatter.tools] lists all of Read, Write, Edit, Bash, Grep, Glob. *)
Definition allTools : list string :=
  ["Read"; "Write"; "Edit"; "Bash"; "Grep"; "Glob"].

Section Host.
(** [JSON.stringify] on an array held in the front matter, a function
    of the host. *)
Variable JSON_stringify : list jsval -> string.

Definition high001_check : CheckFn := fun _ fm _ =>
  match fm with
  | None => Ok None
  | Some fm =>
      match fm !! "tools" with
      | None => Ok None
      | Some (VStr _) => Ok None
      | Some (VArr tools) =>
          if (6 <=? length tools)%nat
             && forallb (fun t => includes tools (JString t)) allTools
          then Ok (Some (mkHit 1 ("tools: " +:+ JSON_stringify tools)))
          else Ok None
      end
  end.
End Host.

(** [https?:\/\/([^/\s\x22'`)]+)] with flag [g] *)
Definition urlRegex : regexp :=
  mkRegexp
    (seqs [ lit "http"; opt (Chr "s"); lit "://";
            Group 1 (plus (nset [One "/"; Space; One dq; One sq; One bq; One ")"])) ])
    false true.

Definition defaultWhitelist : list string :=
  [ "github.com"; "owasp.org"; "nodejs.org"; "developer.mozilla.org";
    "nextjs.org"; "supabase.com"; "learn.microsoft.com"; "npmjs.com";
    "localhost"; "127.0.0.1"; "example.com" ].

(** [(config && config.whitelistedUrls) || []] *)
Definition whitelist_of (config : option Config) : json :=
  match config with
  | Some c => or_json (whitelistedUrls c) (JArr [])
  | None => JArr []
  end.

(** What [...whitelist] spreads into the array: the elements of an
    array, the characters of a string; any other value is not iterable.
    The value is truthy here, a falsy one having given way to [[]]. *)
Definition spread (whitelist : json) : result (list json) :=
  match whitelist with
  | JArr items => Ok items
  | JStr s => Ok (map (fun c => JStr (String c "")) (chars s))
  | JNull | JBool _ | JNum _ | JObj _ => Throw "whitelist is not iterable"
  end.

(** [allowed.some(w => domain === w || domain.endsWith('.' + w))]; the
    concatenation converts [w] to a string, which can throw. *)
Fixpoint domain_allowed (allowed : list json) (domain : string)
  : result bool :=
  match allowed with
  | [] => Ok false
  | w :: rest =>
      if match w with JStr s => String.eqb domain s | _ => false end
      then Ok true
      else
        rbind (to_string w) (fun sw =>
          if endsWith domain ("." +:+ sw) then Ok true
          else domain_allowed rest domain)
  end.

(** The [while ((match = urlRegex.exec(line)) !== null)] loop: the hits
    pushed for one line, [lastIndex] being the state of [urlRegex]. *)
Fixpoint med003_line (allowed : list json) (line : string) (lineno : nat)
    (fuel lastIndex : nat) : result (list Hit) :=
  match fuel with
  | O => Ok []
  | S fuel' =>
      match exec urlRegex lastIndex line with
      | (Some m, lastIndex') =>
          let domain := toLowerCase (mgroup 1 m) in
          rbind (domain_allowed allowed domain) (fun isAllowed =>
          rbind (med003_line allowed line lineno fuel' lastIndex') (fun rest =>
            Ok (if isAllowed then rest else mkHit lineno (m0 m) :: rest)))
      | (None, _) => Ok []
      end
  end.

Fixpoint med003_lines (allowed : list json) (lines : list string) (i : nat)
  : result (list Hit) :=
  match lines with
  | [] => Ok []
  | l :: rest =>
      rbind (med003_line allowed l (i + 1) (S (strlen l)) 0) (fun here =>
      rbind (med003_lines allowed rest (S i)) (fun below =>
        Ok (here ++ below)))
  end.

Definition med003_check : CheckFn := fun content _ config =>
  rbind (spread (whitelist_of config)) (fun whitelist =>
    let allowed := map JStr defaultWhitelist ++ whitelist in
    rbind (med003_lines allowed (split LF content) 0) (fun findings =>
      Ok (match findings with h :: _ => Some h | [] => None end))).

(** [(frontmatter.k || \x22\x22).toLowerCase()]: an array has no
    [toLowerCase], and calling it throws. *)
Definition lower_field (fm : frontmatter) (k : string) : result string :=
  match fm !! k with
  | None => Ok ""
  | Some (VStr s) => Ok (toLowerCase s)
  | Some (VArr _) =>
      Throw ("(frontmatter." +:+ k +:+ " || " +:+ quote +:+ quote
             +:+ ").toLowerCase is not a function")
  end.

Definition securityKeywords : list string :=
  ["security"; "auth"; "admin"; "permission"; "access"].

Definition med004_check : CheckFn := fun _ fm _ =>
  match fm with
  | None => Ok None
  | Some fm =>
      rbind (lower_field fm "name") (fun name =>
      rbind (lower_field fm "model") (fun model =>
        if String.eqb model "haiku"
           && existsb (fun k => includes_str name k) securityKeywords
        then Ok (Some (mkHit 1 ("model: " +:+ model +:+ ", name: " +:+ name)))
        else Ok None))
  end.

End Rules.

(* ===================================================================== *)
(** ** Content classifier *)
(* ===================================================================== *)

Module Classifier.

(** [(?:^|\/)dir\/[^/]+\.ext$] *)
Definition direct_child_re (dir ext : string) : regexp :=
  re_ (seqs [ Alt Bol (Chr "/"); lit dir; Chr "/";
              plus (nset [One "/"]); lit ext; Eol ]).

(** [(?:^|\/)skills\/] *)
Definition under_skills_re : regexp :=
  re_ (seqs [ Alt Bol (Chr "/"); lit "skills"; Chr "/" ]).

(** [(?:^|\/)hooks\/hooks\.json$] *)
Definition hooks_json_re : regexp :=
  re_ (seqs [ Alt Bol (Chr "/"); lit "hooks/hooks.json"; Eol ]).

(** [(?:^|\/)scripts\/hooks\/[^/]+\.js$] *)
Definition hook_script_re : regexp := direct_child_re "scripts/hooks" ".js".

(** [filePath.replace(/\\/g, '/').toLowerCase()] *)
Definition normalize (filePath : string) : string :=
  toLowerCase (replace_char bs "/" filePath).

Definition detectContentType (filePath : string) : ContentType :=
  let normalized := normalize filePath in
  if test (direct_child_re "agents" ".md") normalized then agent
  else if test under_skills_re normalized && endsWith normalized ".md" then skill
  else if test (direct_child_re "commands" ".md") normalized then command
  else if test (direct_child_re "rules" ".md") normalized then rule
  else if test hooks_json_re normalized then hook_config
  else if test hook_script_re normalized then hook_script
  else unknown.

End Classifier.
Export Classifier.

(* ===================================================================== *)
(** ** Front-matter parser *)
(* ===================================================================== *)

Module Frontmatter.

(** [^---\s*\n([\s\S]*?)\n---] *)
Definition block_re : regexp :=
  re_ (seqs [ Bol; lit "---"; star ws; Chr LF;
              Group 1 (lazy_star any); Chr LF; lit "---" ]).

(** [^\s+-\s+(.+)$] *)
Definition arrayItem_re : regexp :=
  re_ (seqs [ Bol; plus ws; Chr "-"; plus ws; Group 1 (plus Dot); Eol ]).

(** [^(\w+)\s*:\s*(.{0,})$], the second group being any run of [.] *)
Definition kv_re : regexp :=
  re_ (seqs [ Bol; Group 1 (plus (set [Word])); star ws; Chr ":"; star ws;
              Group 2 (star Dot); Eol ]).

(** [^[\x22'].*[\x22']$] *)
Definition quoted_re : regexp :=
  re_ (seqs [ Bol; set [One dq; One sq]; star Dot; set [One dq; One sq]; Eol ]).

Definition is_quote (c : ascii) : bool := Ascii.eqb c dq || Ascii.eqb c sq.

(** [s.replace(/^[\x22']|[\x22']$/g, '')]: a quote at the start is
    removed, then a quote that ends what is left. *)
Definition strip_quotes (s : string) : string :=
  let l := chars s in
  let l1 := match l with
            | c :: r => if is_quote c then r else l
            | [] => []
            end in
  let l2 := match rev l1 with
            | c :: r => if is_quote c then rev r else l1
            | [] => []
            end in
  str l2.

(** [result[key] = v]: an assignment to [__proto__] creates no own
    property. *)
Definition set_prop (result : frontmatter) (key : string) (v : fmval)
  : frontmatter :=
  if String.eqb key "__proto__" then result else <[key := v]> result.

Section Host.
(** [JSON.parse] on a text that starts with [[] and ends with []]: the
    array it denotes, or [None] when it throws. *)
Variable JSON_parse : string -> option (list jsval).

(** The value of an inline list [[ ... ]]. *)
Definition inline_array (value : string) : list jsval :=
  match JSON_parse value with
  | Some arr => arr
  | None =>
      map (fun s => JString (strip_quotes (trim s)))
          (split "," (slice 1 (strlen value - 1) value))
  end.

(** One iteration of the loop over the lines of the block; the state is
    [result] and [currentKey]. *)
Definition parse_line (st : frontmatter * option string) (line : string)
  : frontmatter * option string :=
  let '(result, currentKey) := st in
  match smatch arrayItem_re line, currentKey with
  | Some am, Some key =>
      let items := match result !! key with
                   | Some (VArr l) => l
                   | _ => []
                   end in
      (set_prop result key
         (VArr (items ++ [JString (strip_quotes (mgroup 1 am))])),
       currentKey)
  | _, _ =>
      match smatch kv_re line with
      | Some km =>
          let key := trim (mgroup 1 km) in
          let value := trim (mgroup 2 km) in
          if String.eqb value "" then (set_prop result key (VArr []), Some key)
          else if startsWith value "[" && endsWith value "]"
          then (set_prop result key (VArr (inline_array value)), Some key)
          else if test quoted_re value
          then (set_prop result key
                  (VStr (slice 1 (strlen value - 1) value)), Some key)
          else (set_prop result key (VStr value), Some key)
      | None => st
      end
  end.

Definition parseFrontmatter (content : string) : option frontmatter :=
  match smatch block_re content with
  | None => None
  | Some m =>
      let yaml := mgroup 1 m in
      let result := fst (fold_left parse_line (split LF yaml) (∅, None)) in
      if (0 <? size result)%nat then Some result else None
  end.
End Host.

End Frontmatter.
Export Frontmatter.

(* ===================================================================== *)
(** ** Pattern table and scanner *)
(* ===================================================================== *)

(** The [lastIndex] of the regular-expression objects held by [PATTERNS],
    by rule id: the only state that outlives a call of [scanContent]. *)
Definition heap : Type := gmap string nat.

Module Scanner.
Import Rules.

Definition docs : list ContentType := [agent; skill; command; rule].
Definition docs_and_scripts : list ContentType :=
  [agent; skill; command; rule; hook_script].

Definition by_regex (id : string) (sev : Severity) (desc : string)
    (re : regexp) (types : list ContentType) (multiline : bool) : Pattern :=
  mkPattern id sev desc (Some re) types None multiline.

Definition by_check (id : string) (sev : Severity) (desc : string)
    (types : list ContentType) (check : CheckFn) : Pattern :=
  mkPattern id sev desc None types (Some check) false.

Definition edit_verbs (verbs : list string) : regex := alts (map lit verbs).

(** [(?:fetch|axios|got|node-fetch|request)\s*\(\s*[\x22'`]https?:\/\/(?!localhost|127\.0\.0\.1|0\.0\.0\.0)], flag [i] *)
Definition crit002_re : regexp :=
  re_i (seqs [ alts [lit "fetch"; lit "axios"; lit "got"; lit "node-fetch";
                     lit "request"];
               star ws; Chr "("; star ws; set [One dq; One sq; One bq];
               lit "http"; opt (Chr "s"); lit "://";
               NegLook (alts [lit "localhost"; lit "127.0.0.1"; lit "0.0.0.0"]) ]).

(** [(?:skip|disable|bypass|ignore|remove|turn\s*off)\s+(?:security|validation|auth(?:entication|orization)?|csrf|xss|sanitiz|rate.?limit|hook)], flag [i] *)
Definition crit003_re : regexp :=
  re_i (seqs [ alts [lit "skip"; lit "disable"; lit "bypass"; lit "ignore";
                     lit "remove"; seqs [lit "turn"; star ws; lit "off"]];
               plus ws;
               alts [ lit "security"; lit "validation";
                      seqs [lit "auth";
                            opt (Alt (lit "entication") (lit "orization"))];
                      lit "csrf"; lit "xss"; lit "sanitiz";
                      seqs [lit "rate"; opt Dot; lit "limit"]; lit "hook" ] ]).

(** [(?:ignore\s+(?:previous|all|above|prior)\s+instructions|you\s+are\s+now\s+|system\s*:\s*you\s+|forget\s+(?:all|your)\s+(?:previous|prior)\s+|override\s+(?:all|your)\s+(?:rules|instructions|safety))], flag [i] *)
Definition crit004_re : regexp :=
  re_i (alts
    [ seqs [lit "ignore"; plus ws;
            alts [lit "previous"; lit "all"; lit "above"; lit "prior"];
            plus ws; lit "instructions"];
      seqs [lit "you"; plus ws; lit "are"; plus ws; lit "now"; plus ws];
      seqs [lit "system"; star ws; Chr ":"; star ws; lit "you"; plus ws];
      seqs [lit "forget"; plus ws; Alt (lit "all") (lit "your"); plus ws;
            Alt (lit "previous") (lit "prior"); plus ws];
      seqs [lit "override"; plus ws; Alt (lit "all") (lit "your"); plus ws;
            alts [lit "rules"; lit "instructions"; lit "safety"]] ]).

(** [(?:eval\s*\(|new\s+Function\s*\()[\s\S]*?(?:atob|Buffer\.from|decodeURI)], flag [i] *)
Definition crit005_re : regexp :=
  re_i (seqs [ Alt (seqs [lit "eval"; star ws; Chr "("])
                   (seqs [lit "new"; plus ws; lit "Function"; star ws; Chr "("]);
               lazy_star any;
               alts [lit "atob"; lit "Buffer.from"; lit "decodeURI"] ]).

Definition base64 : regex :=
  set [Range "A" "Z"; Range "a" "z"; Range "0" "9"; One "+"; One "/"; One "="].

(** [(?:atob|Buffer\.from)\s*\(\s*[\x22'][A-Za-z0-9+/=]{60,}[\x22']] *)
Definition crit005b_re : regexp :=
  re_ (seqs [ Alt (lit "atob") (lit "Buffer.from"); star ws; Chr "("; star ws;
              set [One dq; One sq]; at_least 60 base64; set [One dq; One sq] ]).

(** [(?:https?\.request|https?\.get|net\.connect|dgram\.|fetch\s*\(|axios|got\s*\(|node-fetch|request\s*\()] *)
Definition crit006_re : regexp :=
  re_ (alts [ seqs [lit "http"; opt (Chr "s"); lit ".request"];
              seqs [lit "http"; opt (Chr "s"); lit ".get"];
              lit "net.connect"; lit "dgram.";
              seqs [lit "fetch"; star ws; Chr "("];
              lit "axios";
              seqs [lit "got"; star ws; Chr "("];
              lit "node-fetch";
              seqs [lit "request"; star ws; Chr "("] ]).

(** [(?:writeFileSync|appendFileSync|unlinkSync|rmdirSync|rmSync|createWriteStream)\s*\(\s*(?!.*(?:PLUGIN_DIR|__dirname|\.\/|\.\.\/logs))] *)
Definition crit007_re : regexp :=
  re_ (seqs [ alts [lit "writeFileSync"; lit "appendFileSync"; lit "unlinkSync";
                    lit "rmdirSync"; lit "rmSync"; lit "createWriteStream"];
              star ws; Chr "("; star ws;
              NegLook (seqs [ star Dot;
                              alts [lit "PLUGIN_DIR"; lit "__dirname"; lit "./";
                                    lit "../logs"] ]) ]).

(** [process\.env\s*\[[\s\S]*?\]\s*=] *)
Definition crit008_re : regexp :=
  re_ (seqs [ lit "process.env"; star ws; Chr "["; lazy_star any; Chr "]";
              star ws; Chr "=" ]).

(** [(?:edit|modify|delete|remove|replace|overwrite)\s+(?:.*?)(?:security-gate|security-patterns|security-gate-config|plugin-security)], flag [i] *)
Definition high002_re : regexp :=
  re_i (seqs [ edit_verbs ["edit"; "modify"; "delete"; "remove"; "replace";
                           "overwrite"];
               plus ws; lazy_star Dot;
               alts [lit "security-gate"; lit "security-patterns";
                     lit "security-gate-config"; lit "plugin-security"] ]).

(** [--(?:no-verify|force-with-lease|force|skip-hooks|dangerously|no-gpg-sign)\b] *)
Definition high003_re : regexp :=
  re_ (seqs [ lit "--";
              alts [lit "no-verify"; lit "force-with-lease"; lit "force";
                    lit "skip-hooks"; lit "dangerously"; lit "no-gpg-sign"];
              WordB ]).

(** [(?:edit|modify|delete|remove|rewrite)\s+(?:.*?)(?:hooks\.json|hooks[/\\]hooks|rules[/\\]security)], flag [i] *)
Definition high004_re : regexp :=
  re_i (seqs [ edit_verbs ["edit"; "modify"; "delete"; "remove"; "rewrite"];
               plus ws; lazy_star Dot;
               alts [ lit "hooks.json";
                      seqs [lit "hooks"; set [One "/"; One bs]; lit "hooks"];
                      seqs [lit "rules"; set [One "/"; One bs]; lit "security"] ] ]).

(** [(?:require\s*\(\s*['\x22]child_process['\x22]\)|execSync|spawnSync|exec\s*\()\s*] *)
Definition high005_re : regexp :=
  re_ (seqs [ alts [ seqs [lit "require"; star ws; Chr "("; star ws;
                           set [One sq; One dq]; lit "child_process";
                           set [One sq; One dq]; Chr ")"];
                     lit "execSync"; lit "spawnSync";
                     seqs [lit "exec"; star ws; Chr "("] ];
              star ws ]).

(** [(?:edit|modify|write|update|change|overwrite|delete)\s+(?:.*?)\.claude[/\\]settings\.json], flag [i] *)
Definition high006_re : regexp :=
  re_i (seqs [ edit_verbs ["edit"; "modify"; "write"; "update"; "change";
                           "overwrite"; "delete"];
               plus ws; lazy_star Dot;
               lit ".claude"; set [One "/"; One bs]; lit "settings.json" ]).

(** [\.innerHTML\s*=] *)
Definition med001_re : regexp := re_ (seqs [lit ".innerHTML"; star ws; Chr "="]).

(** [:\s*any\b] *)
Definition med002_re : regexp := re_ (seqs [Chr ":"; star ws; lit "any"; WordB]).

Section Host.
Variable JSON_parse : string -> option (list jsval).
Variable JSON_stringify : list jsval -> string.

Definition PATTERNS : list Pattern :=
  [ by_check "CRIT-001" CRITICAL "Hardcoded secret or API key in content"
      docs_and_scripts crit001_check;
    by_regex "CRIT-002" CRITICAL
      "Data exfiltration - fetch/curl/wget to external URL"
      crit002_re [hook_script] false;
    by_regex "CRIT-003" CRITICAL
      "Instructions to skip or disable security checks"
      crit003_re docs false;
    by_regex "CRIT-004" CRITICAL "Prompt injection phrase detected"
      crit004_re docs false;
    by_regex "CRIT-005" CRITICAL
      "Obfuscated code - base64 payload or eval with decode"
      crit005_re docs_and_scripts true;
    by_regex "CRIT-005b" CRITICAL
      "Obfuscated code - large base64 string (>60 chars)"
      crit005b_re docs_and_scripts false;
    by_regex "CRIT-006" CRITICAL "Network request in hook script"
      crit006_re [hook_script] false;
    by_regex "CRIT-007" CRITICAL
      "File system write/delete outside plugin directory"
      crit007_re [hook_script] false;
    by_regex "CRIT-008" CRITICAL
      "Process.env write or dangerous process manipulation"
      crit008_re [hook_script] false;
    by_check "HIGH-001" HIGH
      "Agent requests ALL 6 tools (Read, Write, Edit, Bash, Grep, Glob)"
      [agent] (high001_check JSON_stringify);
    by_regex "HIGH-002" HIGH "Instructions to modify security gate files"
      high002_re docs false;
    by_regex "HIGH-003" HIGH
      "Suggesting --no-verify, --force, or --skip-hooks flags"
      high003_re docs false;
    by_regex "HIGH-004" HIGH
      "Instructions to modify hooks.json or security rules"
      high004_re [agent; skill; command] false;
    by_regex "HIGH-005" HIGH
      "child_process or exec usage in skill/command code examples"
      high005_re [skill; command] false;
    by_regex "HIGH-006" HIGH "Instructions to modify .claude/settings.json"
      high006_re docs false;
    by_regex "MED-001" MEDIUM "innerHTML assignment in code example"
      med001_re [skill; command] false;
    by_regex "MED-002" MEDIUM
      ("TypeScript " +:+ quote +:+ "any" +:+ quote
       +:+ " type usage in code example")
      med002_re [skill; command] false;
    by_check "MED-003" MEDIUM "Unrecognized external URL (not in whitelist)"
      docs med003_check;
    by_check "MED-004" MEDIUM
      "Agent uses model:haiku for security-sensitive role"
      [agent] med004_check ].

(** [truncate(str, maxLen)] *)
Definition truncate (s : string) (maxLen : nat) : string :=
  if (strlen s <=? maxLen)%nat then s
  else slice 0 (maxLen - 3) s +:+ "...".

(** [str.match(re)] for the regular expression of the rule [id]: the
    match, and the heap after the call. *)
Definition match_rule (h : heap) (id : string) (re : regexp) (s : string)
  : option rmatch * heap :=
  let '(m, lastIndex') := exec re (default 0 (h !! id)) s in
  (m, if re_global re then <[id := lastIndex']> h else h).

(** The line-by-line loop of a rule: the first line that matches. *)
Fixpoint scan_lines (h : heap) (p : Pattern) (re : regexp)
    (lines : list string) (i : nat) : option Finding * heap :=
  match lines with
  | [] => (None, h)
  | l :: rest =>
      match match_rule h (p_id p) re l with
      | (Some lineMatch, h') =>
          (Some (mkFinding (p_severity p) (p_id p) (p_description p)
                           (i + 1) (truncate (m0 lineMatch) 120)), h')
      | (None, h') => scan_lines h' p re rest (S i)
      end
  end.

(** A rule applied to the content: the finding it pushes, if any. *)
Definition apply_pattern (h : heap) (p : Pattern) (content : string)
    (lines : list string) (fm : option frontmatter) (config : option Config)
  : result (option Finding) * heap :=
  match p_check p with
  | Some check =>
      (rbind (check content fm config) (fun r =>
         Ok (match r with
             | Some hit =>
                 Some (mkFinding (p_severity p) (p_id p) (p_description p)
                         (if (h_line hit =? 0)%nat then 1 else h_line hit)
                         (truncate (h_match hit) 120))
             | None => None
             end)), h)
  | None =>
      match p_regex p with
      | None => (Ok None, h)
      | Some re =>
          if p_multiline p then
            match match_rule h (p_id p) re content with
            | (Some fullMatch, h') =>
                let lineNum :=
                  length (split LF (slice 0 (m_index fullMatch) content)) in
                (Ok (Some (mkFinding (p_severity p) (p_id p)
                             (p_description p) lineNum
                             (truncate (replace_char LF " " (m0 fullMatch))
                                       120))), h')
            | (None, h') => (Ok None, h')
            end
          else
            let '(f, h') := scan_lines h p re lines 0 in (Ok f, h')
      end
  end.

(** [allowedPatterns.includes(id)]: membership in an array, the test for
    a substring in a string; any other value has no [includes], and the
    call throws. *)
Definition includes_id (allowed : json) (id : string) : result bool :=
  match allowed with
  | JArr items =>
      Ok (existsb (fun v => match v with
                            | JStr s => String.eqb s id
                            | _ => false
                            end) items)
  | JStr s => Ok (includes_str s id)
  | JNull | JBool _ | JNum _ | JObj _ =>
      Throw "allowedPatterns.includes is not a function"
  end.

(** The loop over [PATTERNS], [findings] being the array built so far. *)
Fixpoint scan_patterns (h : heap) (ps : list Pattern) (content : string)
    (lines : list string) (fm : option frontmatter) (config : option Config)
    (contentType : ContentType) (allowed : json)
    (findings : list Finding) : result (list Finding) * heap :=
  match ps with
  | [] => (Ok findings, h)
  | p :: rest =>
      if negb (includes (p_contentTypes p) contentType)
      then scan_patterns h rest content lines fm config contentType allowed
             findings
      else
        match includes_id allowed (p_id p) with
        | Throw e => (Throw e, h)
        | Ok true =>
            scan_patterns h rest content lines fm config contentType allowed
              findings
        | Ok false =>
            match apply_pattern h p content lines fm config with
            | (Throw e, h') => (Throw e, h')
            | (Ok None, h') =>
                scan_patterns h' rest content lines fm config contentType
                  allowed findings
            | (Ok (Some f), h') =>
                scan_patterns h' rest content lines fm config contentType
                  allowed (findings ++ [f])
            end
        end
  end.

(** [const order = { CRITICAL: 0, HIGH: 1, MEDIUM: 2 }] *)
Definition order (s : Severity) : Z :=
  match s with
  | CRITICAL => 0
  | HIGH => 1
  | MEDIUM => 2
  end.

(** [x || d] on numbers: zero is falsy. *)
Definition or_num (x d : Z) : Z := if (x =? 0)%Z then d else x.

(** [(a, b) => (order[a.severity] || 3) - (order[b.severity] || 3)] *)
Definition compareFindings (a b : Finding) : Z :=
  (or_num (order (f_severity a)) 3 - or_num (order (f_severity b)) 3)%Z.

(** [Array.prototype.sort(cmp)]: a stable sort. *)
Fixpoint insert_sorted {A : Type} (cmp : A -> A -> Z) (x : A) (l : list A)
  : list A :=
  match l with
  | [] => [x]
  | y :: r => if (cmp x y <=? 0)%Z then x :: l
              else y :: insert_sorted cmp x r
  end.

Definition sort {A : Type} (cmp : A -> A -> Z) (l : list A) : list A :=
  fold_right (insert_sorted cmp) [] l.

(** [(config && config.allowedPatterns) || []] *)
Definition exemptions (config : option Config) : json :=
  match config with
  | Some c => or_json (allowedPatterns c) (JArr [])
  | None => JArr []
  end.

(** The body of [scanContent], for the table of rules [ps] and the
    exemption list [allowed]. *)
Definition scan_with (ps : list Pattern) (allowed : json)
    (h : heap) (content : string)
    (contentType : ContentType) (config : option Config)
  : result (list Finding) * heap :=
  let fm := if includes [agent; skill; command; rule] contentType
            then parseFrontmatter JSON_parse content
            else None in
  let lines := split LF content in
  match scan_patterns h ps content lines fm config contentType
          allowed [] with
  | (Ok findings, h') => (Ok (sort compareFindings findings), h')
  | (Throw e, h') => (Throw e, h')
  end.

Definition scanContent (h : heap) (content : string)
    (contentType : ContentType) (config : option Config)
  : result (list Finding) * heap :=
  scan_with PATTERNS (exemptions config) h content contentType config.
End Host.

End Scanner.
Export Scanner.

(* ===================================================================== *)
(** ** Paths (POSIX [path] module) *)
(* ===================================================================== *)

Module Path.

Definition segments (p : string) : list string :=
  List.filter (fun s => negb (String.eqb s "")) (split "/" p).

(** Resolution of [.] and [..]; [acc] holds the segments kept so far,
    last first. *)
Fixpoint normalize_segments (acc : list string) (segs : list string)
  : list string :=
  match segs with
  | [] => rev acc
  | s :: rest =>
      if String.eqb s "." then normalize_segments acc rest
      else if String.eqb s ".." then normalize_segments (tail acc) rest
      else normalize_segments (s :: acc) rest
  end.

Definition of_segments (segs : list string) : string := "/" +:+ join "/" segs.

(** [path.resolve(base, p)] for an absolute [base] *)
Definition resolve (base p : string) : string :=
  let full := if startsWith p "/" then p else base +:+ "/" +:+ p in
  of_segments (normalize_segments [] (segments full)).

Fixpoint drop_common (a b : list string) : list string * list string :=
  match a, b with
  | x :: a', y :: b' => if String.eqb x y then drop_common a' b' else (a, b)
  | _, _ => (a, b)
  end.

(** [path.relative(from, to)] for absolute paths *)
Definition relative (from to : string) : string :=
  let '(up, down) := drop_common (normalize_segments [] (segments from))
                                 (normalize_segments [] (segments to)) in
  join "/" (map (fun _ => "..") up ++ down).

(** [path.basename(p)] *)
Definition basename (p : string) : string := List.last (segments p) "".

(** [path.join(base, p)] for an absolute [base] *)
Definition join (base p : string) : string :=
  of_segments (normalize_segments [] (segments (base +:+ "/" +:+ p))).

End Path.

(* ===================================================================== *)
(** ** Gate controller *)
(* ===================================================================== *)

Module Gate.

Definition PROTECTED_DIRS : list string :=
  ["agents"; "skills"; "commands"; "rules"; "hooks"; "scripts"].

Definition SELF_PATHS : list string :=
  [ "scripts/hooks/security-gate.js";
    "scripts/lib/security-patterns.js";
    "scripts/config/security-gate-config.json";
    "commands/security-scan.md";
    "rules/plugin-security.md" ].

Definition DEFAULT_LOG : string := "logs/security-audit.jsonl".

Inductive Action : Type := BLOCK | WARN | PASS.

Global Instance Action_eq_dec : EqDecision Action.
Proof. solve_decision. Defined.

(** One line of the audit log, before its serialisation. *)
Record AuditEntry : Type := mkAudit {
  a_timestamp : string;
  a_event : string;
  a_trigger : string;
  a_tool : json;
  a_targetFile : string;
  a_contentType : ContentType;
  a_findings : list Finding;
  a_action : Action
}.

(** What reading and parsing the configuration file gives: the parsed
    value ([None] when it is [null]), or the error of reading or parsing. *)
Inductive ConfigFile : Type :=
| Loaded (c : option Config)
| Unreadable (msg : string).

(** The surroundings of one run of the process. *)
Record Env : Type := mkEnv {
  PLUGIN_DIR : string;                    (* absolute, resolved *)
  cwd : result string;                    (* process.cwd(), or its error *)
  config_file : ConfigFile;               (* CONFIG_PATH, read and parsed *)
  now : string;                           (* new Date().toISOString() *)
  append_error : string -> option string; (* the error of an append, by path *)
  path_error : json -> string;            (* the message of the TypeError of
                                             path.resolve on a value that is
                                             not a string *)
  uncaught : string -> list string        (* what the runtime prints for an
                                             error that nothing catches *)
}.

(** What the process has done so far. *)
Record World : Type := mkWorld {
  stdout : list string;
  stderr : list string;
  files : gmap string (list AuditEntry);
  regexes : heap
}.

Definition console_log (w : World) (line : string) : World :=
  mkWorld (stdout w ++ [line]) (stderr w) (files w) (regexes w).

Definition console_error (w : World) (line : string) : World :=
  mkWorld (stdout w) (stderr w ++ [line]) (files w) (regexes w).

Definition console_errors (w : World) (lines : list string) : World :=
  fold_left console_error lines w.

Definition appendFile (w : World) (path : string) (e : AuditEntry) : World :=
  mkWorld (stdout w) (stderr w)
          (<[path := default [] (files w !! path) ++ [e]]> (files w))
          (regexes w).

Definition set_regexes (w : World) (h : heap) : World :=
  mkWorld (stdout w) (stderr w) (files w) h.

Definition defaultConfig : Config :=
  mkConfig (Some (JStr "CRITICAL")) (Some (JStr "HIGH"))
           (Some (JStr DEFAULT_LOG)) (Some (JArr [])) (Some (JArr [])).

Definition loadConfig (env : Env) (w : World) : option Config * World :=
  match config_file env with
  | Loaded c => (c, w)
  | Unreadable msg =>
      (Some defaultConfig,
       console_error w
         ("[SECURITY GATE] Warning: Could not load config, using defaults: "
          +:+ msg))
  end.

(** [config.name] on the parsed configuration: reading a property of
    [null] throws. *)
Definition property {A : Type} (config : option Config) (name : string)
    (get : Config -> A) : result A :=
  match config with
  | Some c => Ok (get c)
  | None =>
      Throw ("Cannot read properties of null (reading '" +:+ name +:+ "')")
  end.

(** The file [writeAuditLog] appends to; [path.resolve] throws on a log
    path that is not a string. *)
Definition auditLogDestination (env : Env) (config : Config) : result string :=
  match or_json (auditLogPath config) (JStr DEFAULT_LOG) with
  | JStr p =>
      let logPath := Path.resolve (PLUGIN_DIR env) p in
      if negb (startsWith logPath (PLUGIN_DIR env))
      then Ok (Path.resolve (PLUGIN_DIR env) DEFAULT_LOG)
      else Ok logPath
  | v => Throw (path_error env v)
  end.

(** [writeAuditLog(config, entry)]; [entry] comes without its timestamp. *)
Definition writeAuditLog (env : Env) (w : World) (config : option Config)
    (entry : string -> AuditEntry) : World :=
  match rbind (property config "auditLogPath" id)
              (auditLogDestination env) with
  | Throw msg =>
      console_error w ("[SECURITY GATE] Audit log write failed: " +:+ msg)
  | Ok logPath =>
      match append_error env logPath with
      | Some msg =>
          console_error w ("[SECURITY GATE] Audit log write failed: " +:+ msg)
      | None => appendFile w logPath (entry (now env))
      end
  end.

(** What a look-up in [severityLevel] gives when it is used as a number:
    a number, or not a number. *)
Inductive Level : Type :=
| Num (z : Z)
| NotANumber.

(** The names that the object literal [severityLevel] inherits from
    [Object.prototype]. *)
Definition inherited : list string :=
  [ "constructor"; "__defineGetter__"; "__defineSetter__"; "hasOwnProperty";
    "__lookupGetter__"; "__lookupSetter__"; "isPrototypeOf";
    "propertyIsEnumerable"; "toString"; "valueOf"; "__proto__";
    "toLocaleString" ].

(** [severityLevel[name]] for
    [const severityLevel = { CRITICAL: 0, HIGH: 1, MEDIUM: 2 }]: [None]
    when the look-up gives [undefined].  An inherited name gives a
    function or an object, which no number is below or equal to. *)
Definition severityLevel (name : string) : option Level :=
  if String.eqb name "CRITICAL" then Some (Num 0)
  else if String.eqb name "HIGH" then Some (Num 1)
  else if String.eqb name "MEDIUM" then Some (Num 2)
  else if includes inherited name then Some NotANumber
  else None.

Definition level (s : Severity) : Z :=
  match s with
  | CRITICAL => 0
  | HIGH => 1
  | MEDIUM => 2
  end.

(** [n <= l] *)
Definition at_most (n : Z) (l : Level) : bool :=
  match l with
  | Num z => (n <=? z)%Z
  | NotANumber => false
  end.

(** [severityLevel[value || name] ?? d]; the value is converted to a
    property key. *)
Definition threshold (value : option json) (name : string) (d : Z)
  : result Level :=
  rbind (to_string (or_json value (JStr name))) (fun key =>
    Ok (default (Num d) (severityLevel key))).

Definition getAction (findings : list Finding) (config : option Config)
  : result Action :=
  rbind (property config "blockOnSeverity" blockOnSeverity) (fun b =>
  rbind (threshold b "CRITICAL" 0) (fun blockLevel =>
    if existsb (fun f => at_most (level (f_severity f)) blockLevel) findings
    then Ok BLOCK
    else
      rbind (property config "warnOnSeverity" warnOnSeverity) (fun wn =>
      rbind (threshold wn "HIGH" 1) (fun warnLevel =>
        if existsb (fun f => at_most (level (f_severity f)) warnLevel) findings
        then Ok WARN
        else Ok PASS)))).

(** A value of the event, as far as the hook looks at it: a string, or
    a value of another kind, of which the hook only asks whether it is
    truthy and whether its [length] is above zero (as that of an array
    with elements is, and that of a number is not). *)
Inductive Value : Type :=
| Str (s : string)
| Other (truthy : bool) (long : bool).

Definition is_truthy (v : Value) : bool :=
  match v with
  | Str s => negb (String.eqb s "")
  | Other truthy _ => truthy
  end.

(** [v.length > 0] *)
Definition is_long (v : Value) : bool :=
  match v with
  | Str s => (0 <? strlen s)%nat
  | Other _ long => long
  end.

(** [x || d] *)
Definition or_value (x : option Value) (d : Value) : Value :=
  match x with
  | Some v => if is_truthy v then v else d
  | None => d
  end.

(** The event read from standard input, as [JSON.parse(data)] gives it
    and as far as the hook reads it; [None] for a property that is
    absent, as all are in a value that is not an object. *)
Record ToolInput : Type := mkToolInput {
  file_path : option Value;
  content : option Value;
  new_string : option Value
}.

Record HookInput : Type := mkHookInput {
  tool : option json;
  tool_input : option ToolInput   (* [None] also when it is falsy *)
}.

Record HookEvent : Type := mkEvent {
  data : string;               (* the text read from standard input *)
  parsed : result HookInput    (* JSON.parse(data); a text that does not
                                  parse throws, and so does the reading of
                                  [tool_input] in the value [null] *)
}.

(** [new RegExp(`(?:^|[/])${dir}[/]`, "i")] *)
Definition protected_re (dir : string) : regexp :=
  re_i (seqs [ Alt Bol (set [One "/"]); lit dir; set [One "/"] ]).

Definition isProtected (filePath : string) : bool :=
  let normalizedPath := replace_char bs "/" filePath in
  existsb (fun dir => test (protected_re dir) normalizedPath) PROTECTED_DIRS.

(** [path.resolve(filePath)]: a path that is not absolute is resolved
    from [process.cwd()], which can throw. *)
Definition resolve_cwd (env : Env) (filePath : string) : result string :=
  if startsWith filePath "/" then Ok (Path.resolve "/" filePath)
  else rbind (cwd env) (fun dir => Ok (Path.resolve dir filePath)).

Definition isSelfPath (env : Env) (filePath : string) : result bool :=
  rbind (resolve_cwd env filePath) (fun resolved =>
    let relativePath :=
      replace_char bs "/" (Path.relative (PLUGIN_DIR env) resolved) in
    Ok (includes SELF_PATHS relativePath)).

Definition show_nat (n : nat) : string :=
  DecimalString.NilEmpty.string_of_uint (Nat.to_uint n).

Definition with_severity (s : Severity) (l : list Finding) : list Finding :=
  List.filter (fun f => bool_decide (f_severity f = s)) l.

(** How control leaves a block of statements. *)
Inductive flow : Type :=
| Returned
| Exited (code : nat)
| Raised (msg : string).

Definition truthy (x : option string) : option string :=
  match x with
  | Some s => if String.eqb s "" then None else Some s
  | None => None
  end.

(** [input.tool_input || {}] *)
Definition toolInput_of (input : HookInput) : ToolInput :=
  default (mkToolInput None None None) (tool_input input).

(** [toolInput.file_path || ""] *)
Definition filePath_of (input : HookInput) : Value :=
  or_value (file_path (toolInput_of input)) (Str "").

(** The content to scan: [toolInput.content] of a Write, else
    [toolInput.new_string] of an Edit, else the empty string. *)
Definition contentToScan_of (input : HookInput) : Value :=
  match content (toolInput_of input) with
  | Some c =>
      if is_truthy c then c
      else or_value (new_string (toolInput_of input)) (Str "")
  | None => or_value (new_string (toolInput_of input)) (Str "")
  end.

Definition event_name (a : Action) : string :=
  match a with
  | BLOCK => "block"
  | _ => "scan"
  end.

Section Host.
Variable JSON_parse : string -> option (list jsval).
Variable JSON_stringify : list jsval -> string.
Variable CONFIG_PATH : string.

Definition block_report (criticals highs mediums : list Finding)
  : list string :=
  [ "";
    "[SECURITY GATE] BLOCKED - " +:+ show_nat (length criticals)
      +:+ " critical finding(s):";
    "" ]
  ++ flat_map (fun f =>
       [ "  " +:+ f_id f +:+ "  Line " +:+ show_nat (f_line f) +:+ ": "
           +:+ quote +:+ f_match f +:+ quote;
         "          " +:+ f_description f;
         "" ]) criticals
  ++ (if (0 <? length highs)%nat
      then ["  + " +:+ show_nat (length highs) +:+ " HIGH warning(s)"]
      else [])
  ++ (if (0 <? length mediums)%nat
      then ["  + " +:+ show_nat (length mediums) +:+ " MEDIUM info(s)"]
      else [])
  ++ [ "";
       "  To override: add the pattern ID(s) to allowedPatterns in";
       "  " +:+ CONFIG_PATH;
       "  Then retry the write.";
       "" ].

Definition warn_report (filePath : string) (highs : list Finding)
  : list string :=
  [ "";
    "[SECURITY GATE] WARNING - " +:+ show_nat (length highs)
      +:+ " finding(s) in " +:+ Path.basename filePath +:+ ":";
    "" ]
  ++ flat_map (fun f =>
       [ "  " +:+ f_id f +:+ "  Line " +:+ show_nat (f_line f) +:+ ": "
           +:+ f_description f;
         "          " +:+ quote +:+ f_match f +:+ quote ]) highs
  ++ [ "" ].

Definition info_report (filePath : string) (mediums : list Finding)
  : list string :=
  [ "";
    "[SECURITY GATE] INFO - " +:+ show_nat (length mediums)
      +:+ " note(s) in " +:+ Path.basename filePath +:+ ":" ]
  ++ map (fun f =>
       "  " +:+ f_id f +:+ "  Line " +:+ show_nat (f_line f) +:+ ": "
         +:+ f_description f) mediums
  ++ [ "" ].

(** [scanContent(content, contentType, config)] on a content of any
    kind: a value that is not a string has neither [match] nor [split],
    and the first call on it throws. *)
Definition scan_value (h : heap) (content : Value)
    (contentType : ContentType) (config : option Config)
  : result (list Finding) * heap :=
  match content with
  | Str text =>
      scanContent JSON_parse JSON_stringify h text contentType config
  | Other _ _ =>
      (Throw (if includes [agent; skill; command; rule] contentType
              then "content.match is not a function"
              else "content.split is not a function"), h)
  end.

(** The part of the [try] block that follows the scan. *)
Definition hook_report (env : Env) (w : World) (ev : HookEvent)
    (input : HookInput) (filePath : string) (contentType : ContentType)
    (config : option Config) (findings : list Finding) : World * flow :=
  match getAction findings config with
  | Throw msg => (w, Raised msg)
  | Ok action =>
      let w := writeAuditLog env w config (fun timestamp =>
                 mkAudit timestamp (event_name action) "PreToolUse"
                         (or_json (tool input) (JStr "unknown")) filePath
                         contentType findings action) in
      if (length findings =? 0)%nat
      then (console_log w (data ev), Returned)
      else
        let criticals := with_severity CRITICAL findings in
        let highs := with_severity HIGH findings in
        let mediums := with_severity MEDIUM findings in
        if (0 <? length criticals)%nat
        then (console_errors w (block_report criticals highs mediums),
              Exited 2)
        else
          let w := if (0 <? length highs)%nat
                   then console_errors w (warn_report filePath highs)
                   else w in
          let w := if (0 <? length mediums)%nat
                      && (length highs =? 0)%nat
                   then console_errors w (info_report filePath mediums)
                   else w in
          (console_log w (data ev), Returned)
  end.

(** The [try] block of the hook: the value of [contentToScan] when
    control leaves it, the world, and how control leaves it. *)
Definition hook_try (env : Env) (w : World) (ev : HookEvent)
  : Value * World * flow :=
  match parsed ev with
  | Throw msg => (Str "", w, Raised msg)
  | Ok input =>
      let contentToScan := contentToScan_of input in
      if negb (is_truthy contentToScan) || negb (is_truthy (filePath_of input))
      then (contentToScan, console_log w (data ev), Returned)
      else
        match filePath_of input with
        | Other _ _ =>
            (contentToScan, w, Raised "filePath.replace is not a function")
        | Str filePath =>
            if negb (isProtected filePath)
            then (contentToScan, console_log w (data ev), Returned)
            else
              match isSelfPath env filePath with
              | Throw msg => (contentToScan, w, Raised msg)
              | Ok true => (contentToScan, console_log w (data ev), Returned)
              | Ok false =>
                  let loaded := loadConfig env w in
                  let config := fst loaded in
                  let w := snd loaded in
                  let contentType := detectContentType filePath in
                  match scan_value (regexes w) contentToScan contentType
                          config with
                  | (Throw msg, h) =>
                      (contentToScan, set_regexes w h, Raised msg)
                  | (Ok findings, h) =>
                      let reported :=
                        hook_report env (set_regexes w h) ev input filePath
                          contentType config findings in
                      (contentToScan, fst reported, snd reported)
                  end
              end
        end
  end.

(** The handler of [stdin]'s [end] event: the world and the exit status
    of the process. *)
Definition runHookMode (env : Env) (w : World) (ev : HookEvent)
  : World * nat :=
  match hook_try env w ev with
  | (_, w, Returned) => (w, 0)
  | (_, w, Exited code) => (w, code)
  | (contentToScan, w, Raised msg) =>
      let w := console_error w ("[SECURITY GATE] Error during scan: " +:+ msg) in
      if is_truthy contentToScan && is_long contentToScan
      then (console_error w
              "[SECURITY GATE] BLOCKED: Scanner error on non-empty content. Review manually.",
            2)
      else (console_log w (data ev), 0)
  end.
End Host.

End Gate.
Export Gate.

(* ===================================================================== *)
(** ** The file system *)
(* ===================================================================== *)

Module Fs.

(** The files form a tree.  A file gives its text, or the error of reading
    it; a directory gives its entries, in the order in which
    [fs.readdirSync] lists them, or the error of listing it.  An entry
    comes with the node it names. *)
#[warnings="-register-all"]
Inductive node : Type :=
| File (content : result string)
| Dir (entries : result (list (string * node))).

Fixpoint child (name : string) (entries : list (string * node))
  : option node :=
  match entries with
  | [] => None
  | (n, c) :: rest => if String.eqb n name then Some c else child name rest
  end.

(** The node at the end of a chain of names. *)
Fixpoint find (segs : list string) (n : node) : option node :=
  match segs with
  | [] => Some n
  | s :: rest =>
      match n with
      | Dir (Ok entries) =>
          match child s entries with
          | Some c => find rest c
          | None => None
          end
      | Dir (Throw _) | File _ => None
      end
  end.

(** The node at an absolute path; [root] is the directory [/]. *)
Definition at_path (root : node) (p : string) : option node :=
  find (Path.normalize_segments [] (Path.segments p)) root.

(** [fs.existsSync(p)] *)
Definition existsSync (root : node) (p : string) : bool :=
  match at_path root p with
  | Some _ => true
  | None => false
  end.

(** [fs.readFileSync(p, "utf8")] *)
Definition readFileSync (root : node) (p : string) : result string :=
  match at_path root p with
  | Some (File content) => content
  | Some (Dir _) => Throw "EISDIR: illegal operation on a directory, read"
  | None =>
      Throw ("ENOENT: no such file or directory, open '" +:+ p +:+ "'")
  end.

End Fs.

(* ===================================================================== *)
(** ** Gate controller: the command-line modes *)
(* ===================================================================== *)

Module Cli.

(** [{ ...finding, file }] *)
Record FileFinding : Type := mkFileFinding {
  ff_finding : Finding;
  ff_file : string
}.

(** The lines that the command-line modes append to the audit log. *)
Inductive LogEntry : Type :=
| FullScan (timestamp event trigger : string) (totalFiles totalFindings : nat)
           (findings : list FileFinding)
| CheckPath (timestamp event trigger targetFile : string)
            (contentType : ContentType) (findings : list Finding)
            (action : Action).

(** What a run leaves behind: the console and the regular expressions'
    state, the lines appended to the audit log with the file they went
    to, and the exit status. *)
Record Outcome : Type := mkOutcome {
  o_world : World;
  o_log : list (string * LogEntry);
  o_exit : nat
}.

Definition console_logs (w : World) (lines : list string) : World :=
  fold_left console_log lines w.

Definition severity_name (s : Severity) : string :=
  match s with
  | CRITICAL => "CRITICAL"
  | HIGH => "HIGH"
  | MEDIUM => "MEDIUM"
  end.

(** [writeAuditLog(config, entry)] on the entries of these modes *)
Definition writeAuditLog (env : Env) (w : World) (config : option Config)
    (entry : string -> LogEntry) : World * list (string * LogEntry) :=
  match rbind (property config "auditLogPath" id)
              (auditLogDestination env) with
  | Throw msg =>
      (console_error w ("[SECURITY GATE] Audit log write failed: " +:+ msg), [])
  | Ok logPath =>
      match append_error env logPath with
      | Some msg =>
          (console_error w ("[SECURITY GATE] Audit log write failed: " +:+ msg),
           [])
      | None => (w, [(logPath, entry (now env))])
      end
  end.

(** Directories that [walkDir] does not enter. *)
Definition skipped (name : string) : bool :=
  String.eqb name "node_modules" || String.eqb name ".git".

(** [walkDir(dir)], with [n] the node at [dir]: the files found, and the
    lines written to standard error.  The recursive call on [fullPath]
    reads the node that the entry names. *)
Fixpoint walk (dir : string) (n : Fs.node) {struct n}
  : list string * list string :=
  match n with
  | Fs.Dir (Ok entries) =>
      (fix each (entries : list (string * Fs.node))
         : list string * list string :=
         match entries with
         | [] => ([], [])
         | (name, c) :: rest =>
             let fullPath := Path.join dir name in
             let found :=
               match c with
               | Fs.Dir _ =>
                   if skipped name then ([], []) else walk fullPath c
               | Fs.File _ => ([fullPath], [])
               end in
             let others := each rest in
             (fst found ++ fst others, snd found ++ snd others)
         end) entries
  | Fs.Dir (Throw msg) =>
      ([], ["[SCAN] Cannot read directory " +:+ dir +:+ ": " +:+ msg])
  | Fs.File _ =>
      ([], ["[SCAN] Cannot read directory " +:+ dir
            +:+ ": ENOTDIR: not a directory, scandir '" +:+ dir +:+ "'"])
  end.

Definition walkDir (root : Fs.node) (dir : string)
  : list string * list string :=
  match Fs.at_path root dir with
  | Some n => walk dir n
  | None =>
      ([], ["[SCAN] Cannot read directory " +:+ dir
            +:+ ": ENOENT: no such file or directory, scandir '"
            +:+ dir +:+ "'"])
  end.

(** [/\.(md|js|json)$/] *)
Definition scanned_ext_re : regexp :=
  re_ (seqs [ Chr "."; Group 1 (alts [lit "md"; lit "js"; lit "json"]); Eol ]).

(** [path.relative(PLUGIN_DIR, filePath).replace(/\\/g, "/")] *)
Definition relPath_of (env : Env) (filePath : string) : string :=
  replace_char bs "/" (Path.relative (PLUGIN_DIR env) filePath).

(** [totalFiles] and [allFindings] *)
Record Tally : Type := mkTally {
  totalFiles : nat;
  allFindings : list FileFinding
}.

Section Host.
Variable JSON_parse : string -> option (list jsval).
Variable JSON_stringify : list jsval -> string.

(** The body of the loop over the files of one directory. *)
Definition scan_file (env : Env) (root : Fs.node) (config : option Config)
    (st : World * Tally) (filePath : string) : World * Tally :=
  let w := fst st in
  let t := snd st in
  if negb (test scanned_ext_re filePath) then st
  else
    let relPath := relPath_of env filePath in
    if includes SELF_PATHS relPath then st
    else
      let t := mkTally (S (totalFiles t)) (allFindings t) in
      match Fs.readFileSync root filePath with
      | Throw msg =>
          (console_error w
             ("[SCAN] Error reading " +:+ filePath +:+ ": " +:+ msg), t)
      | Ok content =>
          let contentType := detectContentType filePath in
          if bool_decide (contentType = unknown) then (w, t)
          else
            match scanContent JSON_parse JSON_stringify (regexes w)
                    content contentType config with
            | (Throw msg, h) =>
                (console_error (set_regexes w h)
                   ("[SCAN] Error reading " +:+ filePath +:+ ": " +:+ msg), t)
            | (Ok findings, h) =>
                (set_regexes w h,
                 mkTally (totalFiles t)
                   (allFindings t
                    ++ map (fun f => mkFileFinding f (relPath_of env filePath))
                           findings))
            end
      end.

(** The body of the loop over the directories to scan. *)
Definition scan_dir (env : Env) (root : Fs.node) (config : option Config)
    (st : World * Tally) (dir : string) : World * Tally :=
  if negb (Fs.existsSync root dir) then st
  else
    let walked := walkDir root dir in
    fold_left (scan_file env root config) (fst walked)
              (console_errors (fst st) (snd walked), snd st).

(** The directories that [runScanMode] walks, when the root is accepted. *)
Definition dirsToScan (env : Env) (targetDir : option string) : list string :=
  match truthy targetDir with
  | Some d => [Path.resolve (PLUGIN_DIR env) d]
  | None => map (fun d => Path.join (PLUGIN_DIR env) d) PROTECTED_DIRS
  end.

Definition scanRoot_of (env : Env) (targetDir : option string) : string :=
  match truthy targetDir with
  | Some d => Path.resolve (PLUGIN_DIR env) d
  | None => PLUGIN_DIR env
  end.

Definition ff_severity (f : FileFinding) : Severity :=
  f_severity (ff_finding f).

Definition of_severity (s : Severity) (l : list FileFinding)
  : list FileFinding :=
  List.filter (fun f => bool_decide (ff_severity f = s)) l.

Definition located (f : FileFinding) : string :=
  "  [" +:+ f_id (ff_finding f) +:+ "] " +:+ ff_file f +:+ ":"
  +:+ show_nat (f_line (ff_finding f)).

Definition scan_report (totalFiles : nat) (allFindings : list FileFinding)
  : list string :=
  let criticals := of_severity CRITICAL allFindings in
  let highs := of_severity HIGH allFindings in
  let mediums := of_severity MEDIUM allFindings in
  [ "";
    "SECURITY SCAN REPORT";
    "====================";
    "Scanned: " +:+ show_nat totalFiles +:+ " files";
    "CRITICAL: " +:+ show_nat (length criticals)
      +:+ " | HIGH: " +:+ show_nat (length highs)
      +:+ " | MEDIUM: " +:+ show_nat (length mediums);
    "" ]
  ++ (if (0 <? length criticals)%nat
      then ["--- CRITICAL ---"]
           ++ flat_map (fun f =>
                [ located f;
                  "    " +:+ f_description (ff_finding f);
                  "    Match: " +:+ quote +:+ f_match (ff_finding f) +:+ quote ])
                criticals
           ++ [""]
      else [])
  ++ (if (0 <? length highs)%nat
      then ["--- HIGH ---"]
           ++ flat_map (fun f =>
                [ located f;
                  "    " +:+ f_description (ff_finding f);
                  "    Match: " +:+ quote +:+ f_match (ff_finding f) +:+ quote ])
                highs
           ++ [""]
      else [])
  ++ (if (0 <? length mediums)%nat
      then ["--- MEDIUM ---"]
           ++ flat_map (fun f =>
                [ located f; "    " +:+ f_description (ff_finding f) ])
                mediums
           ++ [""]
      else [])
  ++ [ if (length allFindings =? 0)%nat
       then "Status: CLEAN - No issues found"
       else if (0 <? length criticals)%nat
       then "Status: CRITICAL ISSUES FOUND - Immediate action required"
       else if (0 <? length highs)%nat
       then "Status: REVIEW REQUIRED - High-severity findings present"
       else "Status: ACCEPTABLE - Only informational findings";
       "" ].

(** [runScanMode(targetDir)] *)
Definition runScanMode (env : Env) (root : Fs.node) (w : World)
    (targetDir : option string) : Outcome :=
  let loaded := loadConfig env w in
  let config := fst loaded in
  let w := snd loaded in
  if negb (startsWith (scanRoot_of env targetDir) (PLUGIN_DIR env))
  then
    mkOutcome
      (console_error w
         "[SECURITY GATE] Error: Scan directory must be within the plugin directory.")
      [] 1
  else
    let scanned :=
      fold_left (scan_dir env root config) (dirsToScan env targetDir)
                (w, mkTally 0 []) in
    let t := snd scanned in
    let logged :=
      writeAuditLog env (fst scanned) config (fun timestamp =>
        FullScan timestamp "full-scan" "manual" (totalFiles t)
                 (length (allFindings t)) (allFindings t)) in
    mkOutcome
      (console_logs (fst logged) (scan_report (totalFiles t) (allFindings t)))
      (snd logged)
      (if (0 <? length (of_severity CRITICAL (allFindings t)))%nat
       then 1 else 0).

Definition alert_report (resolved : string) (criticals : list Finding)
  : list string :=
  [ "";
    "[SECURITY GATE] POST-SCAN ALERT - " +:+ show_nat (length criticals)
      +:+ " CRITICAL finding(s) in " +:+ Path.basename resolved +:+ ":";
    "" ]
  ++ flat_map (fun f =>
       [ "  " +:+ f_id f +:+ "  Line " +:+ show_nat (f_line f) +:+ ": "
           +:+ quote +:+ f_match f +:+ quote;
         "          " +:+ f_description f ]) criticals
  ++ [ "";
       "  RECOMMENDED: Delete this file or review it manually.";
       "" ].

(** The part of the [try] block of [runCheckPathMode] that follows the
    scan: the world, and the lines appended to the audit log. *)
Definition check_report (env : Env) (w : World) (resolved : string)
    (contentType : ContentType) (config : option Config)
    (findings : list Finding) : World * list (string * LogEntry) :=
  match getAction findings config with
  | Throw msg =>
      (console_error w ("[SECURITY GATE] Check failed: " +:+ msg), [])
  | Ok action =>
      let logged :=
        writeAuditLog env w config (fun timestamp =>
          CheckPath timestamp "check-path" "PostToolUse-Bash" resolved
                    contentType findings action) in
      let w := fst logged in
      let criticals := with_severity CRITICAL findings in
      (if (length findings =? 0)%nat
       then console_log w ("[SECURITY GATE] "
                           +:+ Path.basename resolved +:+ ": CLEAN")
       else if (0 <? length criticals)%nat
       then console_errors w (alert_report resolved criticals)
       else console_errors w
              (map (fun f =>
                 "  [" +:+ severity_name (f_severity f) +:+ "] "
                 +:+ f_id f +:+ ": " +:+ f_description f) findings),
       snd logged)
  end.

(** [runCheckPathMode(filePath)]; the path is resolved outside the
    [try] block, and an error of [process.cwd()] ends the process with
    the status 1 of an error that nothing catches. *)
Definition runCheckPathMode (env : Env) (root : Fs.node) (w : World)
    (filePath : string) : Outcome :=
  let loaded := loadConfig env w in
  let config := fst loaded in
  let w := snd loaded in
  match resolve_cwd env filePath with
  | Throw msg => mkOutcome (console_errors w (uncaught env msg)) [] 1
  | Ok resolved =>
      if negb (Fs.existsSync root resolved)
      then
        mkOutcome
          (console_error w ("[SECURITY GATE] File not found: " +:+ resolved))
          [] 0
      else
        match Fs.readFileSync root resolved with
        | Throw msg =>
            mkOutcome
              (console_error w ("[SECURITY GATE] Check failed: " +:+ msg)) [] 0
        | Ok content =>
            let contentType := detectContentType resolved in
            if bool_decide (contentType = unknown)
            then
              mkOutcome
                (console_log w "File type not recognized, skipping scan.")
                [] 0
            else
              match scanContent JSON_parse JSON_stringify (regexes w)
                      content contentType config with
              | (Throw msg, h) =>
                  mkOutcome
                    (console_error (set_regexes w h)
                       ("[SECURITY GATE] Check failed: " +:+ msg)) [] 0
              | (Ok findings, h) =>
                  let reported :=
                    check_report env (set_regexes w h) resolved contentType
                      config findings in
                  mkOutcome (fst reported) (snd reported) 0
              end
        end
  end.
End Host.

End Cli.

(* ===================================================================== *)
(** ** Package manager detection ([scripts/lib/package-manager.js]) *)
(* ===================================================================== *)

Module PackageManager.

Record LockFile : Type := mkLockFile {
  lock_file : string;
  lock_name : string
}.

(** Order matters: the first match wins. *)
Definition LOCK_FILES : list LockFile :=
  [ mkLockFile "pnpm-lock.yaml" "pnpm";
    mkLockFile "yarn.lock" "yarn";
    mkLockFile "bun.lockb" "bun";
    mkLockFile "package-lock.json" "npm" ].

Record Detected : Type := mkDetected {
  pm_name : string;
  pm_source : string
}.

(** The [for] loop over the lock files; [existsSync] gives what
    [fs.existsSync] returns, or the error it throws. *)
Fixpoint first_lock (existsSync : string -> result bool) (cwd : string)
    (entries : list LockFile) : option Detected :=
  match entries with
  | [] => None
  | entry :: rest =>
      match existsSync (Path.join cwd (lock_file entry)) with
      | Ok true => Some (mkDetected (lock_name entry) "lockfile")
      | Ok false | Throw _ => first_lock existsSync cwd rest
      end
  end.

(** [getPackageManager()]: the value returned and the lines written to
    standard error; [cwd] is what [process.cwd()] gives. *)
Definition getPackageManager (cwd : result string)
    (existsSync : string -> result bool) : Detected * list string :=
  match cwd with
  | Throw msg =>
      (mkDetected "npm" "fallback",
       ["[package-manager] Detection error: " +:+ msg])
  | Ok dir =>
      (default (mkDetected "npm" "fallback")
               (first_lock existsSync dir LOCK_FILES), [])
  end.

Definition getSelectionPrompt : string :=
  "[SessionStart] Run /setup-pm to set your preferred package manager".

End PackageManager.

(* ===================================================================== *)
(** ** A host for the worked examples *)
(* ===================================================================== *)

(** The theorems below hold for every [JSON.parse] and [JSON.stringify].
    The worked examples run on this host, which reads and prints the flat
    lists of plain string literals found in [tools:] lines and takes any
    other text as one that [JSON.parse] refuses. *)
Module SampleHost.

Definition json_ws (c : ascii) : bool :=
  let n := code c in
  (n =? 32)%nat || (n =? 9)%nat || (n =? 10)%nat || (n =? 13)%nat.

Fixpoint skip_ws (l : list ascii) : list ascii :=
  match l with
  | c :: r => if json_ws c then skip_ws r else l
  | [] => []
  end.

(** The characters of a string literal up to its closing quote. *)
Fixpoint read_string (l acc : list ascii) : option (string * list ascii) :=
  match l with
  | [] => None
  | c :: r =>
      if Ascii.eqb c dq then Some (str (rev acc), r)
      else if Ascii.eqb c bs || (code c <? 32)%nat then None
      else read_string r (c :: acc)
  end.

Fixpoint parse_items (fuel : nat) (l : list ascii) (acc : list jsval)
  : option (list jsval) :=
  match fuel with
  | O => None
  | S fuel' =>
      match skip_ws l with
      | c :: r =>
          if Ascii.eqb c dq then
            match read_string r [] with
            | Some (s, rest) =>
                match skip_ws rest with
                | d :: r2 =>
                    if Ascii.eqb d "," then parse_items fuel' r2 (acc ++ [JString s])
                    else if Ascii.eqb d "]" then
                      match skip_ws r2 with
                      | [] => Some (acc ++ [JString s])
                      | _ :: _ => None
                      end
                    else None
                | [] => None
                end
            | None => None
            end
          else None
      | [] => None
      end
  end.

Definition JSON_parse (text : string) : option (list jsval) :=
  match skip_ws (chars text) with
  | c :: r =>
      if Ascii.eqb c "[" then
        match skip_ws r with
        | d :: r2 =>
            if Ascii.eqb d "]" then
              match skip_ws r2 with [] => Some [] | _ :: _ => None end
            else parse_items (length r) r []
        | [] => None
        end
      else None
  | [] => None
  end.

Definition show_jsval (v : jsval) : string :=
  match v with
  | JString s => quote +:+ s +:+ quote
  | JOther text => text
  end.

Definition JSON_stringify (l : list jsval) : string :=
  "[" +:+ join "," (map show_jsval l) +:+ "]".

End SampleHost.

(* ===================================================================== *)
(** ** Worked inputs *)
(* ===================================================================== *)

Module Samples.

(** [const apiKey = "sk-proj-AbCdEfGh12345678"] *)
Definition secret_line : string :=
  "const apiKey = " +:+ quote +:+ "sk-proj-AbCdEfGh12345678" +:+ quote.

Definition secret_finding : Finding :=
  mkFinding CRITICAL "CRIT-001" "Hardcoded secret or API key in content" 1
    ("apiKey = " +:+ quote +:+ "sk-proj-AbCdEfGh12345678" +:+ quote).

(** The secret, and a forced push on the next line. *)
Definition secret_and_force : string :=
  secret_line +:+ nl +:+ "git push --force".

Definition force_finding (line : nat) : Finding :=
  mkFinding HIGH "HIGH-003"
    "Suggesting --no-verify, --force, or --skip-hooks flags" line "--force".

(** The secret under a line that marks it as a bad example. *)
Definition documented_secret : string := "// WRONG" +:+ nl +:+ secret_line.

(** An agent definition whose [name:] is an empty list. *)
Definition agent_with_list_name : string :=
  "---" +:+ nl +:+ "name:" +:+ nl +:+ "---" +:+ nl +:+ "body".

Definition no_config : Config := mkConfig None None None None None.

Definition exempting (ids : list string) : Config :=
  mkConfig None None None None (Some (JArr (map JStr ids))).

(** Block on HIGH, warn on MEDIUM. *)
Definition strict_config : Config :=
  mkConfig (Some (JStr "HIGH")) (Some (JStr "MEDIUM")) None None None.

(** A log path that leaves the plugin directory for a sibling whose name
    starts with the same characters. *)
Definition escaping_config : Config :=
  mkConfig None None (Some (JStr "../ewave-evil/audit.jsonl")) None None.

(** The plugin in [/opt/ewave], run from there, with the configuration
    file holding [file]. *)
Definition env_of (file : ConfigFile) : Env :=
  mkEnv "/opt/ewave" (Ok "/opt/ewave") file "2026-01-01T00:00:00.000Z"
        (fun _ => None)
        (fun _ => "The " +:+ quote +:+ "paths[1]" +:+ quote
                  +:+ " argument must be of type string.")
        (fun msg => ["Uncaught " +:+ msg]).

Definition env_with (c : Config) : Env := env_of (Loaded (Some c)).

(** The configuration file holds [null]. *)
Definition env_null : Env := env_of (Loaded None).

Definition fresh : World := mkWorld [] [] ∅ ∅.

Definition write_event (path text : string) : HookEvent :=
  mkEvent "{...}"
    (Ok (mkHookInput (Some (JStr "Write"))
           (Some (mkToolInput (Some (Str path)) (Some (Str text)) None)))).

(** A Write whose [content] is the number 123: truthy, and without a
    [length]. *)
Definition number_event (path : string) : HookEvent :=
  mkEvent "{...}"
    (Ok (mkHookInput (Some (JStr "Write"))
           (Some (mkToolInput (Some (Str path)) (Some (Other true false))
                    None)))).

Definition CONFIG_PATH : string :=
  "/opt/ewave/scripts/config/security-gate-config.json".

(** A plugin installed in [/opt/ewave]. *)
Definition plugin_tree : Fs.node :=
  Fs.Dir (Ok [("opt", Fs.Dir (Ok [("ewave", Fs.Dir (Ok
    [ ("agents", Fs.Dir (Ok
        [ ("x.md", Fs.File (Ok secret_line));
          ("broken.md",
           Fs.File (Ok (agent_with_list_name +:+ nl +:+ secret_line)));
          ("NOTES.MD", Fs.File (Ok secret_line));
          ("locked.md", Fs.File (Throw "EACCES: permission denied"));
          ("node_modules", Fs.Dir (Ok
             [("dep.md", Fs.File (Ok secret_line))])) ]));
      ("rules", Fs.Dir (Throw "EACCES: permission denied"));
      ("scripts", Fs.Dir (Ok
        [("hooks", Fs.Dir (Ok
           [ ("security-gate.js", Fs.File (Ok secret_line));
             ("notify.js", Fs.File (Ok "git push --force")) ]))]));
      ("README.md", Fs.File (Ok secret_line)) ]))]))]).

(** The hook and the scanner on the sample host, from a fresh world. *)
Abbreviation run env ev :=
  (runHookMode SampleHost.JSON_parse SampleHost.JSON_stringify CONFIG_PATH
               env fresh ev).

Abbreviation scan text t c :=
  (fst (scanContent SampleHost.JSON_parse SampleHost.JSON_stringify ∅ text t c)).

(** The command-line modes on the sample host and the sample plugin. *)
Abbreviation scan_mode target :=
  (Cli.runScanMode SampleHost.JSON_parse SampleHost.JSON_stringify
     (env_with no_config) plugin_tree fresh target).

Abbreviation check_path path :=
  (Cli.runCheckPathMode SampleHost.JSON_parse SampleHost.JSON_stringify
     (env_with no_config) plugin_tree fresh path).

End Samples.

(* ===================================================================== *)
(** ** Stated properties, as predicates *)
(* ===================================================================== *)

Module Spec.

(** Every CRITICAL finding precedes every HIGH one, and every HIGH one
    precedes every MEDIUM one. *)
Definition severity_sorted (fs : list Finding) : Prop :=
  forall (i j : nat) (a b : Finding),
    fs !! i = Some a -> fs !! j = Some b ->
    (level (f_severity a) < level (f_severity b))%Z -> i < j.

(** A line that holds a bad-example marker word. *)
Definition contains_marker (line : string) : bool :=
  test Rules.badExample line.

(** [p] is [root] or lies below it. *)
Definition inside (root p : string) : bool :=
  String.eqb p root || startsWith p (root +:+ "/").

(** The rank by which the comparison of [scanContent] orders. *)
Definition effective_rank (s : Severity) : Z := or_num (order s) 3.

Definition slash : ascii := "/"%char.

(** Empty, or ending with the separator. *)
Definition after_sep (sep : ascii) (pre : list ascii) : Prop :=
  pre = [] \/ exists pre', pre = pre' ++ [sep].

(** The start of the subject, or the place after a slash. *)
Definition boundary (pre : list ascii) : Prop := after_sep slash pre.

(** The segments of the normalized path, split at [/]. *)
Definition path_segments (filePath : string) : list string :=
  split "/" (normalize filePath).

(** The segments of the path with its backslashes read as slashes and
    its letters A to Z lower-cased, split at [/]. *)
Definition folded_segments (filePath : string) : list string :=
  split "/" (ascii_fold (replace_char bs "/" filePath)).

(** A name that ends with [ext]; [ext] comes with its dot. *)
Definition has_ext (ext file : string) : Prop :=
  exists stem, file = stem +:+ ext.

(** A file name [stem.ext] with a stem that is not empty. *)
Definition named_file (ext file : string) : Prop :=
  exists stem, stem <> "" /\ file = stem +:+ ext.

(** The rule's regular expression, if it has one, lacks the [g] flag. *)
Definition stateless (p : Pattern) : Prop :=
  match p_regex p with
  | Some re => re_global re = false
  | None => True
  end.

(** The event is one that the hook scans: it parses to [input], names a
    file under a protected directory that is not one of the scanner's own
    files, and carries content. *)
Definition reaches_scan (env : Env) (ev : HookEvent) (input : HookInput)
    (filePath : string) : Prop :=
  parsed ev = Ok input
  /\ is_truthy (contentToScan_of input) = true
  /\ filePath_of input = Str filePath
  /\ isProtected filePath = true
  /\ isSelfPath env filePath = Ok false.

(** All the code units below 256. *)
Definition all_chars : list ascii := map ascii_of_nat (seq 0 256).

(** The patterns on which the [i] flag amounts to lower-casing the
    letters A to Z of the subject: every character and class of the
    pattern accepts a character under the flag exactly when it accepts,
    without the flag, the character that [ascii_lower] gives. *)
Fixpoint folds (r : regex) : bool :=
  match r with
  | Eps | Bol | Eol => true
  | Chr a =>
      forallb (fun x => Bool.eqb (chr_ok true a x)
                                 (chr_ok false a (ascii_lower x))) all_chars
  | CSet neg items =>
      forallb (fun x => Bool.eqb (set_ok true neg items x)
                                 (set_ok false neg items (ascii_lower x)))
              all_chars
  | Seq r1 r2 | Alt r1 r2 => folds r1 && folds r2
  | Star _ r1 | Group _ r1 | NegLook r1 => folds r1
  | Dot | WordB => false
  end.

(** Some finding is CRITICAL. *)
Definition has_critical (findings : list Finding) : bool :=
  existsb (fun f => bool_decide (f_severity f = CRITICAL)) findings.

(** The audit entries held by the file at [path]. *)
Definition log_at (w : World) (path : string) : list AuditEntry :=
  default [] (files w !! path).


(** The values that have an [includes] and that a spread iterates:
    arrays and strings. *)
Definition listlike (v : json) : bool :=
  match v with
  | JArr _ | JStr _ => true
  | JNull | JBool _ | JNum _ | JObj _ => false
  end.

(** Line [i] (counted from 0) is the first of [lines] on which [re]
    matches. *)
Definition first_matching (re : regexp) (lines : list string) (i : nat)
  : Prop :=
  (exists line, lines !! i = Some line /\ test re line = true)
  /\ forall j l, j < i -> lines !! j = Some l -> test re l = false.

(** The chains of names that lead from a directory to a file below it
    without entering a directory that [walkDir] skips. *)
Inductive listed : Fs.node -> list string -> Prop :=
| listed_file (entries : list (string * Fs.node)) (name : string)
    (content : result string) :
    In (name, Fs.File content) entries ->
    listed (Fs.Dir (Ok entries)) [name]
| listed_below (entries : list (string * Fs.node)) (name : string)
    (sub : result (list (string * Fs.node))) (names : list string) :
    In (name, Fs.Dir sub) entries ->
    Cli.skipped name = false ->
    listed (Fs.Dir sub) names ->
    listed (Fs.Dir (Ok entries)) (name :: names).

(** The path of the file reached from [dir] by a chain of names. *)
Definition joined (dir : string) (names : list string) : string :=
  fold_left Path.join names dir.

(** A file that scan mode takes up: its name ends in [.md], [.js] or
    [.json], and it is not one of the scanner's own files. *)
Definition taken_up (env : Env) (filePath : string) : bool :=
  test Cli.scanned_ext_re filePath
  && negb (includes SELF_PATHS (Cli.relPath_of env filePath)).

(** The findings of one file, scanned on its own. *)
Definition found_in JP JS (env : Env) (root : Fs.node)
    (config : option Config) (filePath : string) : list Cli.FileFinding :=
  if taken_up env filePath
  then
    match Fs.readFileSync root filePath with
    | Ok content =>
        match fst (scanContent JP JS ∅ content (detectContentType filePath)
                     config) with
        | Ok findings =>
            map (fun f => Cli.mkFileFinding f (Cli.relPath_of env filePath))
                findings
        | Throw _ => []
        end
    | Throw _ => []
    end
  else [].

(** The files that the walk of the directories lists, in its order; a
    directory that does not exist has none. *)
Definition files_below (root : Fs.node) (dirs : list string) : list string :=
  flat_map (fun dir => if Fs.existsSync root dir
                       then fst (Cli.walkDir root dir) else []) dirs.

(** Some finding is CRITICAL. *)
Definition any_critical (findings : list Cli.FileFinding) : bool :=
  existsb (fun f => bool_decide (Cli.ff_severity f = CRITICAL)) findings.

End Spec.
Export Spec.

(* ===================================================================== *)
(** * Properties *)
(* ===================================================================== *)

(** ** The sort *)

Section Sort.
Context {A : Type} (cmp : A -> A -> Z).

Lemma insert_sorted_perm (x : A) (l : list A) :
  Permutation (insert_sorted cmp x l) (x :: l).
Proof.
  induction l as [|y r IH]; simpl; [reflexivity|].
  destruct (cmp x y <=? 0)%Z; [reflexivity|].
  rewrite IH. apply perm_swap.
Qed.

Lemma sort_perm (l : list A) : Permutation (sort cmp l) l.
Proof.
  induction l as [|x r IH]; simpl; [reflexivity|].
  rewrite insert_sorted_perm. now rewrite IH.
Qed.

Lemma sort_In (l : list A) (x : A) : In x (sort cmp l) <-> In x l.
Proof.
  split; apply Permutation_in; [|symmetry]; apply sort_perm.
Qed.

Lemma sort_length (l : list A) : length (sort cmp l) = length l.
Proof. apply Permutation_length, sort_perm. Qed.
End Sort.

(** The sort orders by the rank the comparison really uses. *)
Lemma effective_rank_values :
  effective_rank HIGH = 1%Z /\ effective_rank MEDIUM = 2%Z
  /\ effective_rank CRITICAL = 3%Z.
Proof. repeat split. Qed.

Lemma insert_sorted_rank (x : Finding) (l : list Finding) :
  Sorted (fun a b => (effective_rank (f_severity a)
                      <= effective_rank (f_severity b))%Z) l ->
  Sorted (fun a b => (effective_rank (f_severity a)
                      <= effective_rank (f_severity b))%Z)
         (insert_sorted compareFindings x l).
Proof.
  induction l as [|y r IH]; intros Hs; simpl.
  - repeat constructor.
  - unfold compareFindings at 1. fold (effective_rank (f_severity x)).
    fold (effective_rank (f_severity y)).
    destruct (Z.leb_spec (effective_rank (f_severity x)
                          - effective_rank (f_severity y)) 0).
    + constructor; [assumption|]. constructor. lia.
    + inversion Hs as [|? ? Hr Hhd]; subst.
      constructor; [now apply IH|].
      destruct r as [|z r']; simpl.
      * constructor. lia.
      * unfold compareFindings at 1.
        fold (effective_rank (f_severity x)).
        fold (effective_rank (f_severity z)).
        destruct (Z.leb_spec (effective_rank (f_severity x)
                              - effective_rank (f_severity z)) 0).
        -- constructor. lia.
        -- inversion Hhd; subst. now constructor.
Qed.

Lemma sort_rank (l : list Finding) :
  Sorted (fun a b => (effective_rank (f_severity a)
                      <= effective_rank (f_severity b))%Z)
         (sort compareFindings l).
Proof.
  induction l as [|x r IH]; simpl; [constructor|].
  now apply insert_sorted_rank.
Qed.

(** ** Where findings come from *)

Section Origin.
Variables (content : string) (lines : list string)
          (fm : option frontmatter) (config : option Config)
          (contentType : ContentType) (allowed : json).

Lemma scan_lines_some (h h' : heap) (p : Pattern) (re : regexp)
    (ls : list string) (i : nat) (f : Finding) :
  scan_lines h p re ls i = (Some f, h') ->
  f_id f = p_id p /\ f_severity f = p_severity p.
Proof.
  revert h i. induction ls as [|l rest IH]; intros h i; simpl; [discriminate|].
  destruct (match_rule h (p_id p) re l) as [[m|] h1].
  - intros [= <- <-]. now split.
  - apply IH.
Qed.

Lemma apply_pattern_some (h h' : heap) (p : Pattern) (f : Finding) :
  apply_pattern h p content lines fm config = (Ok (Some f), h') ->
  f_id f = p_id p /\ f_severity f = p_severity p.
Proof.
  unfold apply_pattern.
  destruct (p_check p) as [check|].
  - destruct (check content fm config) as [[hit|]|]; simpl;
      intros [= <- <-] || discriminate. now split.
  - destruct (p_regex p) as [re|]; [|discriminate].
    destruct (p_multiline p).
    + destruct (match_rule h (p_id p) re content) as [[m|] h1];
        intros [= <- <-] || discriminate. now split.
    + destruct (scan_lines h p re lines 0) as [[g|] h1] eqn:E;
        intros [= <- <-] || discriminate.
      eapply scan_lines_some; eassumption.
Qed.

(** A finding returned by the loop was there before, or was pushed by a
    rule that applies to the content type and is not exempted. *)
Lemma scan_patterns_origin (ps : list Pattern) :
  forall (h h' : heap) (acc fs : list Finding),
    scan_patterns h ps content lines fm config contentType allowed acc
      = (Ok fs, h') ->
    forall f, In f fs ->
      In f acc \/
      exists p h0 h1,
        In p ps /\ includes (p_contentTypes p) contentType = true
        /\ includes_id allowed (p_id p) = Ok false
        /\ apply_pattern h0 p content lines fm config = (Ok (Some f), h1).
Proof.
  induction ps as [|p rest IH]; intros h h' acc fs; simpl.
  - intros [= <- <-] f Hf. now left.
  - destruct (includes (p_contentTypes p) contentType) eqn:Et; simpl.
    2:{ intros H f Hf. destruct (IH _ _ _ _ H f Hf) as [|(q & h0 & h1 & Hq & R)];
          [now left|]. right. exists q, h0, h1. split; [now right|exact R]. }
    destruct (includes_id allowed (p_id p)) as [[|]|e0] eqn:Ea; [| |discriminate].
    { intros H f Hf. destruct (IH _ _ _ _ H f Hf) as [|(q & h0 & h1 & Hq & R)];
        [now left|]. right. exists q, h0, h1. split; [now right|exact R]. }
    destruct (apply_pattern h p content lines fm config) as [[[g|]|e] h1] eqn:Ep.
    + intros H f Hf.
      destruct (IH _ _ _ _ H f Hf) as [Hin|(q & h0 & h2 & Hq & R)].
      * apply in_app_or in Hin. destruct Hin as [Hin|[<-|[]]]; [now left|].
        right. exists p, h, h1. repeat split; auto.
      * right. exists q, h0, h2. split; [now right|exact R].
    + intros H f Hf.
      destruct (IH _ _ _ _ H f Hf) as [|(q & h0 & h2 & Hq & R)]; [now left|].
      right. exists q, h0, h2. split; [now right|exact R].
    + discriminate.
Qed.
End Origin.

Lemma scanContent_eq JP JS (h : heap) (content : string)
    (contentType : ContentType) (config : option Config) :
  scanContent JP JS h content contentType config
  = scan_with JP (PATTERNS JS) (exemptions config) h content contentType config.
Proof. reflexivity. Qed.

(** A finding of a scan comes from a rule of the table that applies to the
    content type and is not exempted. *)
Lemma scan_with_origin JP (ps : list Pattern) (allowed : json)
    (h : heap) (content : string)
    (contentType : ContentType) (config : option Config)
    (fs : list Finding) (f : Finding) :
  fst (scan_with JP ps allowed h content contentType config) = Ok fs ->
  In f fs ->
  exists p h0 h1,
    In p ps
    /\ includes (p_contentTypes p) contentType = true
    /\ includes_id allowed (p_id p) = Ok false
    /\ apply_pattern h0 p content (split LF content)
         (if includes [agent; skill; command; rule] contentType
          then parseFrontmatter JP content else None) config
       = (Ok (Some f), h1).
Proof.
  unfold scan_with.
  destruct (scan_patterns _ _ _ _ _ _ _ _ _) as [[found|e] h'] eqn:E; simpl;
    [|discriminate].
  intros [= <-] Hf. apply sort_In in Hf.
  destruct (scan_patterns_origin _ _ _ _ _ _ _ _ _ _ _ E f Hf)
    as [[]|R]. exact R.
Qed.

Lemma scanContent_origin JP JS (h : heap) (content : string)
    (contentType : ContentType) (config : option Config)
    (fs : list Finding) (f : Finding) :
  fst (scanContent JP JS h content contentType config) = Ok fs ->
  In f fs ->
  exists p h0 h1,
    In p (PATTERNS JS)
    /\ includes (p_contentTypes p) contentType = true
    /\ includes_id (exemptions config) (p_id p) = Ok false
    /\ apply_pattern h0 p content (split LF content)
         (if includes [agent; skill; command; rule] contentType
          then parseFrontmatter JP content else None) config
       = (Ok (Some f), h1).
Proof. rewrite scanContent_eq. apply scan_with_origin. Qed.

(** ** The state of the regular expressions *)

Lemma exec_no_g (re : regexp) (a b : nat) (s : string) :
  re_global re = false ->
  fst (exec re a s) = fst (exec re b s) /\ snd (exec re a s) = a.
Proof.
  intros Hg. unfold exec. rewrite Hg.
  destruct (exec_from _ _ _ 0) as [[[i j] c]|]; simpl; auto.
Qed.

Lemma match_rule_no_g (h h0 : heap) (id : string) (re : regexp) (s : string) :
  re_global re = false ->
  match_rule h id re s = (fst (match_rule h0 id re s), h).
Proof.
  intros Hg. unfold match_rule.
  destruct (exec_no_g re (default 0 (h !! id)) (default 0 (h0 !! id)) s Hg)
    as [E _].
  destruct (exec re (default 0 (h !! id)) s) as [m li].
  destruct (exec re (default 0 (h0 !! id)) s) as [m0 li0].
  simpl in *. subst m0. now rewrite Hg.
Qed.

Lemma scan_lines_no_g (p : Pattern) (re : regexp) (ls : list string) :
  re_global re = false ->
  forall (h h0 : heap) (i : nat),
    scan_lines h p re ls i = (fst (scan_lines h0 p re ls i), h).
Proof.
  intros Hg. induction ls as [|l rest IH]; intros h h0 i; simpl; [reflexivity|].
  rewrite (match_rule_no_g h h0 _ _ _ Hg).
  destruct (match_rule h0 (p_id p) re l) as [[m|] h1]; simpl.
  - reflexivity.
  - apply IH.
Qed.

Lemma apply_pattern_stateless (h h0 : heap) (p : Pattern) (content : string)
    (lines : list string) (fm : option frontmatter) (config : option Config) :
  stateless p ->
  apply_pattern h p content lines fm config
  = (fst (apply_pattern h0 p content lines fm config), h).
Proof.
  unfold stateless, apply_pattern. intros Hs.
  destruct (p_check p) as [check|]; [reflexivity|].
  destruct (p_regex p) as [re|]; [|reflexivity].
  destruct (p_multiline p).
  - rewrite (match_rule_no_g h h0 _ _ _ Hs).
    destruct (match_rule h0 (p_id p) re content) as [[m|] h1]; reflexivity.
  - rewrite (scan_lines_no_g p re lines Hs h h0).
    destruct (scan_lines h0 p re lines 0) as [f h1]. reflexivity.
Qed.

Lemma scan_patterns_stateless (content : string) (lines : list string)
    (fm : option frontmatter) (config : option Config)
    (contentType : ContentType) (allowed : json) (ps : list Pattern) :
  Forall stateless ps ->
  forall (h h0 : heap) (acc : list Finding),
    scan_patterns h ps content lines fm config contentType allowed acc
    = (fst (scan_patterns h0 ps content lines fm config contentType allowed acc),
       h).
Proof.
  induction 1 as [|p rest Hp _ IH]; intros h h0 acc; simpl; [reflexivity|].
  destruct (negb (includes (p_contentTypes p) contentType)); [apply IH|].
  destruct (includes_id allowed (p_id p)) as [[|]|e0];
    [apply IH| |reflexivity].
  rewrite (apply_pattern_stateless h h0 p _ _ _ _ Hp).
  destruct (apply_pattern h0 p content lines fm config) as [[[f|]|e] h1]; simpl.
  - rewrite (IH h h1). reflexivity.
  - rewrite (IH h h1). reflexivity.
  - reflexivity.
Qed.

Lemma PATTERNS_stateless JS : Forall stateless (PATTERNS JS).
Proof. unfold PATTERNS. repeat constructor. Qed.

(** The result of a scan does not depend on the heap it starts from, and
    the scan leaves the heap as it found it. *)
Lemma scan_with_heap JP (ps : list Pattern) (allowed : json)
    (h h0 : heap) (content : string)
    (contentType : ContentType) (config : option Config) :
  Forall stateless ps ->
  scan_with JP ps allowed h content contentType config
  = (fst (scan_with JP ps allowed h0 content contentType config), h).
Proof.
  intros Hps. unfold scan_with.
  rewrite (scan_patterns_stateless _ _ _ _ _ _ _ Hps h h0).
  destruct (scan_patterns h0 _ _ _ _ _ _ _ _) as [[fs|e] h1]; reflexivity.
Qed.

Lemma scanContent_heap JP JS (h h0 : heap) (content : string)
    (contentType : ContentType) (config : option Config) :
  scanContent JP JS h content contentType config
  = (fst (scanContent JP JS h0 content contentType config), h).
Proof.
  rewrite !scanContent_eq. apply scan_with_heap, PATTERNS_stateless.
Qed.

Lemma fst_of_eq {A B : Type} (x : A * B) (a : A) (b : B) :
  x = (a, b) -> fst x = a.
Proof. now intros ->. Qed.

Lemma snd_of_eq {A B : Type} (x : A * B) (a : A) (b : B) :
  x = (a, b) -> snd x = b.
Proof. now intros ->. Qed.

Lemma scanContent_fst JP JS (h h0 : heap) (content : string)
    (contentType : ContentType) (config : option Config) :
  fst (scanContent JP JS h content contentType config)
  = fst (scanContent JP JS h0 content contentType config).
Proof.
  exact (fst_of_eq _ _ _ (scanContent_heap JP JS h h0 content contentType config)).
Qed.

Lemma scanContent_snd JP JS (h : heap) (content : string)
    (contentType : ContentType) (config : option Config) :
  snd (scanContent JP JS h content contentType config) = h.
Proof.
  exact (snd_of_eq _ _ _ (scanContent_heap JP JS h h content contentType config)).
Qed.

(** C9. Two invocations of [scanContent] with identical inputs, the second
    one starting from the state of the regular expressions that the first
    one left, give identical results: the same findings in the same order
    (or the same exception). *)
Theorem scanContent_deterministic :
  forall JP JS (h : heap) (content : string) (contentType : ContentType)
         (config : option Config),
    fst (scanContent JP JS h content contentType config)
    = fst (scanContent JP JS
             (snd (scanContent JP JS h content contentType config))
             content contentType config)
    /\ snd (scanContent JP JS
              (snd (scanContent JP JS h content contentType config))
              content contentType config) = h.
Proof.
  intros JP JS h content contentType config.
  rewrite !scanContent_snd. split; [apply scanContent_fst|reflexivity].
Qed.

(** ** Exempted rules *)

Lemma includes_In {A : Type} `{EqDecision A} (l : list A) (x : A) :
  includes l x = true <-> In x l.
Proof.
  unfold includes. rewrite existsb_exists. split.
  - intros (y & Hy & E). apply bool_decide_eq_true in E. now subst.
  - intros Hx. exists x. split; [assumption|]. now apply bool_decide_eq_true.
Qed.

(** C8. When the exempted-rule list of the configuration holds the rule id
    [R], no finding returned by [scanContent] has the id [R]. *)
Theorem scanContent_exempted :
  forall JP JS (h : heap) (content : string) (contentType : ContentType)
         (c : Config) (ids : list json) (R : string) (fs : list Finding),
    allowedPatterns c = Some (JArr ids) ->
    In (JStr R) ids ->
    fst (scanContent JP JS h content contentType (Some c)) = Ok fs ->
    forall f, In f fs -> f_id f <> R.
Proof.
  intros JP JS h content contentType c ids R fs Hc HR Hscan f Hf Hid.
  destruct (scanContent_origin _ _ _ _ _ _ _ _ Hscan Hf)
    as (p & h0 & h1 & _ & _ & Hex & Hap).
  apply apply_pattern_some in Hap. destruct Hap as [Hpid _].
  assert (includes_id (exemptions (Some c)) (p_id p) = Ok true) as Hin.
  { unfold exemptions, or_json. rewrite Hc. cbn [truthy_json includes_id].
    f_equal. apply existsb_exists. exists (JStr R).
    split; [assumption|]. apply String.eqb_eq. congruence. }
  congruence.
Qed.

(** The scan of [secret_and_force] with CRIT-001 exempted: the secret
    would trigger CRIT-001, and only the forced push is reported. *)
Lemma scanContent_exempted_witness :
  Samples.scan Samples.secret_and_force agent None
    = Ok [Samples.force_finding 2; Samples.secret_finding]
  /\ Samples.scan Samples.secret_and_force agent
       (Some (Samples.exempting ["CRIT-001"]))
     = Ok [Samples.force_finding 2]
  /\ forall f, In f [Samples.force_finding 2] -> f_id f <> "CRIT-001".
Proof.
  split; [vm_compute; reflexivity|].
  split; [vm_compute; reflexivity|].
  apply (scanContent_exempted SampleHost.JSON_parse SampleHost.JSON_stringify
           ∅ Samples.secret_and_force agent
           (Samples.exempting ["CRIT-001"]) [JStr "CRIT-001"] "CRIT-001").
  - reflexivity.
  - simpl. auto.
  - vm_compute. reflexivity.
Defined.

(** ** The secret-assignment scenario *)

(** ** How a scan reads the configuration *)

Lemma PATTERNS_checks JS (p : Pattern) (check : CheckFn) :
  In p (PATTERNS JS) -> p_check p = Some check ->
  check = Rules.crit001_check \/ check = Rules.high001_check JS
  \/ (check = Rules.med003_check /\ p_contentTypes p = docs)
  \/ (check = Rules.med004_check /\ p_contentTypes p = [agent]).
Proof.
  unfold PATTERNS. simpl. intros H Hc.
  repeat (destruct H as [<-|H];
          [simpl in Hc; first [discriminate Hc
                              | injection Hc as <-; tauto]|]).
  destruct H.
Qed.

Lemma scan_patterns_config (content : string) (lines : list string)
    (fm : option frontmatter) (config config' : option Config)
    (contentType : ContentType) (allowed : json) (ps : list Pattern) :
  (forall p check, In p ps -> p_check p = Some check ->
     check content fm config = check content fm config') ->
  forall (h : heap) (acc : list Finding),
    scan_patterns h ps content lines fm config contentType allowed acc
    = scan_patterns h ps content lines fm config' contentType allowed acc.
Proof.
  induction ps as [|p rest IH]; intros Hc h acc; cbn [scan_patterns];
    [reflexivity|].
  assert (forall h0 acc0,
            scan_patterns h0 rest content lines fm config contentType allowed
              acc0
            = scan_patterns h0 rest content lines fm config' contentType
                allowed acc0) as IH'.
  { apply IH. intros q check Hq. apply Hc. now right. }
  assert (apply_pattern h p content lines fm config
          = apply_pattern h p content lines fm config') as ->.
  { unfold apply_pattern. destruct (p_check p) as [check|] eqn:Ep;
      [|reflexivity].
    now rewrite (Hc p check (or_introl eq_refl) Ep). }
  destruct (negb (includes (p_contentTypes p) contentType)); [apply IH'|].
  destruct (includes_id allowed (p_id p)) as [[|]|e]; [apply IH'| |reflexivity].
  destruct (apply_pattern h p content lines fm config') as [[[f|]|e] h1];
    [apply IH'|apply IH'|reflexivity].
Qed.

(** Beyond the exemptions, a scan reads the configuration for the
    whitelist of MED-003 only. *)
Lemma scan_with_whitelist JP JS (allowed : json) (h : heap)
    (content : string) (contentType : ContentType)
    (config config' : option Config) :
  Rules.whitelist_of config = Rules.whitelist_of config' ->
  scan_with JP (PATTERNS JS) allowed h content contentType config
  = scan_with JP (PATTERNS JS) allowed h content contentType config'.
Proof.
  intros Hw. unfold scan_with.
  rewrite (scan_patterns_config content (split LF content) _ config config'
             contentType allowed (PATTERNS JS)); [reflexivity|].
  intros p check Hp Hc.
  destruct (PATTERNS_checks JS p check Hp Hc) as [->|[->|[[-> _]|[-> _]]]];
    try reflexivity.
  unfold Rules.med003_check. now rewrite Hw.
Qed.

(** The scan of the line for a whitelist that is a list, and for one
    that is a string. *)
Lemma scan_secret_line_list JP JS (l : list json) :
  fst (scan_with JP (PATTERNS JS) (JArr []) ∅ Samples.secret_line agent
         (Some (mkConfig None None None (Some (JArr l)) None)))
  = Ok [Samples.secret_finding].
Proof. vm_compute. reflexivity. Qed.

Lemma scan_secret_line_string JP JS (a : ascii) (s : string) :
  fst (scan_with JP (PATTERNS JS) (JArr []) ∅ Samples.secret_line agent
         (Some (mkConfig None None None (Some (JStr (String a s))) None)))
  = Ok [Samples.secret_finding].
Proof. vm_compute. reflexivity. Qed.

Lemma whitelist_of_truthy (config : option Config) (s : string) :
  Rules.whitelist_of config = JStr s -> s <> "".
Proof.
  unfold Rules.whitelist_of, or_json.
  destruct config as [c|]; [|discriminate].
  destruct (whitelistedUrls c) as [v|]; [|discriminate].
  destruct (truthy_json v) eqn:Et; [|discriminate].
  intros ->. cbn in Et. intros ->. discriminate.
Qed.

(** C6. Scanning the line [const apiKey = "sk-proj-AbCdEfGh12345678"] as
    an agent definition, with an empty exemption list, yields exactly one
    finding: CRITICAL, rule CRIT-001, line 1. *)
Theorem scan_secret_line :
  forall JP JS (h : heap) (config : option Config) (whitelist : list json),
    exemptions config = JArr [] ->
    Rules.spread (Rules.whitelist_of config) = Ok whitelist ->
    fst (scanContent JP JS h Samples.secret_line agent config)
    = Ok [Samples.secret_finding]
    /\ f_severity Samples.secret_finding = CRITICAL
    /\ f_id Samples.secret_finding = "CRIT-001"
    /\ f_line Samples.secret_finding = 1.
Proof.
  intros JP JS h config whitelist Hex Hw. split; [|repeat split].
  rewrite (scanContent_fst JP JS h ∅), scanContent_eq, Hex.
  destruct (Rules.whitelist_of config) as [| | | s |items|] eqn:Ew;
    try discriminate.
  - destruct s as [|a s]; [now apply whitelist_of_truthy in Ew|].
    rewrite (scan_with_whitelist JP JS _ _ _ _ config
               (Some (mkConfig None None None (Some (JStr (String a s))) None)))
      by (rewrite Ew; reflexivity).
    apply scan_secret_line_string.
  - rewrite (scan_with_whitelist JP JS _ _ _ _ config
               (Some (mkConfig None None None (Some (JArr items)) None)))
      by (rewrite Ew; reflexivity).
    apply scan_secret_line_list.
Qed.

Lemma scan_secret_line_witness :
  exemptions (Some (Samples.exempting [])) = JArr []
  /\ Samples.scan Samples.secret_line agent (Some (Samples.exempting []))
     = Ok [Samples.secret_finding].
Proof.
  split; [reflexivity|].
  apply (scan_secret_line SampleHost.JSON_parse SampleHost.JSON_stringify ∅
           (Some (Samples.exempting [])) []).
  - reflexivity.
  - reflexivity.
Defined.

(** ** The order of the findings *)

(** C1, on the code. Scanning a secret followed by a forced push returns
    the HIGH finding before the CRITICAL one: the comparison ranks
    CRITICAL as [0 || 3 = 3], after HIGH and MEDIUM, and the list is not
    severity-sorted. *)
Theorem scan_critical_sorted_last :
  forall JP JS (h : heap),
    fst (scanContent JP JS h Samples.secret_and_force agent None)
    = Ok [Samples.force_finding 2; Samples.secret_finding]
    /\ ~ severity_sorted [Samples.force_finding 2; Samples.secret_finding].
Proof.
  intros JP JS h. split.
  - rewrite (scanContent_fst JP JS h ∅). vm_compute. reflexivity.
  - intros Hs.
    specialize (Hs 1 0 Samples.secret_finding (Samples.force_finding 2)
                  eq_refl eq_refl).
    simpl in Hs. lia.
Qed.

(** What the sort does guarantee: the findings are in the order HIGH,
    MEDIUM, CRITICAL. *)
Lemma scanContent_effective_order JP JS (h : heap) (content : string)
    (contentType : ContentType) (config : option Config) (fs : list Finding) :
  fst (scanContent JP JS h content contentType config) = Ok fs ->
  Sorted (fun a b => (effective_rank (f_severity a)
                      <= effective_rank (f_severity b))%Z) fs.
Proof.
  rewrite scanContent_eq. unfold scan_with.
  generalize (PATTERNS JS). intros ps.
  destruct (scan_patterns _ _ _ _ _ _ _ _ _) as [[found|e] h'];
    simpl; [|discriminate].
  intros [= <-]. apply sort_rank.
Qed.

(** ** Unrecognized content *)

(** No rule applies to the [unknown] category: the scan returns no
    finding and leaves the heap alone. *)
Lemma scan_unknown JP JS (h : heap) (content : string)
    (config : option Config) :
  scanContent JP JS h content unknown config = (Ok [], h).
Proof. reflexivity. Qed.

(** ** Documented counter-examples *)

Lemma crit001_loop_hit (lines : list string) (n : nat) :
  forall (i : nat) (hit : Hit),
    Rules.crit001_loop lines n i = Some hit ->
    exists k, i <= k < i + n /\ h_line hit = k + 1
              /\ Rules.documents_bad_practice lines k = false.
Proof.
  induction n as [|n IH]; intros i hit; simpl; [discriminate|].
  assert (forall hit', Rules.crit001_loop lines n (S i) = Some hit' ->
            exists k, i <= k < i + S n /\ h_line hit' = k + 1
                      /\ Rules.documents_bad_practice lines k = false) as Next.
  { intros hit' H. destruct (IH _ _ H) as (k & Hk & R). exists k. split; [lia|exact R]. }
  destruct (Rules.documents_bad_practice lines i) eqn:Eb; [apply Next|].
  destruct (fst (exec Rules.secretRegex 0 (line_at lines i))) as [m|];
    [|apply Next].
  destruct (negb (test Rules.fakePatterns (mgroup 1 m))); [|apply Next].
  intros [= <-]. exists i. simpl. repeat split; auto; lia.
Qed.

Lemma PATTERNS_crit001 JS (p : Pattern) :
  In p (PATTERNS JS) -> p_id p = "CRIT-001" ->
  p_check p = Some Rules.crit001_check.
Proof.
  unfold PATTERNS. simpl. intros H Hid.
  repeat (destruct H as [<-|H]; [first [reflexivity | discriminate Hid]|]).
  destruct H.
Qed.

Lemma documents_bad_practice_false (lines : list string) (k : nat) :
  Rules.documents_bad_practice lines k = false ->
  forall d, d < 3 -> d <= k -> contains_marker (line_at lines (k - d)) = false.
Proof.
  unfold Rules.documents_bad_practice, contains_marker. intros H d Hd Hk.
  apply orb_false_elim in H. destruct H as [H H2].
  apply orb_false_elim in H. destruct H as [H0 H1].
  destruct d as [|[|[|d]]]; [| | |lia].
  - now rewrite Nat.sub_0_r.
  - exact H1.
  - exact H2.
Qed.

(** C7. A finding of the hardcoded-secret rule CRIT-001 is never on a line
    that holds a bad-example marker word, nor on a line one or two lines
    below such a line; and the secret-assignment line right under a line
    that holds the word WRONG yields no finding of that rule. *)
Theorem crit001_suppressed_near_marker :
  forall JP JS (h : heap) (content : string) (contentType : ContentType)
         (config : option Config) (fs : list Finding),
    fst (scanContent JP JS h content contentType config) = Ok fs ->
    (forall f, In f fs -> f_id f = "CRIT-001" ->
       1 <= f_line f /\
       forall d, d < 3 -> d < f_line f ->
         contains_marker (line_at (split LF content) (f_line f - 1 - d))
         = false)
    /\ (content = Samples.documented_secret ->
        forall f, In f fs -> f_id f <> "CRIT-001").
Proof.
  intros JP JS h content contentType config fs Hscan.
  assert (forall f, In f fs -> f_id f = "CRIT-001" ->
            exists k, f_line f = k + 1
              /\ Rules.crit001_loop (split LF content)
                   (length (split LF content)) 0 <> None
              /\ Rules.documents_bad_practice (split LF content) k = false)
    as Core.
  { intros f Hf Hid.
    destruct (scanContent_origin _ _ _ _ _ _ _ _ Hscan Hf)
      as (p & h0 & h1 & Hp & _ & _ & Hap).
    destruct (apply_pattern_some _ _ _ _ _ _ _ _ Hap) as [Hpid _].
    rewrite Hid in Hpid. symmetry in Hpid.
    pose proof (PATTERNS_crit001 JS p Hp Hpid) as Hc.
    unfold apply_pattern in Hap. rewrite Hc in Hap.
    unfold Rules.crit001_check in Hap. simpl in Hap.
    destruct (Rules.crit001_loop _ _ 0) as [hit|] eqn:El; [|discriminate].
    destruct (crit001_loop_hit _ _ _ _ El) as (k & _ & Hl & Hb).
    injection Hap as Hf' _. subst f. simpl. exists k.
    rewrite Hl. replace (k + 1 =? 0)%nat with false
      by (symmetry; apply Nat.eqb_neq; lia).
    repeat split; auto. }
  split.
  - intros f Hf Hid. destruct (Core f Hf Hid) as (k & Hl & _ & Hb).
    split; [lia|]. intros d Hd Hlt. rewrite Hl.
    replace (k + 1 - 1 - d) with (k - d) by lia.
    apply documents_bad_practice_false; [assumption|lia|lia].
  - intros -> f Hf Hid. destruct (Core f Hf Hid) as (k & _ & Hne & _).
    apply Hne. vm_compute. reflexivity.
Qed.

Lemma crit001_suppressed_near_marker_witness :
  Samples.scan Samples.secret_and_force agent None
    = Ok [Samples.force_finding 2; Samples.secret_finding]
  /\ contains_marker (line_at (split LF Samples.secret_and_force) 0) = false
  /\ Samples.scan Samples.documented_secret agent None = Ok []
  /\ contains_marker (line_at (split LF Samples.documented_secret) 0) = true.
Proof.
  assert (Samples.scan Samples.secret_and_force agent None
          = Ok [Samples.force_finding 2; Samples.secret_finding]) as E
    by (vm_compute; reflexivity).
  split; [exact E|]. split; [|split; vm_compute; reflexivity].
  destruct (crit001_suppressed_near_marker
              SampleHost.JSON_parse SampleHost.JSON_stringify ∅
              Samples.secret_and_force agent None _ E) as [G _].
  destruct (G Samples.secret_finding) as [_ G'].
  - simpl. auto.
  - reflexivity.
  - apply (G' 0); simpl; lia.
Defined.

(** ** The hook *)

Lemma loadConfig_world (env : Env) (w : World) :
  stdout (snd (loadConfig env w)) = stdout w
  /\ files (snd (loadConfig env w)) = files w
  /\ regexes (snd (loadConfig env w)) = regexes w.
Proof. unfold loadConfig. destruct (config_file env); simpl; auto. Qed.

Lemma console_errors_world (lines : list string) :
  forall w : World,
    stdout (console_errors w lines) = stdout w
    /\ files (console_errors w lines) = files w.
Proof.
  unfold console_errors.
  induction lines as [|l r IH]; intros w; simpl; [auto|].
  destruct (IH (console_error w l)) as [-> ->]. auto.
Qed.

Lemma writeAuditLog_stdout (env : Env) (w : World) (config : option Config)
    (entry : string -> AuditEntry) :
  stdout (writeAuditLog env w config entry) = stdout w.
Proof.
  unfold writeAuditLog.
  destruct (rbind _ _) as [logPath|msg]; [|reflexivity].
  destruct (append_error env _); reflexivity.
Qed.

Lemma protected_nonempty (filePath : string) :
  isProtected filePath = true -> String.eqb filePath "" = false.
Proof. destruct filePath; [discriminate|reflexivity]. Qed.


Lemma set_regexes_same (w : World) : set_regexes w (regexes w) = w.
Proof. now destruct w. Qed.

Section Hook.
Variable JSON_parse : string -> option (list jsval).
Variable JSON_stringify : list jsval -> string.
Variable CONFIG_PATH : string.

Abbreviation scanContent := (scanContent JSON_parse JSON_stringify).
Abbreviation scan_value := (scan_value JSON_parse JSON_stringify).
Abbreviation hook_report := (hook_report CONFIG_PATH).
Abbreviation hook_try := (hook_try JSON_parse JSON_stringify CONFIG_PATH).
Abbreviation runHookMode :=
  (runHookMode JSON_parse JSON_stringify CONFIG_PATH).

Lemma scan_value_heap (h h0 : heap) (content : Value)
    (contentType : ContentType) (config : option Config) :
  scan_value h content contentType config
  = (fst (scan_value h0 content contentType config), h).
Proof.
  destruct content as [text|t l]; [apply scanContent_heap|reflexivity].
Qed.

(** What the [try] block does with an event that the hook scans. *)
Lemma hook_try_scans (env : Env) (w : World) (ev : HookEvent)
    (input : HookInput) (filePath : string) :
  reaches_scan env ev input filePath ->
  hook_try env w ev =
  match fst (scan_value (regexes w) (contentToScan_of input)
               (detectContentType filePath) (fst (loadConfig env w)))
  with
  | Throw msg => (contentToScan_of input, snd (loadConfig env w), Raised msg)
  | Ok findings =>
      (contentToScan_of input,
       fst (hook_report env (snd (loadConfig env w)) ev input filePath
              (detectContentType filePath) (fst (loadConfig env w)) findings),
       snd (hook_report env (snd (loadConfig env w)) ev input filePath
              (detectContentType filePath) (fst (loadConfig env w)) findings))
  end.
Proof.
  intros (Hp & Hc & Hfp & Hprot & Hself). unfold Gate.hook_try.
  rewrite Hp, Hc, Hfp. cbn [is_truthy].
  rewrite (protected_nonempty _ Hprot). cbn [negb orb].
  rewrite Hprot, Hself. cbn [negb]. cbv zeta.
  pose proof (loadConfig_world env w) as (_ & _ & Hr).
  rewrite (scan_value_heap (regexes (snd (loadConfig env w))) (regexes w)).
  destruct (fst (scan_value (regexes w) _ _ _)) as [findings|msg];
    now rewrite set_regexes_same.
Qed.

(** What follows the scan of the hook, when [getAction] returns: how
    control leaves, and what was written on standard output and to the
    files. *)
Lemma hook_report_outcome (env : Env) (w : World) (ev : HookEvent)
    (input : HookInput) (filePath : string) (contentType : ContentType)
    (config : option Config) (findings : list Finding) (action : Action) :
  getAction findings config = Ok action ->
  snd (hook_report env w ev input filePath contentType config findings)
  = (if (0 <? length (with_severity CRITICAL findings))%nat
     then Exited 2 else Returned)
  /\ stdout (fst (hook_report env w ev input filePath contentType config
                    findings))
     = stdout w
       ++ (if (0 <? length (with_severity CRITICAL findings))%nat
           then [] else [data ev])
  /\ files (fst (hook_report env w ev input filePath contentType config
                   findings))
     = files (writeAuditLog env w config (fun timestamp =>
                mkAudit timestamp (event_name action) "PreToolUse"
                        (or_json (tool input) (JStr "unknown")) filePath
                        contentType findings action)).
Proof.
  intros Ha. unfold Gate.hook_report. rewrite Ha.
  set (w2 := writeAuditLog env w config _).
  assert (stdout w2 = stdout w) as Hw2 by apply writeAuditLog_stdout.
  assert (forall (b : bool) l x,
            stdout (if b then console_errors x l else x) = stdout x
            /\ files (if b then console_errors x l else x) = files x) as Hce
    by (intros [] l x; [apply console_errors_world|auto]).
  destruct (length findings =? 0)%nat eqn:E0.
  - apply Nat.eqb_eq in E0. destruct findings; [|discriminate].
    cbn [with_severity List.filter length Nat.ltb Nat.leb fst snd stdout
         files console_log]. now rewrite Hw2.
  - destruct (0 <? length (with_severity CRITICAL findings))%nat;
      cbn [fst snd].
    + destruct (console_errors_world
                  (block_report CONFIG_PATH (with_severity CRITICAL findings)
                     (with_severity HIGH findings)
                     (with_severity MEDIUM findings)) w2) as [-> ->].
      now rewrite Hw2, app_nil_r.
    + cbn [stdout files console_log].
      rewrite !(proj1 (Hce _ _ _)), !(proj2 (Hce _ _ _)), Hw2. auto.
Qed.

(** When the [try] block raises, nothing was printed or logged yet; the
    content is the empty string exactly when the event did not parse. *)
Lemma hook_try_raised (env : Env) (w : World) (ev : HookEvent)
    (c : Value) (w' : World) (msg : string) :
  hook_try env w ev = (c, w', Raised msg) ->
  stdout w' = stdout w /\ files w' = files w
  /\ (c = Str "" <-> exists m, parsed ev = Throw m).
Proof.
  unfold Gate.hook_try.
  destruct (parsed ev) as [input|m] eqn:Hp.
  2:{ intros [= <- <- <-]. repeat split; eauto. }
  assert (is_truthy (contentToScan_of input) = true ->
          (contentToScan_of input = Str "" <-> exists m, Ok input = Throw m))
    as Hiff.
  { intros Ht. split.
    - intros E. rewrite E in Ht. discriminate.
    - intros [m Hm]. discriminate. }
  destruct (is_truthy (contentToScan_of input)) eqn:Hc; cbn [negb orb];
    [|discriminate].
  destruct (is_truthy (filePath_of input)); cbn [negb]; [|discriminate].
  destruct (filePath_of input) as [filePath|t l].
  2:{ intros [= <- <- <-]. auto. }
  destruct (negb (isProtected filePath)); [discriminate|].
  destruct (isSelfPath env filePath) as [[|]|e]; [discriminate| |].
  2:{ intros [= <- <- <-]. auto. }
  cbv zeta.
  pose proof (loadConfig_world env w) as (Ho & Hf & _).
  destruct (Gate.scan_value _ _ _ _ _ _) as [[findings|e] h].
  - unfold Gate.hook_report.
    destruct (getAction findings (fst (loadConfig env w))) as [action|e].
    + destruct (length findings =? 0)%nat; [discriminate|].
      destruct (0 <? length (with_severity CRITICAL findings))%nat;
        discriminate.
    + cbn [fst snd]. intros [= <- <- <-]. cbn [stdout files set_regexes]. auto.
  - intros [= <- <- <-]. cbn [stdout files set_regexes]. auto.
Qed.


(** A scan that throws makes the [try] block raise, with the content. *)
Lemma scan_throw_raises (env : Env) (w : World) (ev : HookEvent)
    (input : HookInput) (filePath msg : string) :
  reaches_scan env ev input filePath ->
  fst (scan_value (regexes w) (contentToScan_of input)
         (detectContentType filePath) (fst (loadConfig env w))) = Throw msg ->
  hook_try env w ev
  = (contentToScan_of input, snd (loadConfig env w), Raised msg).
Proof.
  intros Hr Hs. rewrite (hook_try_scans _ _ _ _ _ Hr). now rewrite Hs.
Qed.
End Hook.


(** An event that does not parse is re-emitted. *)
Example hook_unparsed_passthrough :
  snd (Samples.run (Samples.env_with Samples.no_config)
         (mkEvent "garbage" (Throw "Unexpected token g"))) = 0
  /\ stdout (fst (Samples.run (Samples.env_with Samples.no_config)
                    (mkEvent "garbage" (Throw "Unexpected token g"))))
     = ["garbage"].
Proof. vm_compute. split; reflexivity. Qed.

(** C3, on the code. A Write whose [content] is the number 123 carries
    content (the value is truthy, and the hook goes on to scan it); the
    scan throws, since a number has no [match]; and the test of the
    handler, [contentToScan.length > 0], fails on a number: the event is
    re-emitted and the exit status is 0, where the comment of the handler
    says that an error on content that exists blocks. *)
Theorem hook_open_on_number_content :
  forall JP JS CP,
    let ev := Samples.number_event "agents/x.md" in
    let env := Samples.env_with Samples.no_config in
    let r := runHookMode JP JS CP env Samples.fresh ev in
    hook_try JP JS CP env Samples.fresh ev
    = (Other true false, Samples.fresh,
       Raised "content.match is not a function")
    /\ is_truthy (Other true false) = true
    /\ snd r = 0
    /\ stdout (fst r) = [data ev]
    /\ stderr (fst r)
       = ["[SECURITY GATE] Error during scan: content.match is not a function"]
    /\ files (fst r) = ∅.
Proof.
  intros JP JS CP. vm_compute. repeat split; reflexivity.
Qed.

(** C2, on the code. With [blockOnSeverity] set to HIGH, a write whose
    only finding is HIGH gets the action BLOCK from [getAction] and is
    logged as a block, yet the hook lets it through: the event is
    re-emitted and the exit status is 0. *)
Theorem hook_ignores_block_threshold :
  forall JP JS CP,
    let ev := Samples.write_event "agents/x.md" "git push --force" in
    let env := Samples.env_with Samples.strict_config in
    let r := runHookMode JP JS CP env Samples.fresh ev in
    fst (scanContent JP JS ∅ "git push --force" agent
           (Some Samples.strict_config))
      = Ok [Samples.force_finding 1]
    /\ getAction [Samples.force_finding 1] (Some Samples.strict_config)
       = Ok BLOCK
    /\ snd r = 0
    /\ stdout (fst r) = [data ev]
    /\ files (fst r) !! "/opt/ewave/logs/security-audit.jsonl"
       = Some [mkAudit "2026-01-01T00:00:00.000Z" "block" "PreToolUse"
                 (JStr "Write") "agents/x.md" agent [Samples.force_finding 1]
                 BLOCK].
Proof.
  intros JP JS CP. vm_compute. repeat split; reflexivity.
Qed.

(** ** Unrecognized paths in the hook *)




(** With the configuration file holding [null], the same write is
    blocked after the scan, and nothing is logged: [getAction] reads a
    property of [null]. *)
Example hook_null_config :
  snd (Samples.run Samples.env_null
         (Samples.write_event "scripts/notes.txt" "hello")) = 2
  /\ files (fst (Samples.run Samples.env_null
                   (Samples.write_event "scripts/notes.txt" "hello"))) = ∅.
Proof. vm_compute. split; reflexivity. Qed.

(** ** The audit log *)

(** A log path that resolves to a path that does not start with the
    plugin directory is replaced by the default path. *)
Lemma auditLogDestination_redirect (env : Env) (config : Config)
    (p : string) :
  or_json (auditLogPath config) (JStr DEFAULT_LOG) = JStr p ->
  startsWith (Path.resolve (PLUGIN_DIR env) p) (PLUGIN_DIR env) = false ->
  auditLogDestination env config
  = Ok (Path.resolve (PLUGIN_DIR env) DEFAULT_LOG).
Proof. unfold auditLogDestination. now intros -> ->. Qed.

Example auditLogDestination_tmp :
  auditLogDestination (Samples.env_with Samples.no_config)
    (mkConfig None None (Some (JStr "/tmp/audit.jsonl")) None None)
  = Ok "/opt/ewave/logs/security-audit.jsonl".
Proof. vm_compute. reflexivity. Qed.

(** C5, on the code. With the plugin installed in [/opt/ewave] and the
    log path [../ewave-evil/audit.jsonl], the entry is appended to
    [/opt/ewave-evil/audit.jsonl], a file outside the plugin directory:
    the guard compares prefixes of characters, and [/opt/ewave-evil]
    starts with [/opt/ewave]. *)
Theorem audit_log_escapes_plugin_dir :
  let env := Samples.env_with Samples.escaping_config in
  let entry := fun timestamp =>
    mkAudit timestamp "scan" "PreToolUse" (JStr "Write") "agents/x.md" agent []
            PASS in
  let w := writeAuditLog env Samples.fresh (Some Samples.escaping_config)
             entry in
  auditLogDestination env Samples.escaping_config
  = Ok "/opt/ewave-evil/audit.jsonl"
  /\ inside (PLUGIN_DIR env) "/opt/ewave-evil/audit.jsonl" = false
  /\ files w !! "/opt/ewave-evil/audit.jsonl" = Some [entry (now env)]
  /\ files w !! "/opt/ewave/logs/security-audit.jsonl" = None.
Proof. vm_compute. repeat split; reflexivity. Qed.

(** ** The matcher finds what the regular expression means *)

Section RunMeaning.
Variable ic : bool.
Variable s : list ascii.

Lemma step1_In (ok : ascii -> bool) (i : nat) (c : caps) (j : nat)
    (c' : caps) :
  In (j, c') (step1 s ok i c)
  <-> exists x, s !! i = Some x /\ ok x = true /\ j = S i /\ c' = c.
Proof.
  unfold step1. destruct (s !! i) as [x|] eqn:E.
  - destruct (ok x) eqn:Eo; simpl.
    + split.
      * intros [[= <- <-]|[]]. exists x. auto.
      * intros (y & [= <-] & _ & -> & ->). now left.
    + split; [intros []|]. intros (y & [= <-] & Hy & _). congruence.
  - simpl. split; [intros []|]. intros (y & Hy & _). discriminate.
Qed.

Lemma iter_le (R : nat -> nat -> Prop) (i j : nat) : iter R i j -> i <= j.
Proof. induction 1; lia. Qed.

Section Loop.
Variables (greedy : bool) (step : nat -> caps -> list (nat * caps))
          (R : nat -> nat -> Prop).
Hypothesis step_sound :
  forall i c j c', i <= length s -> In (j, c') (step i c) ->
                   R i j /\ j <= length s.
Hypothesis step_complete :
  forall i j c, i <= length s -> R i j -> exists c', In (j, c') (step i c).

Lemma star_loop_sound (fuel : nat) :
  forall i c j c', i <= length s ->
    In (j, c') (star_loop greedy step fuel i c) ->
    iter R i j /\ j <= length s.
Proof.
  induction fuel as [|f IH]; intros i c j c' Hi; simpl.
  - intros [[= <- <-]|[]]. split; [constructor|assumption].
  - assert (In (j, c') (flat_map
              (fun jc => if (i <? fst jc)%nat
                         then star_loop greedy step f (fst jc) (snd jc)
                         else []) (step i c)) ->
            iter R i j /\ j <= length s) as More.
    { intros H. apply in_flat_map in H. destruct H as ([k c1] & Hk & H).
      simpl in H. destruct (Nat.ltb_spec i k) as [Hlt|]; [|destruct H].
      destruct (step_sound _ _ _ _ Hi Hk) as [HR Hkl].
      destruct (IH _ _ _ _ Hkl H) as [Hit Hj].
      split; [|assumption]. econstructor; eassumption. }
    assert (In (j, c') [(i, c)] -> iter R i j /\ j <= length s) as Stop.
    { intros [[= <- <-]|[]]. split; [constructor|assumption]. }
    destruct greedy.
    + intros H. apply in_app_or in H. tauto.
    + intros [H|H]; [apply Stop; now left|auto].
Qed.

Lemma star_loop_complete (i j : nat) :
  iter R i j ->
  forall fuel c, i <= length s -> length s - i < fuel ->
    exists c', In (j, c') (star_loop greedy step fuel i c).
Proof.
  induction 1 as [i|i k j HR Hlt Hit IH]; intros fuel c Hi Hf.
  - destruct fuel as [|f]; [lia|]. exists c. simpl.
    destruct greedy; [apply in_or_app; right|]; now left.
  - destruct fuel as [|f]; [lia|].
    destruct (step_complete _ _ c Hi HR) as [c1 Hk].
    destruct (step_sound _ _ _ _ Hi Hk) as [_ Hkl].
    destruct (IH f c1 Hkl ltac:(lia)) as [c' Hj].
    exists c'. simpl.
    assert (In (j, c') (flat_map
              (fun jc => if (i <? fst jc)%nat
                         then star_loop greedy step f (fst jc) (snd jc)
                         else []) (step i c))) as More.
    { apply in_flat_map. exists (k, c1). split; [assumption|]. simpl.
      destruct (Nat.ltb_spec i k); [assumption|lia]. }
    destruct greedy; [apply in_or_app; left|right]; assumption.
Qed.
End Loop.

(** The end positions listed by [run] are those of the matches. *)
Lemma run_Matches (r : regex) :
  forall i c, i <= length s ->
    (forall j c', In (j, c') (run ic s r i c) ->
                  Matches ic s r i j /\ j <= length s)
    /\ (forall j, Matches ic s r i j -> exists c', In (j, c') (run ic s r i c)).
Proof.
  induction r as [|a| |neg items|r1 IH1 r2 IH2|r1 IH1 r2 IH2|g r1 IH1
                  | | |
                  |r1 IH1|n r1 IH1]; intros i c Hi; cbn [run Matches].
  - split.
    + intros j c' [[= <- <-]|[]]. auto.
    + intros j ->. exists c. now left.
  - split.
    + intros j c' H. apply step1_In in H. destruct H as (x & Hx & Hok & -> & _).
      split; [eauto|]. apply lookup_lt_Some in Hx. lia.
    + intros j (x & Hx & Hok & ->). exists c. apply step1_In. eauto.
  - split.
    + intros j c' H. apply step1_In in H. destruct H as (x & Hx & Hok & -> & _).
      apply negb_true_iff in Hok.
      split; [eauto|]. apply lookup_lt_Some in Hx. lia.
    + intros j (x & Hx & Hok & ->). exists c. apply step1_In.
      exists x. rewrite Hok. auto.
  - split.
    + intros j c' H. apply step1_In in H. destruct H as (x & Hx & Hok & -> & _).
      split; [eauto|]. apply lookup_lt_Some in Hx. lia.
    + intros j (x & Hx & Hok & ->). exists c. apply step1_In. eauto.
  - split.
    + intros j c' H. apply in_flat_map in H. destruct H as ([k c1] & Hk & H).
      simpl in H. destruct (IH1 i c Hi) as [S1 _].
      destruct (S1 _ _ Hk) as [M1 Hkl].
      destruct (IH2 k c1 Hkl) as [S2 _]. destruct (S2 _ _ H) as [M2 Hjl].
      split; [eauto|assumption].
    + intros j (k & M1 & M2). destruct (IH1 i c Hi) as [S1 C1].
      destruct (C1 _ M1) as [c1 Hk]. destruct (S1 _ _ Hk) as [_ Hkl].
      destruct (IH2 k c1 Hkl) as [_ C2]. destruct (C2 _ M2) as [c' Hj].
      exists c'. apply in_flat_map. exists (k, c1). auto.
  - destruct (IH1 i c Hi) as [S1 C1]. destruct (IH2 i c Hi) as [S2 C2]. split.
    + intros j c' H. apply in_app_or in H. destruct H as [H|H].
      * destruct (S1 _ _ H). auto.
      * destruct (S2 _ _ H). auto.
    + intros j [M|M].
      * destruct (C1 _ M) as [c' H]. exists c'. apply in_or_app. auto.
      * destruct (C2 _ M) as [c' H]. exists c'. apply in_or_app. auto.
  - split.
    + intros j c'. apply star_loop_sound; [|assumption].
      intros i0 c0 j0 c0' Hi0. apply (IH1 i0 c0 Hi0).
    + intros j M. apply (star_loop_complete g (run ic s r1) (Matches ic s r1));
        try assumption; try lia.
      * intros i0 c0 j0 c0' Hi0. apply (IH1 i0 c0 Hi0).
      * intros i0 j0 c0 Hi0. apply (IH1 i0 c0 Hi0).
  - destruct (Nat.eqb_spec i 0) as [->|Hne]; split.
    + intros j c' [[= <- <-]|[]]. auto.
    + intros j [_ ->]. exists c. now left.
    + intros j c' [].
    + intros j [? _]. contradiction.
  - destruct (Nat.eqb_spec i (length s)) as [->|Hne]; split.
    + intros j c' [[= <- <-]|[]]. auto.
    + intros j [_ ->]. exists c. now left.
    + intros j c' [].
    + intros j [? _]. contradiction.
  - destruct (word_boundary s i) eqn:E; split.
    + intros j c' [[= <- <-]|[]]. auto.
    + intros j [_ ->]. exists c. now left.
    + intros j c' [].
    + intros j [? _]. discriminate.
  - destruct (IH1 i c Hi) as [S1 C1]. split.
    + intros j c' H. destruct (run ic s r1 i c) as [|[k c1] rest] eqn:E.
      * destruct H as [[= <- <-]|[]]. split; [|assumption].
        split; [|reflexivity]. intros k M. destruct (C1 _ M) as [c1 []].
      * destruct H.
    + intros j [Hno ->]. destruct (run ic s r1 i c) as [|[k c1] rest] eqn:E.
      * exists c. now left.
      * destruct (S1 k c1 ltac:(now left)) as [M _]. now destruct (Hno k).
  - destruct (IH1 i c Hi) as [S1 C1]. split.
    + intros j c' H. apply in_map_iff in H. destruct H as ([k c1] & [= <- <-] & H).
      simpl. apply (S1 _ _ H).
    + intros j M. destruct (C1 _ M) as [c1 H].
      exists ((n, (i, j)) :: c1).
      apply in_map_iff. exists (j, c1). auto.
Qed.

Lemma search_Some (r : regex) (fuel : nat) :
  forall i res, search ic s r fuel i = Some res ->
    exists i' j c, res = (i', j, c) /\ i <= i' <= i + fuel
                   /\ In (j, c) (run ic s r i' []).
Proof.
  induction fuel as [|f IH]; intros i res; simpl.
  - destruct (run ic s r i []) as [|[j c] rest] eqn:E; [discriminate|].
    intros [= <-]. exists i, j, c. rewrite E. repeat split; try lia. now left.
  - destruct (run ic s r i []) as [|[j c] rest] eqn:E.
    + intros H. destruct (IH _ _ H) as (i' & j & c & -> & Hi & Hin).
      exists i', j, c. repeat split; try lia. assumption.
    + intros [= <-]. exists i, j, c. rewrite E. repeat split; try lia.
      now left.
Qed.

Lemma search_None (r : regex) (fuel : nat) :
  forall i, search ic s r fuel i = None ->
    forall i', i <= i' <= i + fuel -> run ic s r i' [] = [].
Proof.
  induction fuel as [|f IH]; intros i; simpl.
  - destruct (run ic s r i []) as [|[j c] rest] eqn:E; [|discriminate].
    intros _ i' Hi'. replace i' with i by lia. assumption.
  - destruct (run ic s r i []) as [|[j c] rest] eqn:E; [|discriminate].
    intros H i' Hi'. destruct (Nat.eq_dec i' i) as [->|Hne]; [assumption|].
    apply (IH _ H). lia.
Qed.
End RunMeaning.

(** [re.test(s)] holds exactly when [re] matches somewhere in [s]. *)
Lemma test_Matches (re : regexp) (text : string) :
  test re text = true
  <-> exists i j, i <= length (chars text)
                  /\ Matches (re_ignoreCase re) (chars text) (re_source re) i j.
Proof.
  unfold test, exec.
  replace (if re_global re then 0 else 0) with 0 by now destruct (re_global re).
  unfold exec_from. simpl. rewrite Nat.sub_0_r.
  destruct (search _ _ _ _ 0) as [[[i j] c]|] eqn:E; simpl.
  - split; [intros _|reflexivity].
    destruct (search_Some _ _ _ _ _ _ E) as (i' & j' & c' & [= <- <- <-] & Hi & Hin).
    exists i, j. split; [lia|].
    assert (i <= length (chars text)) as Hi' by lia.
    apply (run_Matches (re_ignoreCase re) (chars text) (re_source re) i []
             Hi') in Hin. apply Hin.
  - split; [discriminate|]. intros (i & j & Hi & M).
    assert (0 <= i <= 0 + length (chars text)) as Hi' by lia.
    pose proof (search_None _ _ _ _ _ E i Hi') as Hnil.
    destruct (run_Matches (re_ignoreCase re) (chars text) (re_source re) i []
                Hi) as [_ C].
    destruct (C _ M) as [c' Hin]. rewrite Hnil in Hin. destruct Hin.
Qed.

(** ** Strings as lists of characters *)

Lemma chars_str (l : list ascii) : chars (str l) = l.
Proof. apply list_ascii_of_string_of_list_ascii. Qed.

Lemma str_chars (x : string) : str (chars x) = x.
Proof. apply string_of_list_ascii_of_string. Qed.

Lemma chars_app (a b : string) : chars (a +:+ b) = chars a ++ chars b.
Proof. induction a as [|c a IH]; simpl; [reflexivity|]. now rewrite IH. Qed.

Lemma chars_inj (a b : string) : chars a = chars b -> a = b.
Proof. intros H. rewrite <- (str_chars a), <- (str_chars b). now rewrite H. Qed.

Lemma strlen_chars (x : string) : strlen x = length (chars x).
Proof. induction x as [|c x IH]; simpl; [reflexivity|]. now rewrite <- IH. Qed.

(** ** What literals and classes match *)

Section Shapes.
Variable s : list ascii.

Lemma drop_lookup_cons (i : nat) (x : ascii) (rest : list ascii) :
  drop i s = x :: rest <-> s !! i = Some x /\ drop (S i) s = rest.
Proof.
  split.
  - intros H. split.
    + rewrite <- (Nat.add_0_r i), <- lookup_drop, H. reflexivity.
    + replace (S i) with (i + 1) by lia. rewrite <- drop_drop, H. reflexivity.
  - intros [Hx <-]. now apply drop_S.
Qed.

Lemma drop_app_next (i : nat) (a rest : list ascii) :
  drop i s = a ++ rest -> drop (i + length a) s = rest.
Proof.
  intros H. rewrite <- drop_drop, H. apply drop_app_length.
Qed.

(** A literal matches where its characters stand. *)
Lemma Matches_lit (l : list ascii) :
  forall i j,
    Matches false s (lit_chars l) i j
    <-> j = i + length l /\ exists rest, drop i s = l ++ rest.
Proof.
  induction l as [|c [|c2 r] IH]; intros i j.
  - simpl. split.
    + intros ->. split; [lia|]. now exists (drop i s).
    + intros [-> _]. lia.
  - simpl. split.
    + intros (x & Hx & Hok & ->). apply Ascii.eqb_eq in Hok. subst x.
      split; [lia|]. exists (drop (S i) s). now apply drop_lookup_cons.
    + intros [-> (rest & H)]. apply drop_lookup_cons in H. destruct H as [Hx _].
      exists c. repeat split; [assumption|apply Ascii.eqb_refl|lia].
  - change (lit_chars (c :: c2 :: r)) with (Seq (Chr c) (lit_chars (c2 :: r))).
    cbn [Matches]. split.
    + intros (k & (x & Hx & Hok & ->) & M). apply Ascii.eqb_eq in Hok. subst x.
      apply IH in M. destruct M as [-> (rest & Hr)].
      split; [simpl; lia|]. exists rest.
      apply drop_lookup_cons. split; assumption.
    + intros [-> (rest & H)].
      change ((c :: c2 :: r) ++ rest) with (c :: (c2 :: r) ++ rest) in H.
      apply drop_lookup_cons in H. destruct H as [Hx Hd].
      exists (S i). split.
      * exists c. repeat split; [assumption|apply Ascii.eqb_refl].
      * apply IH. split; [simpl; lia|]. now exists rest.
Qed.

(** A run of one or more characters of a class. *)
Lemma iter_class (neg : bool) (items : list citem) (i j : nat) :
  iter (Matches false s (CSet neg items)) i j
  <-> exists run rest,
        drop i s = run ++ rest /\ j = i + length run
        /\ Forall (fun x => set_ok false neg items x = true) run.
Proof.
  split.
  - induction 1 as [i|i k j (x & Hx & Hok & ->) _ _ (run & rest & Hd & -> & Hall)].
    + exists [], (drop i s). repeat split; [simpl; lia|constructor].
    + exists (x :: run), rest. repeat split.
      * apply drop_lookup_cons. split; assumption.
      * simpl. lia.
      * now constructor.
  - intros (run & rest & Hd & -> & Hall). revert i Hd.
    induction Hall as [|x run Hok _ IH]; intros i Hd.
    + rewrite Nat.add_0_r. constructor.
    + change ((x :: run) ++ rest) with (x :: run ++ rest) in Hd.
      apply drop_lookup_cons in Hd. destruct Hd as [Hx Hd].
      apply iter_step with (k := S i).
      * exists x. auto.
      * lia.
      * replace (i + length (x :: run)) with (S i + length run)
          by (simpl; lia).
        now apply IH.
Qed.

Lemma Matches_plus_class (neg : bool) (items : list citem) (i j : nat) :
  Matches false s (plus (CSet neg items)) i j
  <-> exists run rest,
        drop i s = run ++ rest /\ j = i + length run /\ run <> []
        /\ Forall (fun x => set_ok false neg items x = true) run.
Proof.
  unfold plus. cbn [Matches]. split.
  - intros (k & (x & Hx & Hok & ->) & Hit). apply iter_class in Hit.
    destruct Hit as (run & rest & Hd & -> & Hall).
    exists (x :: run), rest. repeat split.
    + apply drop_lookup_cons. split; assumption.
    + simpl. lia.
    + discriminate.
    + now constructor.
  - intros (run & rest & Hd & -> & Hne & Hall).
    destruct run as [|x run]; [contradiction|].
    change ((x :: run) ++ rest) with (x :: run ++ rest) in Hd.
    apply drop_lookup_cons in Hd. destruct Hd as [Hx Hd].
    inversion Hall as [|? ? Hok Hall']; subst.
    exists (S i). split; [exists x; auto|].
    apply iter_class. exists run, rest. repeat split; [assumption|simpl; lia|assumption].
Qed.

Lemma Matches_boundary (i j : nat) :
  Matches false s (Alt Bol (Chr "/")) i j
  <-> j <= length s /\ boundary (take j s)
      /\ (i = 0 /\ j = 0 \/ j = S i).
Proof.
  cbn [Matches]. split.
  - intros [[-> ->]|(x & Hx & Hok & ->)].
    + split; [lia|]. split; [now left|auto].
    + apply Ascii.eqb_eq in Hok. subst x.
      split; [apply lookup_lt_Some in Hx; lia|].
      split; [|auto]. right. exists (take i s). now apply take_S_r.
  - intros (Hj & Hb & [[-> ->] | ->]); [now left|].
    right. exists "/"%char. split; [|split; reflexivity].
    destruct Hb as [Hb|(pre' & Hb)].
    + apply (f_equal length) in Hb. rewrite length_take in Hb.
      change (length []) with 0 in Hb. lia.
    + assert (take (S i) s !! i = Some "/"%char) as H.
      { rewrite Hb. apply (f_equal length) in Hb.
        rewrite length_take, length_app in Hb.
        change (length [slash]) with 1 in Hb.
        replace i with (length pre' + 0) by lia.
        rewrite lookup_app_r by lia.
        replace (length pre' + 0 - length pre') with 0 by lia. reflexivity. }
      rewrite lookup_take_lt in H by lia. exact H.
Qed.
End Shapes.

(** ** The regular expressions of the classifier *)

Section ClassifierShapes.
Variable s : list ascii.

Lemma nonslash_ok (x : ascii) :
  set_ok false true [One "/"] x = true <-> x <> slash.
Proof.
  change (set_ok false true [One "/"] x)
    with (negb (Ascii.eqb "/" x || false)).
  rewrite orb_false_r, negb_true_iff, Ascii.eqb_neq. unfold slash.
  split; intros H E; apply H; congruence.
Qed.

Lemma Forall_nonslash (l : list ascii) :
  Forall (fun x => set_ok false true [One "/"] x = true) l
  <-> Forall (fun x => x <> slash) l.
Proof. apply Forall_iff. intros x. apply nonslash_ok. Qed.

Lemma Matches_Chr (c : ascii) (k j : nat) :
  Matches false s (Chr c) k j
  <-> j = S k /\ exists rest, drop k s = c :: rest.
Proof.
  cbn [Matches]. split.
  - intros (x & Hx & Hok & ->). apply Ascii.eqb_eq in Hok. subst x.
    split; [reflexivity|]. exists (drop (S k) s). now apply drop_lookup_cons.
  - intros [-> (rest & H)]. apply drop_lookup_cons in H. destruct H as [Hx _].
    exists c. repeat split; [assumption|apply Ascii.eqb_refl].
Qed.

Lemma drop_nonempty_lt (k : nat) (x : ascii) (rest : list ascii) :
  drop k s = x :: rest -> k < length s.
Proof.
  intros H. apply (f_equal length) in H. rewrite length_drop in H.
  simpl in H. lia.
Qed.

(** [(?:^|\/)l R]: the literal [l] stands at the start of the subject
    or after a slash, and [R] matches after it. *)
Lemma Matches_boundary_lit (l : list ascii) (R : regex) (j : nat) :
  (exists i, Matches false s (Seq (Alt Bol (Chr "/")) (Seq (lit_chars l) R)) i j)
  <-> exists pre rest,
        s = pre ++ l ++ rest /\ boundary pre
        /\ Matches false s R (length pre + length l) j.
Proof.
  split.
  - intros (i & i1 & Mb & i2 & Ml & MR).
    apply Matches_boundary in Mb. destruct Mb as (Hi1 & Hb & _).
    apply Matches_lit in Ml. destruct Ml as [-> (rest & Hd)].
    exists (take i1 s), rest. split; [|split; [assumption|]].
    + rewrite <- Hd. symmetry. apply take_drop.
    + rewrite length_take. now replace (i1 `min` length s) with i1 by lia.
  - intros (pre & rest & Hs & Hb & MR).
    assert (take (length pre) s = pre) as Ht
      by (rewrite Hs; apply take_app_length).
    assert (drop (length pre) s = l ++ rest) as Hd
      by (rewrite Hs; apply drop_app_length).
    assert (length pre <= length s) as Hle
      by (rewrite Hs, length_app; lia).
    exists (match pre with [] => 0 | _ :: _ => length pre - 1 end),
           (length pre).
    split.
    + apply Matches_boundary. rewrite Ht.
      split; [assumption|]. split; [assumption|].
      destruct pre as [|c pre]; [now left|right]. simpl. lia.
    + exists (length pre + length l). split; [|assumption].
      apply Matches_lit. split; [reflexivity|]. now exists rest.
Qed.

(** [\/[^/]+e$] *)
Lemma Matches_child_tail (e : list ascii) (k j : nat) :
  Matches false s
    (Seq (Chr "/") (Seq (plus (nset [One "/"])) (Seq (lit_chars e) Eol))) k j
  <-> j = length s
      /\ exists stem, drop k s = slash :: stem ++ e /\ stem <> []
                      /\ Forall (fun x => x <> slash) stem.
Proof.
  split.
  - intros (k1 & Mc & k2 & Mp & k3 & Ml & He & ->).
    apply Matches_Chr in Mc. destruct Mc as [-> (r0 & H0)].
    apply Matches_plus_class in Mp.
    destruct Mp as (stem & r1 & H1 & -> & Hne & Hall).
    apply Matches_lit in Ml. destruct Ml as [-> (r2 & H2)].
    split; [assumption|]. exists stem.
    split; [|split; [assumption|now apply Forall_nonslash]].
    pose proof (drop_app_next s _ _ _ H1) as H1'.
    pose proof (drop_app_next s _ _ _ H2) as H2'.
    rewrite He, drop_all in H2'. subst r2. rewrite app_nil_r in H2.
    rewrite H1' in H2. subst r1.
    apply drop_lookup_cons in H0. destruct H0 as [Hx _].
    apply drop_lookup_cons. split; assumption.
  - intros [-> (stem & Hd & Hne & Hall)].
    pose proof (drop_nonempty_lt _ _ _ Hd) as Hlt.
    pose proof Hd as Hlen. apply (f_equal length) in Hlen.
    rewrite length_drop in Hlen. simpl in Hlen. rewrite length_app in Hlen.
    apply drop_lookup_cons in Hd. destruct Hd as [Hx Hd].
    exists (S k). split.
    { apply Matches_Chr. split; [reflexivity|].
      exists (stem ++ e). apply drop_lookup_cons. split; assumption. }
    exists (S k + length stem). split.
    { apply Matches_plus_class. exists stem, e.
      repeat split; [assumption|assumption|now apply Forall_nonslash]. }
    exists (S k + length stem + length e). split.
    { apply Matches_lit. split; [reflexivity|]. exists [].
      rewrite app_nil_r. now apply drop_app_next in Hd. }
    cbn [Matches]. split; lia.
Qed.
End ClassifierShapes.

(** [(?:^|\/)dir\/[^/]+ext$] holds of the paths [pre dir / stem ext], with
    [pre] empty or ending in a slash, and [stem] not empty and free of
    slashes. *)
Lemma direct_child_re_spec (dir ext text : string) :
  test (direct_child_re dir ext) text = true
  <-> exists pre stem,
        chars text = pre ++ chars dir ++ slash :: stem ++ chars ext
        /\ boundary pre /\ stem <> [] /\ Forall (fun x => x <> slash) stem.
Proof.
  rewrite test_Matches.
  change (re_ignoreCase (direct_child_re dir ext)) with false.
  change (re_source (direct_child_re dir ext))
    with (Seq (Alt Bol (Chr "/"))
            (Seq (lit_chars (chars dir))
               (Seq (Chr "/")
                  (Seq (plus (nset [One "/"]))
                     (Seq (lit_chars (chars ext)) Eol))))).
  split.
  - intros (i & j & _ & M).
    destruct (proj1 (Matches_boundary_lit (chars text) (chars dir)
                       (Seq (Chr "/")
                          (Seq (plus (nset [One "/"]))
                             (Seq (lit_chars (chars ext)) Eol))) j)
                (ex_intro _ i M))
      as (pre & rest & Hs & Hb & Mt).
    apply Matches_child_tail in Mt. destruct Mt as [_ (stem & Hd & Hne & Hall)].
    exists pre, stem. split; [|auto].
    rewrite Hs in Hd at 1.
    rewrite app_assoc, <- length_app, drop_app_length in Hd.
    now rewrite <- Hd.
  - intros (pre & stem & Hs & Hb & Hne & Hall).
    destruct (proj2 (Matches_boundary_lit (chars text) (chars dir)
                       (Seq (Chr "/")
                          (Seq (plus (nset [One "/"]))
                             (Seq (lit_chars (chars ext)) Eol)))
                       (length (chars text)))) as (i & M).
    + exists pre, (slash :: stem ++ chars ext). split; [assumption|].
      split; [assumption|]. apply Matches_child_tail.
      split; [reflexivity|]. exists stem. split; [|auto].
      rewrite Hs at 1.
      now rewrite app_assoc, <- length_app, drop_app_length.
    + exists i, (length (chars text)). split; [|assumption].
      clear - M. destruct M as (i1 & Mb & _).
      apply Matches_boundary in Mb. destruct Mb as (H1 & _ & [[-> _]| ->]); lia.
Qed.

(** [(?:^|\/)skills\/] *)
Lemma under_skills_re_spec (text : string) :
  test under_skills_re text = true
  <-> exists pre rest,
        chars text = pre ++ chars "skills" ++ slash :: rest /\ boundary pre.
Proof.
  rewrite test_Matches.
  change (re_ignoreCase under_skills_re) with false.
  change (re_source under_skills_re)
    with (Seq (Alt Bol (Chr "/")) (Seq (lit_chars (chars "skills")) (Chr "/"))).
  split.
  - intros (i & j & _ & M).
    destruct (proj1 (Matches_boundary_lit (chars text) (chars "skills")
                       (Chr "/") j) (ex_intro _ i M))
      as (pre & rest & Hs & Hb & Mt).
    apply Matches_Chr in Mt. destruct Mt as [_ (rest' & Hd)].
    exists pre, rest'. split; [|assumption].
    rewrite Hs in Hd at 1.
    rewrite app_assoc, <- length_app, drop_app_length in Hd.
    rewrite Hd in Hs. exact Hs.
  - intros (pre & rest & Hs & Hb).
    destruct (proj2 (Matches_boundary_lit (chars text) (chars "skills")
                       (Chr "/") (S (length pre + length (chars "skills")))))
      as (i & M).
    + exists pre, (slash :: rest). split; [assumption|].
      split; [assumption|]. apply Matches_Chr. split; [reflexivity|].
      exists rest. rewrite Hs at 1.
      now rewrite app_assoc, <- length_app, drop_app_length.
    + exists i, (S (length pre + length (chars "skills"))). split; [|assumption].
      clear - M. destruct M as (i1 & Mb & _).
      apply Matches_boundary in Mb. destruct Mb as (H1 & _ & [[-> _]| ->]); lia.
Qed.

(** [(?:^|\/)hooks\/hooks\.json$] *)
Lemma hooks_json_re_spec (text : string) :
  test hooks_json_re text = true
  <-> exists pre, chars text = pre ++ chars "hooks/hooks.json" /\ boundary pre.
Proof.
  rewrite test_Matches.
  change (re_ignoreCase hooks_json_re) with false.
  change (re_source hooks_json_re)
    with (Seq (Alt Bol (Chr "/")) (Seq (lit_chars (chars "hooks/hooks.json")) Eol)).
  split.
  - intros (i & j & _ & M).
    destruct (proj1 (Matches_boundary_lit (chars text)
                       (chars "hooks/hooks.json") Eol j) (ex_intro _ i M))
      as (pre & rest & Hs & Hb & [He _]).
    exists pre. split; [|assumption].
    apply (f_equal length) in Hs as Hl. rewrite !length_app in Hl.
    assert (length rest = 0) as H0 by lia.
    destruct rest; [|discriminate]. now rewrite app_nil_r in Hs.
  - intros (pre & Hs & Hb).
    destruct (proj2 (Matches_boundary_lit (chars text)
                       (chars "hooks/hooks.json") Eol (length (chars text))))
      as (i & M).
    + exists pre, []. rewrite app_nil_r. split; [assumption|].
      split; [assumption|]. cbn [Matches].
      apply (f_equal length) in Hs. rewrite length_app in Hs.
      split; lia.
    + exists i, (length (chars text)). split; [|assumption].
      clear - M. destruct M as (i1 & Mb & _).
      apply Matches_boundary in Mb. destruct Mb as (H1 & _ & [[-> _]| ->]); lia.
Qed.

(** ** Segments *)

Section Segments.
Variable sep : ascii.

Lemma split_chars_nonempty (l : list ascii) : split_chars sep l <> [].
Proof.
  destruct l as [|c r]; simpl; [discriminate|].
  destruct (Ascii.eqb c sep); [discriminate|].
  destruct (split_chars sep r); discriminate.
Qed.

Lemma split_chars_app_sep (a b : list ascii) :
  split_chars sep (a ++ sep :: b) = split_chars sep a ++ split_chars sep b.
Proof.
  induction a as [|c a IH]; simpl.
  - now rewrite Ascii.eqb_refl.
  - destruct (Ascii.eqb c sep); [now rewrite IH|].
    rewrite IH. pose proof (split_chars_nonempty a) as Hne.
    destruct (split_chars sep a); [contradiction|reflexivity].
Qed.

Lemma split_chars_nosep (a : list ascii) :
  Forall (fun x => x <> sep) a -> split_chars sep a = [a].
Proof.
  induction 1 as [|c a Hc _ IH]; simpl; [reflexivity|].
  apply Ascii.eqb_neq in Hc. now rewrite Hc, IH.
Qed.

(** The first segment and what follows its separator. *)
Lemma split_chars_cons (l x y : list ascii) (ys : list (list ascii)) :
  split_chars sep l = x :: y :: ys ->
  exists l', l = x ++ sep :: l' /\ split_chars sep l' = y :: ys.
Proof.
  revert x. induction l as [|c l IH]; intros x; simpl; [discriminate|].
  destruct (Ascii.eqb_spec c sep) as [->|Hne].
  - intros [= <- H]. exists l. split; [reflexivity|assumption].
  - destruct (split_chars sep l) as [|w ws] eqn:E; [discriminate|].
    intros [= Hx Hws]. subst x ws. destruct (IH w eq_refl) as (l' & -> & H).
    exists l'. split; [reflexivity|assumption].
Qed.

Lemma split_chars_single (l x : list ascii) :
  split_chars sep l = [x] -> l = x.
Proof.
  revert x. induction l as [|c l IH]; intros x; simpl.
  - now intros [= <-].
  - destruct (Ascii.eqb c sep).
    + intros [= _ H]. now destruct (split_chars_nonempty l).
    + destruct (split_chars sep l) as [|w ws] eqn:E;
        [now destruct (split_chars_nonempty l)|].
      intros [= Hx Hws]. subst x ws. now rewrite (IH w eq_refl).
Qed.

Lemma split_chars_single_nosep (l x : list ascii) :
  split_chars sep l = [x] -> Forall (fun c => c <> sep) l.
Proof.
  revert x. induction l as [|c l IH]; intros x; simpl; [constructor|].
  destruct (Ascii.eqb_spec c sep) as [->|Hne].
  - intros [= _ H]. now destruct (split_chars_nonempty l).
  - destruct (split_chars sep l) as [|w ws] eqn:E;
      [now destruct (split_chars_nonempty l)|].
    intros [= _ ->]. constructor; [assumption|]. now apply (IH w).
Qed.

Lemma split_chars_after_sep (pre x : list ascii) :
  after_sep sep pre ->
  exists init, split_chars sep (pre ++ x) = init ++ split_chars sep x.
Proof.
  intros [->|(pre' & ->)].
  - now exists [].
  - exists (split_chars sep pre'). rewrite <- app_assoc.
    apply split_chars_app_sep.
Qed.

(** A segment that is not the last one is followed by a separator. *)
Lemma split_chars_middle (xs : list (list ascii)) :
  forall (l y z : list ascii) (zs : list (list ascii)),
    split_chars sep l = xs ++ y :: z :: zs ->
    exists pre tail,
      l = pre ++ y ++ sep :: tail /\ after_sep sep pre
      /\ split_chars sep tail = z :: zs.
Proof.
  induction xs as [|x xs IH]; intros l y z zs H.
  - apply split_chars_cons in H. destruct H as (l' & -> & H).
    exists [], l'. split; [reflexivity|]. split; [now left|assumption].
  - simpl in H. destruct (xs ++ y :: z :: zs) as [|w ws] eqn:E.
    { now destruct xs. }
    apply split_chars_cons in H. destruct H as (l' & -> & H).
    rewrite <- E in H.
    destruct (IH _ _ _ _ H) as (pre & tail & -> & Hb & Ht).
    exists (x ++ sep :: pre), tail. split; [now rewrite <- app_assoc|].
    split; [|assumption]. right.
    destruct Hb as [->|(pre' & ->)].
    + now exists x.
    + exists (x ++ sep :: pre'). now rewrite <- app_assoc.
Qed.

(** The subject ends with its last segment. *)
Lemma split_chars_last (xs : list (list ascii)) :
  forall (l y : list ascii),
    split_chars sep l = xs ++ [y] -> exists pre, l = pre ++ y.
Proof.
  induction xs as [|x xs IH]; intros l y H.
  - apply split_chars_single in H. now exists [].
  - simpl in H. destruct (xs ++ [y]) as [|w ws] eqn:E; [now destruct xs|].
    apply split_chars_cons in H. destruct H as (l' & -> & H).
    rewrite <- E in H. destruct (IH _ _ H) as (pre & ->).
    exists (x ++ sep :: pre). now rewrite <- app_assoc.
Qed.
End Segments.

(** [s.endsWith(e)] holds of the strings [x e]. *)
Lemma substring_all (x : string) : String.substring 0 (strlen x) x = x.
Proof. induction x as [|c x IH]; simpl; [reflexivity|]. now rewrite IH. Qed.

Lemma substring_append (x e : string) :
  String.substring (strlen x) (strlen e) (x +:+ e) = e.
Proof. induction x as [|c x IH]; simpl; [apply substring_all|exact IH]. Qed.

Lemma strlen_append (x e : string) : strlen (x +:+ e) = strlen x + strlen e.
Proof. induction x as [|c x IH]; simpl; [reflexivity|]. now rewrite IH. Qed.

Lemma endsWith_append (x e : string) : endsWith (x +:+ e) e = true.
Proof.
  unfold endsWith. rewrite strlen_append.
  replace (strlen x + strlen e - strlen e) with (strlen x) by lia.
  rewrite substring_append, String.eqb_refl.
  replace (strlen e <=? strlen x + strlen e)%nat with true
    by (symmetry; apply Nat.leb_le; lia).
  reflexivity.
Qed.

(** ** The classifier, by path segments *)

Lemma path_segments_chars (p : string) :
  map chars (path_segments p) = split_chars "/" (chars (normalize p)).
Proof.
  unfold path_segments, split. rewrite map_map.
  rewrite (map_ext _ id); [apply map_id|]. intros l. apply chars_str.
Qed.

Lemma path_segments_str (p : string) :
  path_segments p = map str (split_chars "/" (chars (normalize p))).
Proof. reflexivity. Qed.

Lemma str_app (a b : list ascii) : str (a ++ b) = str a +:+ str b.
Proof. apply chars_inj. now rewrite chars_app, !chars_str. Qed.

Lemma append_assoc3 (a b c : string) : a +:+ (b +:+ c) = (a +:+ b) +:+ c.
Proof. apply chars_inj. now rewrite !chars_app, app_assoc. Qed.

Lemma last_two_inj {A : Type} (xs ys : list A) (a b c d : A) :
  xs ++ [a; b] = ys ++ [c; d] -> a = c /\ b = d.
Proof.
  intros H.
  change (xs ++ [a; b]) with (xs ++ [a] ++ [b]) in H.
  change (ys ++ [c; d]) with (ys ++ [c] ++ [d]) in H.
  rewrite !app_assoc in H. apply app_inj_tail in H. destruct H as [H ->].
  apply app_inj_tail in H. destruct H as [_ ->]. auto.
Qed.

Lemma app_two {A : Type} (xs : list A) (a b : A) :
  xs ++ [a; b] = (xs ++ [a]) ++ [b].
Proof. now rewrite <- app_assoc. Qed.

Lemma app_cons_snoc {A : Type} (xs mid : list A) (a l : A) :
  xs ++ a :: mid ++ [l] = (xs ++ a :: mid) ++ [l].
Proof. now rewrite <- app_assoc. Qed.

Lemma last_inj {A : Type} (xs ys : list A) (a b : A) :
  xs ++ [a] = ys ++ [b] -> a = b.
Proof. intros H. now apply app_inj_tail in H. Qed.

Lemma ext_clash (stem stem' e e' : string) :
  strlen e = strlen e' -> e <> e' -> stem +:+ e <> stem' +:+ e'.
Proof.
  intros Hl Hne H. apply (f_equal chars) in H. rewrite !chars_app in H.
  apply app_inj_2 in H; [|now rewrite <- !strlen_chars].
  destruct H as [_ H]. apply chars_inj in H. contradiction.
Qed.

(** [(?:^|\/)dir\/[^/]+ext$] on the normalized path: the segments end
    with those of [dir] and a file [stem ext]. *)
Lemma direct_child_segments (dir ext p : string) :
  Forall (fun x => x <> slash) (chars ext) ->
  test (direct_child_re dir ext) (normalize p) = true ->
  exists init file,
    path_segments p = init ++ split "/" dir ++ [file] /\ named_file ext file.
Proof.
  intros Hext H. apply direct_child_re_spec in H.
  destruct H as (pre & stem & Hs & Hb & Hne & Hall).
  destruct (split_chars_after_sep slash pre
              (chars dir ++ slash :: stem ++ chars ext) Hb) as (init & Hi).
  rewrite <- Hs in Hi. rewrite split_chars_app_sep in Hi.
  rewrite (split_chars_nosep slash (stem ++ chars ext)) in Hi
    by (apply Forall_app; split; assumption).
  exists (map str init), (str stem +:+ ext). split.
  - rewrite path_segments_str. unfold slash in Hi. rewrite Hi.
    rewrite !map_app. simpl. rewrite str_app, str_chars. reflexivity.
  - exists (str stem). split; [|reflexivity].
    intros E. apply (f_equal chars) in E. rewrite chars_str in E.
    now destruct stem.
Qed.

(** The converse: a path whose segments end with [dir] and a file
    [stem ext], with a stem that is not empty, passes the test. *)
Lemma direct_child_intro (dir ext p : string) (init : list string)
    (file : string) :
  path_segments p = init ++ [dir; file] -> named_file ext file ->
  test (direct_child_re dir ext) (normalize p) = true.
Proof.
  intros Hp (stem & Hne & ->).
  pose proof (path_segments_chars p) as Hc. rewrite Hp in Hc.
  rewrite map_app in Hc. cbn [map] in Hc. symmetry in Hc.
  apply split_chars_middle in Hc.
  destruct Hc as (pre & tail & Hs & Hb & Ht).
  pose proof (split_chars_single_nosep _ _ _ Ht) as Hfree.
  apply split_chars_single in Ht. subst tail.
  rewrite chars_app in Hs, Hfree. apply Forall_app in Hfree.
  apply direct_child_re_spec. exists pre, (chars stem).
  split; [exact Hs|]. split; [exact Hb|]. split; [|apply Hfree].
  intros E. apply Hne. apply chars_inj. now rewrite E.
Qed.

(** [(?:^|\/)skills\/] on the normalized path: some segment other than
    the last one is [skills]. *)
Lemma under_skills_segments (p : string) :
  test under_skills_re (normalize p) = true
  <-> exists init rest,
        path_segments p = init ++ "skills" :: rest /\ rest <> [].
Proof.
  rewrite under_skills_re_spec. split.
  - intros (pre & tail & Hs & Hb).
    destruct (split_chars_after_sep slash pre
                (chars "skills" ++ slash :: tail) Hb) as (init & Hi).
    rewrite <- Hs in Hi. rewrite split_chars_app_sep in Hi.
    exists (map str init), (map str (split_chars slash tail)). split.
    + rewrite path_segments_str. unfold slash in Hi. rewrite Hi.
      rewrite !map_app. reflexivity.
    + intros E. apply map_eq_nil in E. now apply split_chars_nonempty in E.
  - intros (init & rest & Hp & Hne).
    destruct rest as [|z zs]; [contradiction|].
    pose proof (path_segments_chars p) as Hc. rewrite Hp in Hc.
    rewrite map_app in Hc. simpl in Hc. symmetry in Hc.
    apply split_chars_middle in Hc.
    destruct Hc as (pre & tail & Hs & Hb & _).
    exists pre, tail. split; assumption.
Qed.

(** [(?:^|\/)hooks\/hooks\.json$] on the normalized path *)
Lemma hooks_json_segments (p : string) :
  test hooks_json_re (normalize p) = true ->
  exists init, path_segments p = init ++ ["hooks"; "hooks.json"].
Proof.
  intros H. apply hooks_json_re_spec in H. destruct H as (pre & Hs & Hb).
  destruct (split_chars_after_sep slash pre (chars "hooks/hooks.json") Hb)
    as (init & Hi).
  rewrite <- Hs in Hi. exists (map str init).
  rewrite path_segments_str. unfold slash in Hi. rewrite Hi.
  rewrite map_app. reflexivity.
Qed.

Lemma md_nonslash : Forall (fun x => x <> slash) (chars ".md").
Proof. repeat constructor; discriminate. Qed.

Lemma js_nonslash : Forall (fun x => x <> slash) (chars ".js").
Proof. repeat constructor; discriminate. Qed.

(** The test that decides each of the categories agent, command, rule. *)
Lemma detect_direct_child (p dir : string) (t : ContentType) :
  In (dir, t) [("agents", agent); ("commands", command); ("rules", rule)] ->
  detectContentType p = t ->
  test (direct_child_re dir ".md") (normalize p) = true.
Proof.
  unfold detectContentType.
  destruct (test (direct_child_re "agents" ".md") (normalize p)) eqn:Ea.
  { intros [[= <- <-]|[[= <- <-]|[[= <- <-]|[]]]]; [auto|discriminate..]. }
  destruct (test under_skills_re (normalize p) && endsWith (normalize p) ".md").
  { intros [[= <- <-]|[[= <- <-]|[[= <- <-]|[]]]]; discriminate. }
  destruct (test (direct_child_re "commands" ".md") (normalize p)) eqn:Ec.
  { intros [[= <- <-]|[[= <- <-]|[[= <- <-]|[]]]]; [discriminate|auto|discriminate]. }
  destruct (test (direct_child_re "rules" ".md") (normalize p)) eqn:Er.
  { intros [[= <- <-]|[[= <- <-]|[[= <- <-]|[]]]]; [discriminate..|auto]. }
  destruct (test hooks_json_re (normalize p)).
  { intros [[= <- <-]|[[= <- <-]|[[= <- <-]|[]]]]; discriminate. }
  destruct (test hook_script_re (normalize p));
    intros [[= <- <-]|[[= <- <-]|[[= <- <-]|[]]]]; discriminate.
Qed.

(** C10, amended. [detectContentType] gives agent, command or rule only
    to a file [stem.md], with a stem that is not empty, that is a direct
    child of a directory named agents, commands or rules.  A [.md] file
    whose parent directory has none of these names, and that has no
    directory named skills above it, is unknown: so is [agents/sub/x.md].
    A [.md] file below a directory named skills, at any depth, is an
    agent when it is a file [stem.md], with a stem that is not empty,
    that is a direct child of a directory named agents, and a skill
    otherwise. *)
Theorem detectContentType_nesting :
  forall p : string,
    (forall dir t,
       In (dir, t) [("agents", agent); ("commands", command); ("rules", rule)] ->
       detectContentType p = t ->
       exists init file,
         path_segments p = init ++ [dir; file] /\ named_file ".md" file)
    /\ (forall init parent file,
          path_segments p = init ++ [parent; file] ->
          has_ext ".md" file ->
          ~ In parent ["agents"; "commands"; "rules"] ->
          ~ In "skills" (init ++ [parent]) ->
          detectContentType p = unknown)
    /\ (forall init rest,
          path_segments p = init ++ "skills" :: rest ->
          rest <> [] ->
          has_ext ".md" (List.last rest "") ->
          ((exists init' file,
              path_segments p = init' ++ ["agents"; file]
              /\ named_file ".md" file) ->
           detectContentType p = agent)
          /\ (~ (exists init' file,
                   path_segments p = init' ++ ["agents"; file]
                   /\ named_file ".md" file) ->
              detectContentType p = skill)).
Proof.
  intros p. split; [|split].
  - intros dir t Hin Hd.
    pose proof (detect_direct_child p dir t Hin Hd) as Ht.
    apply (direct_child_segments dir ".md" p md_nonslash) in Ht.
    destruct Ht as (init & file & Hp & Hf). exists init, file.
    split; [|assumption]. rewrite Hp.
    destruct Hin as [[= <- <-]|[[= <- <-]|[[= <- <-]|[]]]]; reflexivity.
  - intros init parent file Hp (stem & ->) Hparent Hskills.
    assert (forall dir, In dir ["agents"; "commands"; "rules"] ->
              test (direct_child_re dir ".md") (normalize p) = false) as Hdc.
    { intros dir Hdir. destruct (test _ _) eqn:E; [exfalso|reflexivity].
      apply (direct_child_segments dir ".md" p md_nonslash) in E.
      destruct E as (init' & file' & Hp' & _). rewrite Hp in Hp'.
      assert (split "/" dir = [dir]) as Hsplit
        by (destruct Hdir as [<-|[<-|[<-|[]]]]; reflexivity).
      rewrite Hsplit in Hp'. apply last_two_inj in Hp'.
      destruct Hp' as [-> _]. contradiction. }
    unfold detectContentType.
    rewrite (Hdc "agents") by (simpl; auto).
    replace (test under_skills_re (normalize p)) with false.
    2:{ symmetry. destruct (test _ _) eqn:E; [exfalso|reflexivity].
        apply under_skills_segments in E.
        destruct E as (init' & rest & Hp' & Hne). rewrite Hp in Hp'.
        destruct (exists_last Hne) as (mid & lst & ->).
        apply Hskills.
        rewrite app_two, app_cons_snoc in Hp'. apply app_inj_tail in Hp'.
        destruct Hp' as [-> _]. apply in_or_app. right. now left. }
    rewrite andb_false_l.
    rewrite (Hdc "commands") by (simpl; auto).
    rewrite (Hdc "rules") by (simpl; auto).
    replace (test hooks_json_re (normalize p)) with false.
    2:{ symmetry. destruct (test _ _) eqn:E; [exfalso|reflexivity].
        apply hooks_json_segments in E. destruct E as (init' & Hp').
        rewrite Hp in Hp'. apply last_two_inj in Hp'. destruct Hp' as [_ Hf].
        change "hooks.json" with ("hooks.j" +:+ "son") in Hf.
        revert Hf. apply ext_clash; [reflexivity|discriminate]. }
    replace (test hook_script_re (normalize p)) with false; [reflexivity|].
    symmetry. destruct (test _ _) eqn:E; [exfalso|reflexivity].
    apply (direct_child_segments "scripts/hooks" ".js" p js_nonslash) in E.
    destruct E as (init' & file' & Hp' & (stem' & _ & ->)).
    rewrite Hp in Hp'.
    rewrite app_two, !app_assoc in Hp'. apply last_inj in Hp'.
    revert Hp'. apply ext_clash; [reflexivity|discriminate].
  - intros init rest Hp Hne (stem & Hlast).
    unfold detectContentType.
    destruct (test (direct_child_re "agents" ".md") (normalize p)) eqn:Ea.
    + split; [reflexivity|]. intros Hno. exfalso. apply Hno.
      now apply (direct_child_segments "agents" ".md" p md_nonslash) in Ea.
    + split.
      { intros (init' & file & Hp' & Hf).
        rewrite (direct_child_intro "agents" ".md" p init' file Hp' Hf) in Ea.
        discriminate. }
      intros _.
      replace (test under_skills_re (normalize p)) with true
        by (symmetry; apply under_skills_segments; eauto).
      replace (endsWith (normalize p) ".md") with true; [reflexivity|].
      symmetry.
      destruct (exists_last Hne) as (mid & lst & ->).
      rewrite last_last in Hlast. subst lst.
      pose proof (path_segments_chars p) as Hc. rewrite Hp in Hc.
      rewrite app_cons_snoc, map_app in Hc.
      change (map chars [stem +:+ ".md"]) with [chars (stem +:+ ".md")] in Hc.
      symmetry in Hc.
      apply split_chars_last in Hc. destruct Hc as (pre & Hc).
      rewrite <- (str_chars (normalize p)), Hc, str_app, str_chars.
      rewrite append_assoc3. apply endsWith_append.
Qed.

(** [agents/sub/x.md] is unknown; [skills/a/b.md] is a skill, and
    [skills/agents/x.md] is an agent. *)
Lemma detectContentType_nesting_witness :
  detectContentType "agents/sub/x.md" = unknown
  /\ detectContentType "skills/a/b.md" = skill
  /\ detectContentType "skills/agents/x.md" = agent.
Proof.
  split; [|split].
  - apply (proj1 (proj2 (detectContentType_nesting "agents/sub/x.md"))
             ["agents"] "sub" "x.md").
    + reflexivity.
    + now exists "x".
    + simpl. intros [H|[H|[H|[]]]]; discriminate.
    + simpl. intros [H|[H|[]]]; discriminate.
  - apply (proj2 (proj2 (proj2 (detectContentType_nesting "skills/a/b.md"))
                    [] ["a"; "b.md"] eq_refl
                    ltac:(discriminate) ltac:(now exists "b"))).
    intros (init' & file & Hp & _).
    change (path_segments "skills/a/b.md") with ([] ++ ["skills"; "a"; "b.md"])
      in Hp.
    change ([] ++ ["skills"; "a"; "b.md"]) with (["skills"] ++ ["a"; "b.md"])
      in Hp.
    apply last_two_inj in Hp. destruct Hp as [Hp _]. discriminate.
  - apply (proj1 (proj2 (proj2 (detectContentType_nesting
                                  "skills/agents/x.md"))
                    [] ["agents"; "x.md"] eq_refl
                    ltac:(discriminate) ltac:(now exists "x"))).
    exists ["skills"], "x.md". split; [reflexivity|].
    exists "x". split; [discriminate|reflexivity].
Defined.

(** C10, as stated, fails: a [.md] file nested below [agents/] can be a
    skill or a command, and a [.md] file below [skills/] can be an agent. *)
Lemma detectContentType_nesting_counterexample :
  detectContentType "agents/skills/x.md" = skill
  /\ detectContentType "agents/commands/x.md" = command
  /\ detectContentType "skills/agents/x.md" = agent.
Proof. vm_compute. repeat split; reflexivity. Qed.

(* ===================================================================== *)
(** * Further properties of the scanner *)
(* ===================================================================== *)

(** ** Shape of the findings *)

Lemma substring_length_le (s : string) :
  forall n m, strlen (String.substring n m s) <= m.
Proof.
  induction s as [|c s IH]; intros n m.
  - destruct n, m; simpl; lia.
  - destruct n as [|n]; simpl.
    + destruct m as [|m]; simpl; [lia|]. specialize (IH 0 m). lia.
    + apply IH.
Qed.

Lemma truncate_bound (s : string) (maxLen : nat) :
  3 <= maxLen -> strlen (truncate s maxLen) <= maxLen.
Proof.
  intros H. unfold truncate.
  destruct (Nat.leb_spec (strlen s) maxLen) as [Hle|Hgt]; [assumption|].
  rewrite strlen_append. unfold slice.
  pose proof (substring_length_le s 0 (maxLen - 3 - 0)) as Hs.
  change (strlen "...") with 3. lia.
Qed.

Lemma truncate_short (s : string) (maxLen : nat) :
  strlen s <= maxLen -> truncate s maxLen = s.
Proof.
  intros H. unfold truncate. apply Nat.leb_le in H. now rewrite H.
Qed.

Lemma split_length_pos (sep : ascii) (s : string) : 1 <= length (split sep s).
Proof.
  unfold split. rewrite length_map.
  pose proof (split_chars_nonempty sep (chars s)) as H.
  destruct (split_chars sep (chars s)); [contradiction|simpl; lia].
Qed.

Lemma scan_lines_wf (h h' : heap) (p : Pattern) (re : regexp)
    (ls : list string) (i : nat) (f : Finding) :
  scan_lines h p re ls i = (Some f, h') ->
  f_description f = p_description p /\ i + 1 <= f_line f <= i + length ls
  /\ strlen (f_match f) <= 120.
Proof.
  revert h i. induction ls as [|l rest IH]; intros h i; simpl; [discriminate|].
  destruct (match_rule h (p_id p) re l) as [[m|] h1].
  - intros [= <- <-]. simpl. split; [reflexivity|]. split; [lia|].
    apply truncate_bound. lia.
  - intros H. destruct (IH _ _ H) as (Hd & Hl & Hm).
    split; [assumption|]. split; [lia|assumption].
Qed.

(** What a rule pushes: a finding with the rule's description, a line
    number from 1, and an excerpt of at most 120 characters. *)
Lemma apply_pattern_wf (h h' : heap) (p : Pattern) (content : string)
    (lines : list string) (fm : option frontmatter) (config : option Config)
    (f : Finding) :
  apply_pattern h p content lines fm config = (Ok (Some f), h') ->
  f_description f = p_description p /\ 1 <= f_line f
  /\ strlen (f_match f) <= 120.
Proof.
  unfold apply_pattern.
  destruct (p_check p) as [check|].
  - destruct (check content fm config) as [[hit|]|]; simpl;
      intros [= <- <-] || discriminate. simpl.
    split; [reflexivity|]. split.
    + destruct (Nat.eqb_spec (h_line hit) 0); lia.
    + apply truncate_bound. lia.
  - destruct (p_regex p) as [re|]; [|discriminate].
    destruct (p_multiline p).
    + destruct (match_rule h (p_id p) re content) as [[m|] h1];
        intros [= <- <-] || discriminate. simpl.
      split; [reflexivity|]. split; [apply split_length_pos|].
      apply truncate_bound. lia.
    + destruct (scan_lines h p re lines 0) as [[g|] h1] eqn:E;
        intros [= <- <-] || discriminate.
      destruct (scan_lines_wf _ _ _ _ _ _ _ E) as (Hd & Hl & Hm).
      split; [assumption|]. split; [lia|assumption].
Qed.

(** X1. Every finding returned by [scanContent] carries the id, the
    severity and the description of a rule of the table that applies to
    the content type, a line number from 1, and an excerpt of at most 120
    characters. *)
Theorem scanContent_findings_wellformed :
  forall JP JS (h : heap) (content : string) (contentType : ContentType)
         (config : option Config) (fs : list Finding) (f : Finding),
    fst (scanContent JP JS h content contentType config) = Ok fs ->
    In f fs ->
    (exists p, In p (PATTERNS JS)
               /\ In contentType (p_contentTypes p)
               /\ f_id f = p_id p /\ f_severity f = p_severity p
               /\ f_description f = p_description p)
    /\ 1 <= f_line f
    /\ strlen (f_match f) <= 120.
Proof.
  intros JP JS h content contentType config fs f Hscan Hf.
  destruct (scanContent_origin _ _ _ _ _ _ _ _ Hscan Hf)
    as (p & h0 & h1 & Hp & Hct & _ & Hap).
  destruct (apply_pattern_some _ _ _ _ _ _ _ _ Hap) as [Hid Hsev].
  destruct (apply_pattern_wf _ _ _ _ _ _ _ _ Hap) as (Hd & Hl & Hm).
  split; [|split; assumption].
  exists p. apply includes_In in Hct. auto.
Qed.

Lemma scanContent_findings_wellformed_witness :
  (exists p, In p (PATTERNS SampleHost.JSON_stringify)
             /\ In agent (p_contentTypes p)
             /\ f_id Samples.secret_finding = p_id p
             /\ f_severity Samples.secret_finding = p_severity p
             /\ f_description Samples.secret_finding = p_description p)
  /\ 1 <= f_line Samples.secret_finding
  /\ strlen (f_match Samples.secret_finding) <= 120.
Proof.
  apply (scanContent_findings_wellformed
           SampleHost.JSON_parse SampleHost.JSON_stringify ∅
           Samples.secret_line agent None [Samples.secret_finding]).
  - vm_compute. reflexivity.
  - now left.
Defined.

(** ** One finding per rule *)

Lemma sublist_map {A B : Type} (f : A -> B) (l1 l2 : list A) :
  l1 `sublist_of` l2 -> map f l1 `sublist_of` map f l2.
Proof. induction 1; simpl; constructor; assumption. Qed.

Section PerRule.
Variables (content : string) (lines : list string)
          (fm : option frontmatter) (config : option Config)
          (contentType : ContentType) (allowed : json).

(** The findings pushed by the loop are those of some of the rules, in
    the order of the table, one for each. *)
Lemma scan_patterns_sublist (ps : list Pattern) :
  forall (h h' : heap) (acc fs : list Finding),
    scan_patterns h ps content lines fm config contentType allowed acc
      = (Ok fs, h') ->
    exists l, fs = acc ++ l /\ map f_id l `sublist_of` map p_id ps.
Proof.
  induction ps as [|p rest IH]; intros h h' acc fs; simpl.
  - intros [= <- <-]. exists []. split; [now rewrite app_nil_r|constructor].
  - assert (forall h0, scan_patterns h0 rest content lines fm config
                         contentType allowed acc = (Ok fs, h') ->
              exists l, fs = acc ++ l
                        /\ map f_id l `sublist_of` p_id p :: map p_id rest)
      as Skip.
    { intros h0 H. destruct (IH _ _ _ _ H) as (l & -> & Hs).
      exists l. split; [reflexivity|]. now apply sublist_cons. }
    destruct (negb (includes (p_contentTypes p) contentType)); [apply Skip|].
    destruct (includes_id allowed (p_id p)) as [[|]|e0];
      [apply Skip| |discriminate].
    destruct (apply_pattern h p content lines fm config) as [[[g|]|e] h1] eqn:Ep;
      [|apply Skip|discriminate].
    intros H. destruct (IH _ _ _ _ H) as (l & -> & Hs).
    exists (g :: l). split; [now rewrite <- app_assoc|].
    simpl. apply apply_pattern_some in Ep. destruct Ep as [-> _].
    now apply sublist_skip.
Qed.
End PerRule.

Lemma PATTERNS_ids_NoDup JS : NoDup (map p_id (PATTERNS JS)).
Proof.
  change (map p_id (PATTERNS JS))
    with ["CRIT-001"; "CRIT-002"; "CRIT-003"; "CRIT-004"; "CRIT-005";
          "CRIT-005b"; "CRIT-006"; "CRIT-007"; "CRIT-008"; "HIGH-001";
          "HIGH-002"; "HIGH-003"; "HIGH-004"; "HIGH-005"; "HIGH-006";
          "MED-001"; "MED-002"; "MED-003"; "MED-004"].
  refine (@bool_decide_unpack _ (NoDup_dec _) _). vm_compute. exact I.
Qed.

(** X2. A rule contributes at most one finding to a scan: the ids of the
    findings returned by [scanContent] are pairwise distinct. *)
Theorem scanContent_one_finding_per_rule :
  forall JP JS (h : heap) (content : string) (contentType : ContentType)
         (config : option Config) (fs : list Finding),
    fst (scanContent JP JS h content contentType config) = Ok fs ->
    NoDup (map f_id fs).
Proof.
  intros JP JS h content contentType config fs.
  rewrite scanContent_eq. unfold scan_with.
  pose proof (PATTERNS_ids_NoDup JS) as Hnd. revert Hnd.
  generalize (PATTERNS JS). intros ps Hnd.
  destruct (scan_patterns _ _ _ _ _ _ _ _ _) as [[found|e] h'] eqn:E;
    simpl; [|discriminate].
  intros [= <-].
  apply scan_patterns_sublist in E. destruct E as (l & -> & Hs).
  simpl in Hs.
  rewrite (Permutation_map f_id (sort_perm compareFindings l)).
  eapply sublist_NoDup; eassumption.
Qed.

Lemma scanContent_one_finding_per_rule_witness :
  NoDup (map f_id [Samples.force_finding 2; Samples.secret_finding]).
Proof.
  apply (scanContent_one_finding_per_rule
           SampleHost.JSON_parse SampleHost.JSON_stringify ∅
           Samples.secret_and_force agent None).
  vm_compute. reflexivity.
Defined.

(** X3. The findings returned by [scanContent] are those found, reordered:
    all HIGH findings first, then the MEDIUM ones, then the CRITICAL ones
    (the order of the comparison, which ranks CRITICAL as [0 || 3]); among
    findings of one severity the order of the rule table is kept. *)
Theorem scanContent_order :
  forall JP JS (h : heap) (content : string) (contentType : ContentType)
         (config : option Config) (fs : list Finding),
    fst (scanContent JP JS h content contentType config) = Ok fs ->
    Sorted (fun a b => (effective_rank (f_severity a)
                        <= effective_rank (f_severity b))%Z) fs
    /\ forall s, map f_id (with_severity s fs)
                 `sublist_of` map p_id (PATTERNS JS).
Proof.
  intros JP JS h content contentType config fs Hscan.
  split; [eapply scanContent_effective_order; eassumption|].
  revert Hscan. rewrite scanContent_eq. unfold scan_with.
  generalize (PATTERNS JS). intros ps.
  destruct (scan_patterns _ _ _ _ _ _ _ _ _) as [[found|e] h'] eqn:E;
    simpl; [|discriminate].
  intros [= <-] s.
  apply scan_patterns_sublist in E. destruct E as (l & -> & Hs).
  simpl in Hs. etransitivity; [|exact Hs].
  apply sublist_map. clear Hs. unfold with_severity.
  change ([] ++ l) with l.
  induction l as [|x l IH]; [constructor|].
  change (sort compareFindings (x :: l))
    with (insert_sorted compareFindings x (sort compareFindings l)).
  revert IH. generalize (sort compareFindings l). intros sorted IH.
  assert (List.filter (fun f => bool_decide (f_severity f = s))
            (insert_sorted compareFindings x sorted)
          `sublist_of` x :: List.filter
                 (fun f => bool_decide (f_severity f = s)) sorted) as Hins.
  { clear IH. induction sorted as [|y r IHr]; simpl.
    - destruct (bool_decide (f_severity x = s)); [reflexivity|].
      apply sublist_cons. constructor.
    - destruct (compareFindings x y <=? 0)%Z eqn:Ec; simpl.
      + destruct (bool_decide (f_severity x = s)); [reflexivity|].
        now apply sublist_cons.
      + destruct (bool_decide (f_severity y = s)) eqn:Ey; [|exact IHr].
        destruct (bool_decide (f_severity x = s)) eqn:Ex.
        * (* [x] and [y] have the severity [s]: [x] stays before [y] *)
          apply bool_decide_eq_true in Ex, Ey.
          unfold compareFindings in Ec. rewrite Ex, Ey in Ec.
          rewrite Z.sub_diag in Ec. discriminate.
        * clear IHr.
          assert (forall r', List.filter
                    (fun f => bool_decide (f_severity f = s))
                    (insert_sorted compareFindings x r')
                  = List.filter
                      (fun f => bool_decide (f_severity f = s)) r') as Hx.
          { induction r' as [|z r' IHr']; simpl; [now rewrite Ex|].
            destruct (compareFindings x z <=? 0)%Z; simpl;
              [now rewrite Ex|]. now rewrite IHr'. }
          rewrite Hx. apply sublist_cons. reflexivity. }
  etransitivity; [exact Hins|].
  now apply sublist_skip.
Qed.

Lemma scanContent_order_witness :
  Sorted (fun a b => (effective_rank (f_severity a)
                      <= effective_rank (f_severity b))%Z)
         [Samples.force_finding 2; Samples.secret_finding]
  /\ forall s, map f_id (with_severity s
                 [Samples.force_finding 2; Samples.secret_finding])
               `sublist_of` map p_id (PATTERNS SampleHost.JSON_stringify).
Proof.
  apply (scanContent_order SampleHost.JSON_parse SampleHost.JSON_stringify ∅
           Samples.secret_and_force agent None).
  vm_compute. reflexivity.
Defined.

(** ** When a scan throws *)

Section Throws.
Variables (content : string) (lines : list string)
          (fm : option frontmatter) (config : option Config)
          (contentType : ContentType) (allowed : json).

Lemma scan_patterns_throw (ps : list Pattern) :
  forall (h h' : heap) (acc : list Finding) (e : string),
    scan_patterns h ps content lines fm config contentType allowed acc
      = (Throw e, h') ->
    exists p,
      In p ps /\ includes (p_contentTypes p) contentType = true
      /\ (includes_id allowed (p_id p) = Throw e
          \/ exists h0 h1,
               apply_pattern h0 p content lines fm config = (Throw e, h1)).
Proof.
  induction ps as [|p rest IH]; intros h h' acc e; simpl; [discriminate|].
  assert (forall h0 acc0, scan_patterns h0 rest content lines fm config
                            contentType allowed acc0 = (Throw e, h') ->
            exists q,
              In q (p :: rest) /\ includes (p_contentTypes q) contentType = true
              /\ (includes_id allowed (p_id q) = Throw e
                  \/ exists h1 h2,
                       apply_pattern h1 q content lines fm config
                       = (Throw e, h2)))
    as Next.
  { intros h0 acc0 H. destruct (IH _ _ _ _ H) as (q & Hq & R).
    exists q. split; [now right|exact R]. }
  destruct (includes (p_contentTypes p) contentType) eqn:Et; simpl;
    [|apply Next].
  destruct (includes_id allowed (p_id p)) as [[|]|e0] eqn:Ea; [apply Next| |].
  - destruct (apply_pattern h p content lines fm config) as [[[g|]|e'] h1] eqn:Ep;
      [apply Next|apply Next|].
    intros [= <- <-]. exists p. split; [now left|]. split; [assumption|].
    right. now exists h, h1.
  - intros [= <- <-]. exists p. split; [now left|]. split; [assumption|].
    now left.
Qed.

(** A rule throws only through its custom check. *)
Lemma apply_pattern_throw (h h' : heap) (p : Pattern) (e : string) :
  apply_pattern h p content lines fm config = (Throw e, h') ->
  exists check, p_check p = Some check /\ check content fm config = Throw e.
Proof.
  unfold apply_pattern. destruct (p_check p) as [check|].
  - destruct (check content fm config) as [r|e'] eqn:Ec; simpl;
      [discriminate|]. intros [= <- _]. eauto.
  - destruct (p_regex p) as [re|]; [|discriminate].
    destruct (p_multiline p).
    + destruct (match_rule h (p_id p) re content) as [[m|] h1]; discriminate.
    + destruct (scan_lines h p re lines 0) as [g h1]. discriminate.
Qed.
End Throws.

Lemma lower_field_throw (fm : frontmatter) (k e : string) :
  Rules.lower_field fm k = Throw e -> exists l, fm !! k = Some (VArr l).
Proof.
  unfold Rules.lower_field. destruct (fm !! k) as [[s|l]|]; try discriminate.
  eauto.
Qed.

Lemma to_string_JStr_elements (defaults : list string) (w : json)
    (e : string) :
  In w (map JStr defaults) -> to_string w <> Throw e.
Proof.
  intros Hin. apply in_map_iff in Hin. destruct Hin as (s & <- & _).
  discriminate.
Qed.

Lemma domain_allowed_throw (allowed : list json) (domain e : string) :
  Rules.domain_allowed allowed domain = Throw e ->
  exists w, In w allowed /\ to_string w = Throw e.
Proof.
  induction allowed as [|w rest IH]; cbn [Rules.domain_allowed];
    [discriminate|].
  destruct (match w with JStr s => String.eqb domain s | _ => false end);
    [discriminate|].
  destruct (to_string w) as [sw|e'] eqn:Ew; cbn [rbind].
  - destruct (endsWith domain ("." +:+ sw)); [discriminate|].
    intros H. destruct (IH H) as (w' & Hin & Hw'). exists w'.
    split; [now right|assumption].
  - intros [= ->]. exists w. split; [now left|assumption].
Qed.

Lemma med003_line_throw (allowed : list json) (line : string)
    (lineno : nat) (e : string) (fuel : nat) :
  forall lastIndex,
    Rules.med003_line allowed line lineno fuel lastIndex = Throw e ->
    exists w, In w allowed /\ to_string w = Throw e.
Proof.
  induction fuel as [|fuel IH]; intros lastIndex; cbn [Rules.med003_line];
    [discriminate|].
  destruct (exec Rules.urlRegex lastIndex line) as [[m|] lastIndex'];
    [|discriminate].
  destruct (Rules.domain_allowed allowed (toLowerCase (mgroup 1 m)))
    as [ok|e'] eqn:Ed; cbn [rbind].
  - destruct (Rules.med003_line allowed line lineno fuel lastIndex')
      as [rest|e''] eqn:El; cbn [rbind]; [discriminate|].
    intros [= ->]. now apply (IH lastIndex').
  - intros [= ->]. now apply domain_allowed_throw in Ed.
Qed.

Lemma med003_lines_throw (allowed : list json) (e : string)
    (lines : list string) :
  forall i,
    Rules.med003_lines allowed lines i = Throw e ->
    exists w, In w allowed /\ to_string w = Throw e.
Proof.
  induction lines as [|l rest IH]; intros i; cbn [Rules.med003_lines];
    [discriminate|].
  destruct (Rules.med003_line allowed l (i + 1) (S (strlen l)) 0)
    as [here|e'] eqn:El; cbn [rbind].
  - destruct (Rules.med003_lines allowed rest (S i)) as [below|e''] eqn:Er;
      cbn [rbind]; [discriminate|].
    intros [= ->]. now apply (IH (S i)).
  - intros [= ->]. now apply med003_line_throw in El.
Qed.

(** MED-003 throws on a whitelist that cannot be spread, and on an
    element of the whitelist that does not convert to a string. *)
Lemma med003_check_throw (content : string) (fm : option frontmatter)
    (config : option Config) (e : string) :
  Rules.med003_check content fm config = Throw e ->
  listlike (Rules.whitelist_of config) = false
  \/ exists l w, Rules.spread (Rules.whitelist_of config) = Ok l
                 /\ In w l /\ to_string w = Throw e.
Proof.
  unfold Rules.med003_check.
  destruct (Rules.spread (Rules.whitelist_of config)) as [l|e'] eqn:Es;
    cbn [rbind].
  - destruct (Rules.med003_lines _ _ 0) as [found|e''] eqn:El; cbn [rbind];
      [discriminate|].
    intros [= ->]. right. apply med003_lines_throw in El.
    destruct El as (w & Hin & Hw). exists l, w.
    split; [reflexivity|]. split; [|assumption].
    apply in_app_or in Hin. destruct Hin as [Hin|Hin]; [|assumption].
    now destruct (to_string_JStr_elements _ _ e Hin).
  - intros _. left.
    destruct (Rules.whitelist_of config); try reflexivity; discriminate.
Qed.

Lemma includes_id_throw (allowed : json) (id e : string) :
  includes_id allowed id = Throw e -> listlike allowed = false.
Proof. destruct allowed; try reflexivity; discriminate. Qed.

(** X4. What makes [scanContent] throw on a text.  It throws in three
    cases only: some rule applies to the category and the exemptions of
    the configuration are neither a list nor a string; the category is
    one that MED-003 applies to, and the whitelist of the configuration
    is neither a list nor a string, or holds a value that does not
    convert to a string; the content is an agent definition whose front
    matter holds a list under [name] or under [model] (MED-004 calls
    [toLowerCase] on it). *)
Theorem scanContent_throws_only_on_list_name :
  forall JP JS (h : heap) (content : string) (contentType : ContentType)
         (config : option Config) (e : string),
    fst (scanContent JP JS h content contentType config) = Throw e ->
    (listlike (exemptions config) = false
     /\ exists p, In p (PATTERNS JS)
                  /\ includes (p_contentTypes p) contentType = true)
    \/ (includes [agent; skill; command; rule] contentType = true
        /\ (listlike (Rules.whitelist_of config) = false
            \/ exists l w, Rules.spread (Rules.whitelist_of config) = Ok l
                           /\ In w l /\ to_string w = Throw e))
    \/ (contentType = agent
        /\ exists fm l, parseFrontmatter JP content = Some fm
                        /\ (fm !! "name" = Some (VArr l)
                            \/ fm !! "model" = Some (VArr l))).
Proof.
  intros JP JS h content contentType config e.
  rewrite scanContent_eq. unfold scan_with.
  destruct (scan_patterns _ _ _ _ _ _ _ _ _) as [[found|e'] h'] eqn:E;
    simpl; [discriminate|]. intros [= ->].
  apply scan_patterns_throw in E.
  destruct E as (p & Hp & Hct & [Hinc|(h0 & h1 & Hap)]).
  { left. split; [now apply includes_id_throw in Hinc|]. now exists p. }
  right.
  apply apply_pattern_throw in Hap. destruct Hap as (check & Hc & Hthrow).
  destruct (PATTERNS_checks JS p check Hp Hc)
    as [->|[->|[[-> Htypes]|[-> Htypes]]]].
  - discriminate Hthrow.
  - unfold Rules.high001_check in Hthrow.
    destruct (if includes _ contentType then _ else _) as [fm|];
      [|discriminate].
    destruct (fm !! "tools") as [[s|tools]|]; try discriminate.
    destruct (_ && _); discriminate.
  - left. rewrite Htypes in Hct.
    split; [exact Hct|now apply med003_check_throw in Hthrow].
  - right. rewrite Htypes in Hct.
    assert (contentType = agent) as ->.
    { apply includes_In in Hct. destruct Hct as [<-|[]]. reflexivity. }
    split; [reflexivity|].
    change (includes [agent; skill; command; rule] agent) with true in Hthrow.
    cbv iota in Hthrow. unfold Rules.med004_check in Hthrow.
    destruct (parseFrontmatter JP content) as [fm|]; [|discriminate].
    exists fm.
    destruct (Rules.lower_field fm "name") as [name|e1] eqn:En; simpl in Hthrow.
    + destruct (Rules.lower_field fm "model") as [model|e2] eqn:Em;
        simpl in Hthrow.
      * destruct (_ && _); discriminate.
      * apply lower_field_throw in Em. destruct Em as [l Hl]. eauto.
    + apply lower_field_throw in En. destruct En as [l Hl]. eauto.
Qed.

Lemma scanContent_throws_only_on_list_name_witness :
  (listlike (exemptions None) = false
   /\ exists p, In p (PATTERNS SampleHost.JSON_stringify)
                /\ includes (p_contentTypes p) agent = true)
  \/ (includes [agent; skill; command; rule] agent = true
      /\ (listlike (Rules.whitelist_of None) = false
          \/ exists l w,
               Rules.spread (Rules.whitelist_of None) = Ok l /\ In w l
               /\ to_string w
                  = Throw ("(frontmatter.name || " +:+ quote +:+ quote
                           +:+ ").toLowerCase is not a function")))
  \/ (agent = agent
      /\ exists fm l,
           parseFrontmatter SampleHost.JSON_parse
             Samples.agent_with_list_name = Some fm
           /\ (fm !! "name" = Some (VArr l) \/ fm !! "model" = Some (VArr l))).
Proof.
  apply (scanContent_throws_only_on_list_name
           SampleHost.JSON_parse SampleHost.JSON_stringify ∅
           Samples.agent_with_list_name agent None
           ("(frontmatter.name || " +:+ quote +:+ quote
            +:+ ").toLowerCase is not a function")).
  vm_compute. reflexivity.
Defined.

(** ** The front matter *)

(** A match reported by [exec] is a match of the regular expression. *)
Lemma smatch_Matches (re : regexp) (text : string) (m : rmatch) :
  smatch re text = Some m ->
  Matches (re_ignoreCase re) (chars text) (re_source re)
          (m_index m) (m_end m)
  /\ m_input m = text.
Proof.
  unfold smatch, exec.
  replace (if re_global re then 0 else 0) with 0 by now destruct (re_global re).
  unfold exec_from.
  destruct (0 <=? length (chars text))%nat; [|discriminate].
  destruct (search _ _ _ _ 0) as [[[i j] c]|] eqn:E; simpl; [|discriminate].
  intros [= <-]. simpl. split; [|reflexivity].
  destruct (search_Some _ _ _ _ _ _ E)
    as (i' & j' & c' & [= <- <- <-] & Hi & Hin).
  assert (i <= length (chars text)) as Hi' by lia.
  apply (run_Matches (re_ignoreCase re) (chars text) (re_source re) i []
           Hi') in Hin. apply Hin.
Qed.

Lemma startsWith_append (p r : string) : startsWith (p +:+ r) p = true.
Proof.
  induction p as [|c p IH]; simpl; [now destruct r|].
  now rewrite Ascii.eqb_refl, IH.
Qed.

(** X5. [parseFrontmatter] finds no front matter, and returns [null], in
    a content that does not start with the three dashes. *)
Theorem parseFrontmatter_needs_dashes :
  forall JP (content : string),
    startsWith content "---" = false ->
    parseFrontmatter JP content = None.
Proof.
  intros JP content Hs. unfold parseFrontmatter.
  destruct (smatch block_re content) as [m|] eqn:E; [exfalso|reflexivity].
  apply smatch_Matches in E. destruct E as [M _].
  change (re_ignoreCase block_re) with false in M.
  change (re_source block_re)
    with (Seq Bol (Seq (lit_chars (chars "---"))
            (seqs [star ws; Chr LF; Group 1 (lazy_star any); Chr LF;
                   lit "---"]))) in M.
  destruct M as (k & [Hi ->] & k2 & Ml & _).
  apply Matches_lit in Ml. destruct Ml as [_ (rest & Hd)].
  rewrite Hi in Hd. rewrite drop_0 in Hd.
  assert (content = "---" +:+ str rest) as Hc.
  { apply chars_inj. now rewrite chars_app, chars_str. }
  rewrite Hc, startsWith_append in Hs. discriminate.
Qed.

Lemma parseFrontmatter_needs_dashes_witness :
  parseFrontmatter SampleHost.JSON_parse Samples.secret_line = None.
Proof.
  apply (parseFrontmatter_needs_dashes SampleHost.JSON_parse
           Samples.secret_line).
  reflexivity.
Defined.

(** ** The six tools *)

Lemma allTools_NoDup : NoDup (map JString Rules.allTools).
Proof.
  refine (@bool_decide_unpack _ (NoDup_dec _) _). vm_compute. exact I.
Qed.

(** X6. HIGH-001 fires exactly on a front matter whose [tools] is a list
    that holds all six of Read, Write, Edit, Bash, Grep and Glob: the test
    on the length of the list adds nothing.  The hit is on line 1. *)
Theorem high001_iff_all_six :
  forall JS (content : string) (fm : option frontmatter)
         (config : option Config) (hit : Hit),
    Rules.high001_check JS content fm config = Ok (Some hit)
    <-> exists fm0 tools,
          fm = Some fm0 /\ fm0 !! "tools" = Some (VArr tools)
          /\ (forall t, In t Rules.allTools -> In (JString t) tools)
          /\ hit = mkHit 1 ("tools: " +:+ JS tools).
Proof.
  intros JS content fm config hit. unfold Rules.high001_check. split.
  - destruct fm as [fm0|]; [|discriminate].
    destruct (fm0 !! "tools") as [[s|tools]|] eqn:Et; try discriminate.
    destruct (6 <=? length tools)%nat;
      [rewrite andb_true_l|rewrite andb_false_l; discriminate].
    destruct (forallb (fun t => includes tools (JString t)) Rules.allTools)
      eqn:Ea; [|discriminate].
    intros [= <-]. exists fm0, tools. repeat split; auto.
    intros t Ht. rewrite forallb_forall in Ea.
    apply includes_In. now apply Ea.
  - intros (fm0 & tools & -> & Ht & Hall & ->). rewrite Ht.
    assert (6 <= length tools) as Hlen.
    { change 6 with (length (map JString Rules.allTools)).
      apply NoDup_incl_length; [apply NoDup_ListNoDup, allTools_NoDup|].
      intros v Hv. apply in_map_iff in Hv. destruct Hv as (t & <- & Hin).
      now apply Hall. }
    apply Nat.leb_le in Hlen. rewrite Hlen, andb_true_l.
    replace (forallb (fun t => includes tools (JString t)) Rules.allTools)
      with true; [reflexivity|].
    symmetry. apply forallb_forall. intros t Hin.
    apply includes_In. now apply Hall.
Qed.

(** ** The action *)

Lemma severityLevel_cases (key : string) :
  if includes inherited key
  then severityLevel key = Some NotANumber
  else exists z, default (Num 0) (severityLevel key) = Num z /\ (0 <= z)%Z.
Proof.
  unfold severityLevel.
  destruct (String.eqb_spec key "CRITICAL") as [->|_];
    [cbn; exists 0%Z; split; [reflexivity|lia]|].
  destruct (String.eqb_spec key "HIGH") as [->|_];
    [cbn; exists 1%Z; split; [reflexivity|lia]|].
  destruct (String.eqb_spec key "MEDIUM") as [->|_];
    [cbn; exists 2%Z; split; [reflexivity|lia]|].
  destruct (includes inherited key); [reflexivity|].
  exists 0%Z. split; [reflexivity|lia].
Qed.

Lemma existsb_at_most (findings : list Finding) (l : Level) :
  existsb (fun f => at_most (level (f_severity f)) l) findings = true
  <-> exists f, In f findings /\ at_most (level (f_severity f)) l = true.
Proof. apply existsb_exists. Qed.

Lemma existsb_not_a_number (findings : list Finding) :
  existsb (fun f => at_most (level (f_severity f)) NotANumber) findings
  = false.
Proof. induction findings as [|f r IH]; [reflexivity|exact IH]. Qed.

(** X7. When a CRITICAL finding blocks.  Let [key] be the property key
    that [blockOnSeverity] (or ["CRITICAL"] in its place, when it is
    absent or falsy) converts to.  With a CRITICAL finding [getAction]
    gives BLOCK for every key that is not a name inherited from
    [Object.prototype], whatever the thresholds are; under an inherited
    name, such as ["constructor"], it never gives BLOCK.  Without
    findings it gives PASS, when the warning threshold converts to a key
    as well. *)
Theorem getAction_critical_blocks :
  forall (findings : list Finding) (c : Config) (key : string),
    to_string (or_json (blockOnSeverity c) (JStr "CRITICAL")) = Ok key ->
    ((exists f, In f findings /\ f_severity f = CRITICAL) ->
     if includes inherited key
     then getAction findings (Some c) <> Ok BLOCK
     else getAction findings (Some c) = Ok BLOCK)
    /\ (forall key', to_string (or_json (warnOnSeverity c) (JStr "HIGH"))
                     = Ok key' ->
        getAction [] (Some c) = Ok PASS).
Proof.
  intros findings c key Hkey. unfold getAction, threshold.
  cbn [property rbind]. rewrite Hkey. cbn [rbind]. split.
  - intros (f & Hf & Hsev). pose proof (severityLevel_cases key) as Hcases.
    destruct (includes inherited key).
    + rewrite Hcases. cbn [default from_option id].
      rewrite existsb_not_a_number.
      destruct (to_string (or_json (warnOnSeverity c) (JStr "HIGH")));
        cbn [rbind]; [|discriminate].
      destruct (existsb _ findings); discriminate.
    + destruct Hcases as (z & -> & Hz).
      replace (existsb _ findings) with true; [reflexivity|].
      symmetry. apply existsb_at_most. exists f. split; [assumption|].
      rewrite Hsev. cbn. now apply Z.leb_le.
  - intros key' ->. reflexivity.
Qed.

Lemma getAction_critical_blocks_witness :
  getAction [Samples.secret_finding]
    (Some (mkConfig (Some (JStr "MEDIUM")) (Some (JStr "MEDIUM"))
             None None None)) = Ok BLOCK.
Proof.
  apply (proj1 (getAction_critical_blocks [Samples.secret_finding]
                  (mkConfig (Some (JStr "MEDIUM")) (Some (JStr "MEDIUM"))
                     None None None) "MEDIUM" eq_refl)).
  exists Samples.secret_finding. split; [now left|reflexivity].
Defined.

(** With [blockOnSeverity] set to ["constructor"] a CRITICAL finding
    only warns. *)
Example getAction_inherited_name :
  getAction [Samples.secret_finding]
    (Some (mkConfig (Some (JStr "constructor")) None None None None))
  = Ok WARN.
Proof. reflexivity. Qed.

Lemma high001_iff_all_six_witness :
  Rules.high001_check SampleHost.JSON_stringify ""
    (Some {[ "tools" := VArr (map JString Rules.allTools) ]}) None
  = Ok (Some (mkHit 1 ("tools: " +:+ SampleHost.JSON_stringify
                                       (map JString Rules.allTools)))).
Proof.
  apply (proj2 (high001_iff_all_six SampleHost.JSON_stringify ""
                  (Some {[ "tools" := VArr (map JString Rules.allTools) ]})
                  None _)).
  exists {[ "tools" := VArr (map JString Rules.allTools) ]},
         (map JString Rules.allTools).
  split; [reflexivity|]. split; [vm_compute; reflexivity|].
  split; [|reflexivity]. intros t Ht. now apply in_map.
Defined.

(** * Further properties of the hook *)

Section HookMore.
Variable JSON_parse : string -> option (list jsval).
Variable JSON_stringify : list jsval -> string.
Variable CONFIG_PATH : string.

Abbreviation scanContent := (scanContent JSON_parse JSON_stringify).
Abbreviation scan_value := (scan_value JSON_parse JSON_stringify).
Abbreviation hook_try := (hook_try JSON_parse JSON_stringify CONFIG_PATH).
Abbreviation runHookMode :=
  (runHookMode JSON_parse JSON_stringify CONFIG_PATH).

Lemma hook_try_passthrough (env : Env) (w : World) (ev : HookEvent)
    (input : HookInput) :
  parsed ev = Ok input ->
  is_truthy (contentToScan_of input) = false
  \/ is_truthy (filePath_of input) = false
  \/ (exists filePath, filePath_of input = Str filePath
                       /\ (isProtected filePath = false
                           \/ isSelfPath env filePath = Ok true)) ->
  hook_try env w ev
  = (contentToScan_of input, console_log w (data ev), Returned).
Proof.
  intros Hp Hcase. unfold Gate.hook_try. rewrite Hp.
  destruct (is_truthy (contentToScan_of input)) eqn:Ec; [|reflexivity].
  destruct (is_truthy (filePath_of input)) eqn:Ef; [|reflexivity].
  cbn [negb orb].
  destruct Hcase as [H|[H|(filePath & -> & H)]]; [discriminate..|].
  destruct (isProtected filePath) eqn:Eprot; [|reflexivity].
  cbn [negb]. destruct H as [H|H]; [discriminate|]. now rewrite H.
Qed.

(** X8. An event without content to scan, without a file path, on a path
    outside the protected directories, or on one of the scanner's own
    files, is re-emitted as it came: nothing is scanned, logged or
    reported, and the exit status is 0.  The content and the path are
    absent when the event holds a falsy value in their place. *)
Theorem hook_passthrough :
  forall (env : Env) (w : World) (ev : HookEvent) (input : HookInput),
    parsed ev = Ok input ->
    is_truthy (contentToScan_of input) = false
    \/ is_truthy (filePath_of input) = false
    \/ (exists filePath, filePath_of input = Str filePath
                         /\ (isProtected filePath = false
                             \/ isSelfPath env filePath = Ok true)) ->
    runHookMode env w ev = (console_log w (data ev), 0).
Proof.
  intros env w ev input Hp Hcase.
  unfold Gate.runHookMode.
  now rewrite (hook_try_passthrough env w ev input Hp Hcase).
Qed.

Lemma with_severity_critical (findings : list Finding) :
  (0 <? length (with_severity CRITICAL findings))%nat = has_critical findings.
Proof.
  unfold with_severity, has_critical.
  induction findings as [|f r IH]; simpl; [reflexivity|].
  destruct (bool_decide (f_severity f = CRITICAL)); simpl; [reflexivity|].
  exact IH.
Qed.

(** X9. For an event that the hook scans to the end (the scan returns
    findings and [getAction] returns an action, as it does whenever the
    configuration is an object whose thresholds are strings or absent),
    the exit status and the standard output depend on one thing only,
    whether some finding is CRITICAL: then the status is 2 and the event
    is not re-emitted; otherwise the status is 0 and the event is
    re-emitted.  Neither the thresholds of the configuration nor a
    failure of the audit log change that. *)
Theorem hook_decision :
  forall (env : Env) (w : World) (ev : HookEvent) (input : HookInput)
         (filePath : string) (findings : list Finding) (action : Action),
    reaches_scan env ev input filePath ->
    fst (scan_value (regexes w) (contentToScan_of input)
           (detectContentType filePath) (fst (loadConfig env w)))
    = Ok findings ->
    getAction findings (fst (loadConfig env w)) = Ok action ->
    snd (runHookMode env w ev) = (if has_critical findings then 2 else 0)
    /\ stdout (fst (runHookMode env w ev))
       = stdout w ++ (if has_critical findings then [] else [data ev]).
Proof.
  intros env w ev input filePath findings action Hr Hs Ha.
  unfold Gate.runHookMode.
  rewrite (hook_try_scans _ _ _ _ _ _ _ _ Hr), Hs.
  destruct (hook_report_outcome CONFIG_PATH env (snd (loadConfig env w)) ev
              input filePath (detectContentType filePath) _ _ _ Ha)
    as (Hflow & Hout & _).
  destruct (Gate.hook_report _ _ _ _ _ _ _ _ _) as [w' fl].
  cbn [fst snd] in *. subst fl. rewrite with_severity_critical in *.
  pose proof (loadConfig_world env w) as (Ho & _ & _).
  rewrite Ho in Hout.
  destruct (has_critical findings); cbn [fst snd]; auto.
Qed.

Lemma writeAuditLog_files (env : Env) (w : World) (config : option Config)
    (entry : string -> AuditEntry) :
  files (writeAuditLog env w config entry) = files w
  \/ exists dest,
       files (writeAuditLog env w config entry)
       = <[dest := log_at w dest ++ [entry (now env)]]> (files w).
Proof.
  unfold writeAuditLog.
  destruct (rbind _ _) as [logPath|msg]; [|now left].
  destruct (append_error env _); [now left|right].
  now exists logPath.
Qed.

(** What a run of the hook does to the files: nothing, or one entry more
    at the end of one file. *)
Lemma hook_files (env : Env) (w : World) (ev : HookEvent) :
  files (fst (runHookMode env w ev)) = files w
  \/ exists dest e,
       files (fst (runHookMode env w ev))
       = <[dest := log_at w dest ++ [e]]> (files w).
Proof.
  unfold Gate.runHookMode.
  destruct (hook_try env w ev) as [[c w'] fl] eqn:E.
  destruct fl as [|code|msg].
  3:{ left. apply hook_try_raised in E. destruct E as (_ & Hf & _).
      destruct (is_truthy c && is_long c); exact Hf. }
  all: cbn [fst].
  all: revert E; unfold Gate.hook_try.
  all: destruct (parsed ev) as [input|m]; [|discriminate].
  all: destruct (negb (is_truthy (contentToScan_of input))
                 || negb (is_truthy (filePath_of input)));
         [try discriminate; intros [= _ <-]; now left|].
  all: destruct (filePath_of input) as [filePath|t l]; [|discriminate].
  all: destruct (negb (isProtected filePath));
         [try discriminate; intros [= _ <-]; now left|].
  all: destruct (isSelfPath env filePath) as [[|]|e];
         [try discriminate; intros [= _ <-]; now left| |discriminate].
  all: cbv zeta.
  all: pose proof (loadConfig_world env w) as (_ & Hf & _).
  all: destruct (Gate.scan_value _ _ _ _ _ _) as [[findings|e] h];
         [|discriminate].
  all: destruct (getAction findings (fst (loadConfig env w)))
         as [action|e] eqn:Ha;
         [|unfold Gate.hook_report; rewrite Ha; discriminate].
  all: destruct (hook_report_outcome CONFIG_PATH env
                   (set_regexes (snd (loadConfig env w)) h) ev input
                   filePath (detectContentType filePath) _ _ _ Ha)
         as (_ & _ & Hfiles).
  all: intros [= _ <- _]; rewrite Hfiles.
  all: match goal with
       | |- context [writeAuditLog ?en ?w1 ?c ?entry] =>
           destruct (writeAuditLog_files en w1 c entry) as [Hw|(dest & Hw)];
           rewrite Hw; cbn [files set_regexes];
           [left; exact Hf
           |right; exists dest; eexists; unfold log_at;
            cbn [files set_regexes]; rewrite Hf; reflexivity]
       end.
Qed.

(** X10. The hook only ever appends to the audit log: after a run, every
    file holds the entries it held before, in the same order, followed by
    at most one new entry. *)
Theorem hook_append_only :
  forall (env : Env) (w : World) (ev : HookEvent) (path : string),
    log_at w path `prefix_of` log_at (fst (runHookMode env w ev)) path
    /\ length (log_at (fst (runHookMode env w ev)) path)
       <= length (log_at w path) + 1.
Proof.
  intros env w ev path.
  destruct (hook_files env w ev) as [H|(dest & e & H)];
    unfold log_at; rewrite H.
  - split; [reflexivity|lia].
  - destruct (decide (dest = path)) as [->|Hne].
    + rewrite lookup_insert_eq. simpl. fold (log_at w path).
      split; [now apply prefix_app_r|]. rewrite length_app. simpl. lia.
    + rewrite lookup_insert_ne by assumption.
      split; [reflexivity|lia].
Qed.
End HookMore.

Lemma hook_passthrough_witness :
  Samples.run (Samples.env_with Samples.no_config)
    (Samples.write_event "docs/notes.md" Samples.secret_line)
  = (console_log Samples.fresh "{...}", 0).
Proof.
  apply (hook_passthrough SampleHost.JSON_parse SampleHost.JSON_stringify
           Samples.CONFIG_PATH (Samples.env_with Samples.no_config)
           Samples.fresh
           (Samples.write_event "docs/notes.md" Samples.secret_line)
           (mkHookInput (Some (JStr "Write"))
              (Some (mkToolInput (Some (Str "docs/notes.md"))
                       (Some (Str Samples.secret_line)) None)))).
  - reflexivity.
  - right. right. exists "docs/notes.md".
    split; [reflexivity|left; vm_compute; reflexivity].
Defined.

Lemma hook_decision_witness :
  snd (Samples.run (Samples.env_with Samples.strict_config)
         (Samples.write_event "agents/x.md" "git push --force")) = 0
  /\ stdout (fst (Samples.run (Samples.env_with Samples.strict_config)
                    (Samples.write_event "agents/x.md" "git push --force")))
     = [] ++ ["{...}"].
Proof.
  assert (reaches_scan (Samples.env_with Samples.strict_config)
            (Samples.write_event "agents/x.md" "git push --force")
            (mkHookInput (Some (JStr "Write"))
               (Some (mkToolInput (Some (Str "agents/x.md"))
                        (Some (Str "git push --force")) None)))
            "agents/x.md") as Hr.
  { repeat split; vm_compute; reflexivity. }
  apply (hook_decision SampleHost.JSON_parse SampleHost.JSON_stringify
           Samples.CONFIG_PATH _ Samples.fresh _ _ _
           [Samples.force_finding 1] BLOCK Hr).
  - vm_compute. reflexivity.
  - vm_compute. reflexivity.
Defined.

(** * Further properties of the classifier *)

(** ** Facts about every character *)

Lemma all_chars_complete (c : ascii) : In c all_chars.
Proof.
  unfold all_chars. apply in_map_iff. exists (nat_of_ascii c).
  split; [apply ascii_nat_embedding|].
  apply in_seq. pose proof (nat_ascii_bounded c). lia.
Qed.

Lemma for_all_chars (P : ascii -> bool) :
  forallb P all_chars = true -> forall c, P c = true.
Proof.
  intros H c. rewrite forallb_forall in H. apply H, all_chars_complete.
Qed.

Lemma lower_char_idem (c : ascii) : lower_char (lower_char c) = lower_char c.
Proof.
  apply Ascii.eqb_eq. revert c. apply for_all_chars.
  vm_compute. reflexivity.
Qed.

(** Lowering a character and turning a backslash into a slash commute. *)
Lemma lower_char_backslash (c : ascii) :
  lower_char (if Ascii.eqb c bs then "/"%char else c)
  = (if Ascii.eqb (lower_char c) bs then "/"%char else lower_char c).
Proof.
  apply Ascii.eqb_eq. revert c. apply for_all_chars.
  vm_compute. reflexivity.
Qed.

Lemma normalize_lower_first (p : string) :
  normalize p = replace_char bs "/" (toLowerCase p).
Proof.
  unfold normalize. induction p as [|c p IH]; [reflexivity|].
  cbn [replace_char toLowerCase]. now rewrite IH, lower_char_backslash.
Qed.

Lemma toLowerCase_idem (p : string) : toLowerCase (toLowerCase p) = toLowerCase p.
Proof.
  induction p as [|c p IH]; [reflexivity|].
  cbn [toLowerCase]. now rewrite IH, lower_char_idem.
Qed.

Lemma replace_char_idem (p : string) :
  replace_char bs "/" (replace_char bs "/" p) = replace_char bs "/" p.
Proof.
  induction p as [|c p IH]; [reflexivity|].
  cbn [replace_char]. rewrite IH.
  destruct (Ascii.eqb_spec c bs) as [->|Hne]; [reflexivity|].
  apply Ascii.eqb_neq in Hne. now rewrite Hne.
Qed.

Lemma detectContentType_normalized (p q : string) :
  normalize p = normalize q -> detectContentType p = detectContentType q.
Proof. intros H. unfold detectContentType. now rewrite H. Qed.

(** X11. The classifier ignores case and does not tell backslashes from
    slashes: two paths that differ only in the case of their letters have
    the same category, a path has the category of the path with its
    backslashes turned into slashes, and normalizing is idempotent. *)
Theorem detectContentType_case_insensitive :
  forall p q : string,
    (toLowerCase p = toLowerCase q ->
     detectContentType p = detectContentType q)
    /\ detectContentType (replace_char bs "/" p) = detectContentType p
    /\ normalize (normalize p) = normalize p.
Proof.
  intros p q. split; [|split].
  - intros H. apply detectContentType_normalized.
    now rewrite !normalize_lower_first, H.
  - apply detectContentType_normalized. unfold normalize.
    now rewrite replace_char_idem.
  - rewrite (normalize_lower_first (normalize p)).
    unfold normalize at 1. rewrite toLowerCase_idem. fold (normalize p).
    rewrite (normalize_lower_first p). apply replace_char_idem.
Qed.

Lemma detectContentType_case_insensitive_witness :
  detectContentType "Agents/Reviewer.MD" = detectContentType "agents/reviewer.md".
Proof.
  apply (proj1 (detectContentType_case_insensitive
                  "Agents/Reviewer.MD" "agents/reviewer.md")).
  reflexivity.
Defined.

(* ===================================================================== *)
(** * Protected paths *)
(* ===================================================================== *)

(** ** The [i] flag on a lower-case pattern *)

Lemma chars_ascii_fold (text : string) :
  chars (ascii_fold text) = map ascii_lower (chars text).
Proof. induction text as [|c r IH]; simpl; [reflexivity|]. now rewrite IH. Qed.

Lemma lookup_map_lower (s : list ascii) (i : nat) :
  map ascii_lower s !! i = ascii_lower <$> (s !! i).
Proof.
  revert i. induction s as [|c s IH]; intros [|i]; simpl; try reflexivity.
  apply IH.
Qed.

Lemma iter_ext (R R' : nat -> nat -> Prop) :
  (forall i j, R i j <-> R' i j) -> forall i j, iter R i j <-> iter R' i j.
Proof.
  intros H i j. split; induction 1 as [i|i k j Hr Hlt _ IH].
  - constructor.
  - apply iter_step with (k := k); [now apply H|assumption|assumption].
  - constructor.
  - apply iter_step with (k := k); [now apply H|assumption|assumption].
Qed.

Lemma step_fold (s : list ascii) (ok ok' : ascii -> bool) (i j : nat) :
  (forall x, ok x = ok' (ascii_lower x)) ->
  (exists x, s !! i = Some x /\ ok x = true /\ j = S i)
  <-> (exists y, map ascii_lower s !! i = Some y /\ ok' y = true /\ j = S i).
Proof.
  intros H. rewrite lookup_map_lower. split.
  - intros (x & Hx & Hok & ->). exists (ascii_lower x). rewrite Hx.
    split; [reflexivity|]. split; [now rewrite <- H|reflexivity].
  - intros (y & Hy & Hok & ->). destruct (s !! i) as [x|]; [|discriminate].
    injection Hy as <-. exists x. split; [reflexivity|].
    split; [now rewrite H|reflexivity].
Qed.

Lemma forallb_all_chars (P : ascii -> bool) :
  forallb P all_chars = true -> forall x, P x = true.
Proof.
  intros H x. rewrite forallb_forall in H. apply H, all_chars_complete.
Qed.

(** Under the [i] flag a pattern that [folds] matches a subject exactly
    where it matches, without the flag, the subject with its letters A to
    Z lower-cased. *)
Lemma Matches_folds (s : list ascii) (r : regex) :
  folds r = true ->
  forall i j,
    Matches true s r i j <-> Matches false (map ascii_lower s) r i j.
Proof.
  induction r as [| a | | neg items | r1 IH1 r2 IH2 | r1 IH1 r2 IH2
                 | g r1 IH1 | | | | r1 IH1 | n r1 IH1];
    cbn [folds]; intros Hf i j; try discriminate.
  - reflexivity.
  - cbn [Matches]. apply step_fold. intros x.
    apply Bool.eqb_prop. revert x. now apply forallb_all_chars.
  - cbn [Matches]. apply step_fold. intros x.
    apply Bool.eqb_prop. revert x. now apply forallb_all_chars.
  - apply andb_true_iff in Hf. destruct Hf as [H1 H2]. cbn [Matches].
    split; intros (k & M1 & M2); exists k;
      (split; [now apply (IH1 H1)|now apply (IH2 H2)]).
  - apply andb_true_iff in Hf. destruct Hf as [H1 H2]. cbn [Matches].
    rewrite (IH1 H1 i j), (IH2 H2 i j). reflexivity.
  - cbn [Matches]. apply iter_ext. apply (IH1 Hf).
  - reflexivity.
  - cbn [Matches]. rewrite length_map. reflexivity.
  - cbn [Matches]. split; intros [Hn ->]; (split; [|reflexivity]);
      intros k M; apply (Hn k); now apply (IH1 Hf).
  - cbn [Matches]. apply (IH1 Hf).
Qed.

Lemma test_folds (r : regex) (text : string) :
  folds r = true -> test (re_i r) text = test (re_ r) (ascii_fold text).
Proof.
  intros Hf.
  destruct (test (re_i r) text) eqn:E1;
    destruct (test (re_ r) (ascii_fold text)) eqn:E2;
    try reflexivity; exfalso.
  - apply test_Matches in E1. destruct E1 as (i & j & Hi & M).
    apply (Matches_folds _ _ Hf) in M.
    assert (test (re_ r) (ascii_fold text) = true) as H; [|congruence].
    apply test_Matches. exists i, j. rewrite chars_ascii_fold, length_map.
    split; assumption.
  - apply test_Matches in E2. destruct E2 as (i & j & Hi & M).
    rewrite chars_ascii_fold in M, Hi. rewrite length_map in Hi.
    apply (Matches_folds _ _ Hf) in M.
    assert (test (re_i r) text = true) as H; [|congruence].
    apply test_Matches. exists i, j. split; assumption.
Qed.

(** ** [(?:^|[/])dir[/]] *)

Lemma Matches_set_slash (s : list ascii) (i j : nat) :
  Matches false s (set [One "/"]) i j <-> Matches false s (Chr "/") i j.
Proof.
  unfold set. cbn [Matches].
  assert (forall x, set_ok false false [One "/"] x = chr_ok false "/" x) as H.
  { intros x. unfold set_ok, chr_ok, items_have. cbn [existsb citem_has].
    now destruct (Ascii.eqb "/" x). }
  split; intros (x & Hx & Hok & ->); exists x;
    (split; [assumption|split; [|reflexivity]]); [rewrite <- H|rewrite H];
    assumption.
Qed.

(** [(?:^|\/)l\/] holds of the subjects [pre l / rest] with [pre] empty or
    ending in a slash. *)
Lemma Matches_dir_slash (s l : list ascii) :
  (exists i j, i <= length s
     /\ Matches false s (Seq (Alt Bol (Chr "/")) (Seq (lit_chars l) (Chr "/"))) i j)
  <-> exists pre rest, s = pre ++ l ++ slash :: rest /\ boundary pre.
Proof.
  split.
  - intros (i & j & _ & M).
    destruct (proj1 (Matches_boundary_lit s l (Chr "/") j) (ex_intro _ i M))
      as (pre & rest & Hs & Hb & Mt).
    apply Matches_Chr in Mt. destruct Mt as [_ (rest' & Hd)].
    exists pre, rest'. split; [|assumption].
    rewrite Hs in Hd at 1.
    rewrite app_assoc, <- length_app, drop_app_length in Hd.
    rewrite Hd in Hs. exact Hs.
  - intros (pre & rest & Hs & Hb).
    destruct (proj2 (Matches_boundary_lit s l (Chr "/")
                       (S (length pre + length l)))) as (i & M).
    + exists pre, (slash :: rest). split; [assumption|].
      split; [assumption|]. apply Matches_Chr. split; [reflexivity|].
      exists rest. rewrite Hs at 1.
      now rewrite app_assoc, <- length_app, drop_app_length.
    + exists i, (S (length pre + length l)). split; [|assumption].
      clear - M. destruct M as (i1 & Mb & _).
      apply Matches_boundary in Mb. destruct Mb as (H1 & _ & [[-> _]| ->]); lia.
Qed.

Lemma protected_source_slash (s : list ascii) (dir : string) (i j : nat) :
  Matches false s (re_source (protected_re dir)) i j
  <-> Matches false s
        (Seq (Alt Bol (Chr "/")) (Seq (lit_chars (chars dir)) (Chr "/"))) i j.
Proof.
  change (re_source (protected_re dir))
    with (Seq (Alt Bol (set [One "/"]))
            (Seq (lit_chars (chars dir)) (set [One "/"]))).
  cbn [Matches]. split.
  - intros (k & [Hb|Hs] & k2 & Ml & Mc); exists k;
      (split; [|exists k2; split; [assumption|now apply Matches_set_slash]]).
    + now left.
    + right. now apply (Matches_set_slash s i k).
  - intros (k & [Hb|Hs] & k2 & Ml & Mc); exists k;
      (split; [|exists k2; split; [assumption|now apply Matches_set_slash]]).
    + now left.
    + right. now apply (Matches_set_slash s i k).
Qed.

Lemma protected_re_folds (dir : string) :
  In dir PROTECTED_DIRS -> folds (re_source (protected_re dir)) = true.
Proof.
  intros [<-|[<-|[<-|[<-|[<-|[<-|[]]]]]]]; vm_compute; reflexivity.
Qed.

Lemma PROTECTED_DIRS_nonslash (dir : string) :
  In dir PROTECTED_DIRS -> Forall (fun x => x <> slash) (chars dir).
Proof.
  intros [<-|[<-|[<-|[<-|[<-|[<-|[]]]]]]]; repeat constructor; discriminate.
Qed.

Lemma folded_segments_chars (p : string) :
  map chars (folded_segments p)
  = split_chars "/" (chars (ascii_fold (replace_char bs "/" p))).
Proof.
  unfold folded_segments, split. rewrite map_map.
  rewrite (map_ext _ id); [apply map_id|]. intros l. apply chars_str.
Qed.

(** The test of one protected directory, on the segments of the path. *)
Lemma protected_re_segments (dir p : string) :
  In dir PROTECTED_DIRS ->
  test (protected_re dir) (replace_char bs "/" p) = true
  <-> exists init rest,
        folded_segments p = init ++ dir :: rest /\ rest <> [].
Proof.
  intros Hin.
  change (protected_re dir) with (re_i (re_source (protected_re dir))).
  rewrite (test_folds _ _ (protected_re_folds dir Hin)).
  set (folded := ascii_fold (replace_char bs "/" p)).
  assert (folded_segments p = map str (split_chars "/" (chars folded)))
    as Hstr by reflexivity.
  pose proof (folded_segments_chars p) as Hchars. fold folded in Hchars.
  rewrite test_Matches.
  change (re_ignoreCase (re_ (re_source (protected_re dir)))) with false.
  change (re_source (re_ (re_source (protected_re dir))))
    with (re_source (protected_re dir)).
  assert ((exists i j, i <= length (chars folded)
             /\ Matches false (chars folded)
                  (re_source (protected_re dir)) i j)
          <-> exists pre rest,
                chars folded = pre ++ chars dir ++ slash :: rest
                /\ boundary pre) as ->.
  { rewrite <- Matches_dir_slash.
    split; intros (i & j & Hi & M); exists i, j;
      (split; [assumption|now apply protected_source_slash]). }
  split.
  - intros (pre & tail & Hs & Hb).
    destruct (split_chars_after_sep slash pre
                (chars dir ++ slash :: tail) Hb) as (init & Hi).
    rewrite <- Hs in Hi. rewrite split_chars_app_sep in Hi.
    rewrite (split_chars_nosep slash (chars dir)) in Hi
      by now apply PROTECTED_DIRS_nonslash.
    exists (map str init), (map str (split_chars slash tail)). split.
    + rewrite Hstr. unfold slash in Hi. rewrite Hi.
      rewrite !map_app. cbn [map app]. now rewrite str_chars.
    + intros E. apply map_eq_nil in E. now apply split_chars_nonempty in E.
  - intros (init & rest & Hp & Hne).
    destruct rest as [|z zs]; [contradiction|].
    pose proof Hchars as Hc. rewrite Hp in Hc.
    rewrite map_app in Hc. simpl in Hc. symmetry in Hc.
    apply split_chars_middle in Hc.
    destruct Hc as (pre & tail & Hs & Hb & _).
    exists pre, tail. split; assumption.
Qed.

Lemma isProtected_intro (p dir : string) (init rest : list string) :
  In dir PROTECTED_DIRS ->
  folded_segments p = init ++ dir :: rest -> rest <> [] ->
  isProtected p = true.
Proof.
  intros Hin Hp Hne. unfold isProtected. rewrite existsb_exists. exists dir.
  split; [assumption|]. apply (protected_re_segments dir p Hin).
  now exists init, rest.
Qed.

(** X12. The hook's test for a protected path, on the segments of the
    path (backslashes read as slashes, the letters A to Z lower-cased,
    split at slashes): a path is protected exactly when one of its
    segments other than the last is one of agents, skills, commands,
    rules, hooks, scripts, written with the letters a to z in either case,
    at any depth.  The case of other letters is not folded: the test is a
    regular expression with the [i] flag and without the [u] flag, under
    which the Kelvin sign, which [toLowerCase] takes to [k], is not a
    [k]. *)
Theorem isProtected_segments (p : string) :
  isProtected p = true
  <-> exists dir init rest,
        In dir PROTECTED_DIRS
        /\ folded_segments p = init ++ dir :: rest /\ rest <> [].
Proof.
  split.
  - unfold isProtected. rewrite existsb_exists.
    intros (dir & Hin & Ht). apply (protected_re_segments dir p Hin) in Ht.
    destruct Ht as (init & rest & Hp & Hne). now exists dir, init, rest.
  - intros (dir & init & rest & Hin & Hp & Hne).
    now apply (isProtected_intro p dir init rest).
Qed.

Lemma ascii_fold_backslash (p : string) :
  toLowerCase p = ascii_fold p ->
  normalize p = ascii_fold (replace_char bs "/" p).
Proof.
  unfold normalize. induction p as [|c p IH]; [reflexivity|].
  cbn [toLowerCase ascii_fold replace_char]. intros [= Hc Hp].
  rewrite (IH Hp). f_equal.
  destruct (Ascii.eqb_spec c bs) as [->|_]; [reflexivity|exact Hc].
Qed.

(** X13. Every path that [detectContentType] gives a category lies
    under a protected directory, when [toLowerCase] changes nothing in
    the path but the letters A to Z: the hook's filter on protected paths
    then never lets content through that the scanner has rules for.  (The
    classifier lower-cases the path with [toLowerCase]; the filter folds
    the letters A to Z only.) *)
Theorem classified_is_protected (p : string) :
  toLowerCase p = ascii_fold p ->
  detectContentType p <> unknown -> isProtected p = true.
Proof.
  intros Hfold Hd.
  assert (folded_segments p = path_segments p) as Hseg.
  { unfold folded_segments, path_segments.
    now rewrite (ascii_fold_backslash p Hfold). }
  revert Hd. unfold detectContentType.
  destruct (test (direct_child_re "agents" ".md") (normalize p)) eqn:Ea.
  { intros _. apply (direct_child_segments "agents" ".md" p md_nonslash) in Ea.
    destruct Ea as (init & file & Hp & _).
    apply (isProtected_intro p "agents" init [file]); [simpl; auto 10|now rewrite Hseg|discriminate]. }
  destruct (test under_skills_re (normalize p) && endsWith (normalize p) ".md")
    eqn:Es.
  { intros _. apply andb_true_iff in Es. destruct Es as [Es _].
    apply under_skills_segments in Es. destruct Es as (init & rest & Hp & Hne).
    apply (isProtected_intro p "skills" init rest); [simpl; auto 10|now rewrite Hseg|assumption]. }
  destruct (test (direct_child_re "commands" ".md") (normalize p)) eqn:Ec.
  { intros _. apply (direct_child_segments "commands" ".md" p md_nonslash) in Ec.
    destruct Ec as (init & file & Hp & _).
    apply (isProtected_intro p "commands" init [file]); [simpl; auto 10|now rewrite Hseg|discriminate]. }
  destruct (test (direct_child_re "rules" ".md") (normalize p)) eqn:Er.
  { intros _. apply (direct_child_segments "rules" ".md" p md_nonslash) in Er.
    destruct Er as (init & file & Hp & _).
    apply (isProtected_intro p "rules" init [file]); [simpl; auto 10|now rewrite Hseg|discriminate]. }
  destruct (test hooks_json_re (normalize p)) eqn:Eh.
  { intros _. apply hooks_json_segments in Eh. destruct Eh as (init & Hp).
    apply (isProtected_intro p "hooks" init ["hooks.json"]); [simpl; auto 10|now rewrite Hseg|discriminate]. }
  destruct (test hook_script_re (normalize p)) eqn:Ej; [|congruence].
  intros _.
  apply (direct_child_segments "scripts/hooks" ".js" p js_nonslash) in Ej.
  destruct Ej as (init & file & Hp & _).
  apply (isProtected_intro p "scripts" init ["hooks"; file]); [simpl; auto 10|now rewrite Hseg|discriminate].
Qed.

Lemma classified_is_protected_witness :
  isProtected "C:\Work\Plugin\AGENTS\Reviewer.MD" = true.
Proof.
  apply classified_is_protected; [reflexivity|]. vm_compute. discriminate.
Defined.

(* ===================================================================== *)
(** * Package manager detection *)
(* ===================================================================== *)

Section Detection.
Import PackageManager.
Variable existsSync : string -> result bool.
Variable dir : string.

Lemma first_lock_spec (entries : list LockFile) (d : Detected) :
  first_lock existsSync dir entries = Some d
  <-> exists pre entry post,
        entries = pre ++ entry :: post
        /\ d = mkDetected (lock_name entry) "lockfile"
        /\ existsSync (Path.join dir (lock_file entry)) = Ok true
        /\ Forall (fun e => existsSync (Path.join dir (lock_file e)) <> Ok true)
                  pre.
Proof.
  induction entries as [|e rest IH]; cbn [first_lock].
  - split; [discriminate|]. intros (pre & entry & post & H & _).
    now destruct pre.
  - destruct (existsSync (Path.join dir (lock_file e))) as [[|]|msg] eqn:E.
    + split.
      * intros [= <-]. exists [], e, rest. repeat split; [assumption|constructor].
      * intros (pre & entry & post & H & -> & Hex & Hpre).
        destruct pre as [|x pre]; simplify_eq/=; [reflexivity|].
        inversion Hpre; subst. congruence.
    + rewrite IH. split.
      * intros (pre & entry & post & -> & -> & Hex & Hpre).
        exists (e :: pre), entry, post. repeat split; [assumption|].
        constructor; [congruence|assumption].
      * intros (pre & entry & post & H & -> & Hex & Hpre).
        destruct pre as [|x pre]; simplify_eq/=; [congruence|].
        inversion Hpre; subst. now exists pre, entry, post.
    + rewrite IH. split.
      * intros (pre & entry & post & -> & -> & Hex & Hpre).
        exists (e :: pre), entry, post. repeat split; [assumption|].
        constructor; [congruence|assumption].
      * intros (pre & entry & post & H & -> & Hex & Hpre).
        destruct pre as [|x pre]; simplify_eq/=; [congruence|].
        inversion Hpre; subst. now exists pre, entry, post.
Qed.

Lemma first_lock_none (entries : list LockFile) :
  first_lock existsSync dir entries = None
  <-> Forall (fun e => existsSync (Path.join dir (lock_file e)) <> Ok true)
             entries.
Proof.
  induction entries as [|e rest IH]; cbn [first_lock].
  - split; [constructor|reflexivity].
  - destruct (existsSync (Path.join dir (lock_file e))) as [[|]|msg] eqn:E.
    + split; [discriminate|]. intros H. inversion H; subst. congruence.
    + rewrite IH. split; [intros H; constructor; [congruence|assumption]|].
      intros H. now inversion H.
    + rewrite IH. split; [intros H; constructor; [congruence|assumption]|].
      intros H. now inversion H.
Qed.
End Detection.

(** X14. [getPackageManager] names the manager of the first lock file,
    in the order pnpm, yarn, bun, npm, that exists in the working
    directory; a lock file whose test throws counts as absent.  When none
    exists, or the working directory cannot be told, the answer is npm
    with source fallback.  The source is never default. *)
Theorem getPackageManager_first_lockfile :
  forall (existsSync : string -> result bool) (cwd : result string),
    (forall dir name,
       cwd = Ok dir ->
       (fst (PackageManager.getPackageManager cwd existsSync)
        = PackageManager.mkDetected name "lockfile"
        <-> exists pre entry post,
              PackageManager.LOCK_FILES = pre ++ entry :: post
              /\ PackageManager.lock_name entry = name
              /\ existsSync (Path.join dir (PackageManager.lock_file entry))
                 = Ok true
              /\ Forall (fun e =>
                   existsSync (Path.join dir (PackageManager.lock_file e))
                   <> Ok true) pre))
    /\ (fst (PackageManager.getPackageManager cwd existsSync)
        = PackageManager.mkDetected "npm" "fallback"
        <-> match cwd with
            | Throw _ => True
            | Ok dir =>
                Forall (fun e =>
                  existsSync (Path.join dir (PackageManager.lock_file e))
                  <> Ok true) PackageManager.LOCK_FILES
            end)
    /\ PackageManager.pm_source
         (fst (PackageManager.getPackageManager cwd existsSync)) <> "default".
Proof.
  intros existsSync cwd. split; [|split].
  - intros dir name ->. cbn [PackageManager.getPackageManager fst].
    destruct (PackageManager.first_lock existsSync dir PackageManager.LOCK_FILES)
      as [d|] eqn:E; cbn [default from_option id].
    + apply first_lock_spec in E.
      destruct E as (pre & entry & post & HL & -> & Hex & Hpre). split.
      * intros [= <-]. now exists pre, entry, post.
      * intros (pre' & entry' & post' & HL' & <- & Hex' & Hpre').
        assert (PackageManager.first_lock existsSync dir PackageManager.LOCK_FILES
                = Some (PackageManager.mkDetected
                          (PackageManager.lock_name entry') "lockfile")) as H1
          by (apply first_lock_spec; now exists pre', entry', post').
        assert (PackageManager.first_lock existsSync dir PackageManager.LOCK_FILES
                = Some (PackageManager.mkDetected
                          (PackageManager.lock_name entry) "lockfile")) as H2
          by (apply first_lock_spec; now exists pre, entry, post).
        congruence.
    + split; [discriminate|].
      intros (pre & entry & post & HL & <- & Hex & Hpre).
      assert (PackageManager.first_lock existsSync dir PackageManager.LOCK_FILES
              = Some (PackageManager.mkDetected
                        (PackageManager.lock_name entry) "lockfile")) as H1
        by (apply first_lock_spec; now exists pre, entry, post).
      congruence.
  - destruct cwd as [dir|msg]; cbn [PackageManager.getPackageManager fst];
      [|tauto].
    rewrite <- first_lock_none.
    destruct (PackageManager.first_lock existsSync dir PackageManager.LOCK_FILES)
      as [d|] eqn:E; cbn [default from_option id]; [|tauto].
    apply first_lock_spec in E. destruct E as (_ & entry & _ & _ & -> & _).
    split; [discriminate|discriminate].
  - destruct cwd as [dir|msg]; cbn [PackageManager.getPackageManager fst];
      [|discriminate].
    destruct (PackageManager.first_lock existsSync dir PackageManager.LOCK_FILES)
      as [d|] eqn:E; cbn [default from_option id]; [|discriminate].
    apply first_lock_spec in E. destruct E as (_ & entry & _ & _ & -> & _).
    discriminate.
Qed.

Lemma getPackageManager_first_lockfile_witness :
  fst (PackageManager.getPackageManager (Ok "/work/app")
         (fun p => if String.eqb p "/work/app/pnpm-lock.yaml"
                   then Throw "EACCES"
                   else Ok (String.eqb p "/work/app/package-lock.json"
                            || String.eqb p "/work/app/bun.lockb")))
  = PackageManager.mkDetected "bun" "lockfile".
Proof.
  apply (proj1 (getPackageManager_first_lockfile _ (Ok "/work/app"))
           "/work/app" "bun" eq_refl).
  exists [PackageManager.mkLockFile "pnpm-lock.yaml" "pnpm";
          PackageManager.mkLockFile "yarn.lock" "yarn"],
         (PackageManager.mkLockFile "bun.lockb" "bun"),
         [PackageManager.mkLockFile "package-lock.json" "npm"].
  split; [reflexivity|]. split; [reflexivity|]. split; [reflexivity|].
  repeat constructor; vm_compute; discriminate.
Defined.

(* ===================================================================== *)
(** * The command-line modes *)
(* ===================================================================== *)

(** ** The walk of a directory *)

Lemma node_induction (P : Fs.node -> Prop) :
  (forall content, P (Fs.File content)) ->
  (forall msg, P (Fs.Dir (Throw msg))) ->
  (forall entries, Forall (fun e => P (snd e)) entries ->
                   P (Fs.Dir (Ok entries))) ->
  forall n, P n.
Proof.
  intros Hf Ht Hd. fix IH 1. intros [content|[entries|msg]].
  - apply Hf.
  - apply Hd. induction entries as [|[name c] rest IHrest].
    + constructor.
    + constructor; [apply IH|exact IHrest].
  - apply Ht.
Qed.

Lemma joined_cons (dir name : string) (names : list string) :
  joined dir (name :: names) = joined (Path.join dir name) names.
Proof. reflexivity. Qed.

(** X15. [walkDir] lists the files that a chain of names reaches from
    the directory without entering a directory called [node_modules] or
    [.git], each under the path that joins the directory and the names; a
    directory that cannot be listed hides the files below it and nothing
    else. *)
Theorem walk_lists :
  forall (n : Fs.node) (dir p : string),
    In p (fst (Cli.walk dir n))
    <-> exists names, listed n names /\ p = joined dir names.
Proof.
  induction n as [content|msg|entries IH] using node_induction; intros dir p.
  - cbn [Cli.walk fst]. split; [intros []|].
    intros (names & Hl & _). inversion Hl.
  - cbn [Cli.walk fst]. split; [intros []|].
    intros (names & Hl & _). inversion Hl.
  - cbn [Cli.walk].
    match goal with
    | |- In p (fst (?f entries)) <-> _ => set (each := f)
    end.
    assert (forall l, Forall (fun e => forall dir p,
                        In p (fst (Cli.walk dir (snd e)))
                        <-> exists names, listed (snd e) names
                                          /\ p = joined dir names) l ->
              In p (fst (each l))
              <-> exists name c, In (name, c) l
                  /\ match c with
                     | Fs.File _ => p = Path.join dir name
                     | Fs.Dir _ =>
                         Cli.skipped name = false
                         /\ exists names, listed c names
                              /\ p = joined (Path.join dir name) names
                     end) as Heach.
    { induction l as [|[name c] rest IHrest]; intros Hall.
      - cbn. split; [intros []|]. intros (name & c & [] & _).
      - inversion Hall as [|? ? Hc Hrest]; subst.
        cbn [each fst snd]. fold each. rewrite in_app_iff.
        rewrite (IHrest Hrest). clear IHrest. split.
        + intros [Hin|(name' & c' & Hin & H)].
          * exists name, c. split; [now left|].
            destruct c as [content|sub].
            -- destruct Hin as [<-|[]]. reflexivity.
            -- destruct (Cli.skipped name) eqn:Es; [destruct Hin|].
               split; [reflexivity|]. now apply (Hc (Path.join dir name) p).
          * exists name', c'. split; [now right|assumption].
        + intros (name' & c' & [Heq|Hin] & H).
          * injection Heq as Hn Hc'. subst name' c'.
            left. destruct c as [content|sub].
            -- now left.
            -- destruct H as [-> H]. now apply (Hc (Path.join dir name) p).
          * right. now exists name', c'. }
    rewrite (Heach entries IH). clear Heach. split.
    + intros (name & c & Hin & H). destruct c as [content|sub].
      * exists [name]. split; [now apply listed_file with (content := content)|].
        exact H.
      * destruct H as (Hs & names & Hl & ->).
        exists (name :: names). split; [|reflexivity].
        now apply listed_below with (sub := sub).
    + intros (names & Hl & ->). inversion Hl as [? name content Hin|? name sub rest Hin Hs Hsub]; subst.
      * exists name, (Fs.File content). split; [assumption|reflexivity].
      * exists name, (Fs.Dir sub). split; [assumption|].
        split; [assumption|]. now exists rest.
Qed.

(** ** Scan mode *)

Section ScanMode.
Variable JSON_parse : string -> option (list jsval).
Variable JSON_stringify : list jsval -> string.

Abbreviation scan_file := (Cli.scan_file JSON_parse JSON_stringify).
Abbreviation scan_dir := (Cli.scan_dir JSON_parse JSON_stringify).
Abbreviation runScanMode := (Cli.runScanMode JSON_parse JSON_stringify).
Abbreviation found_in := (found_in JSON_parse JSON_stringify).

(** What one file adds to the tally, whatever the state of the regular
    expressions. *)
Lemma scan_file_tally (env : Env) (root : Fs.node) (config : option Config)
    (st : World * Cli.Tally) (filePath : string) :
  Cli.allFindings (snd (scan_file env root config st filePath))
  = Cli.allFindings (snd st) ++ found_in env root config filePath
  /\ Cli.totalFiles (snd (scan_file env root config st filePath))
     = Cli.totalFiles (snd st) + (if taken_up env filePath then 1 else 0).
Proof.
  unfold Cli.scan_file, Spec.found_in, taken_up.
  destruct (test Cli.scanned_ext_re filePath); cbn [negb andb].
  2:{ rewrite app_nil_r. split; [reflexivity|lia]. }
  destruct (includes SELF_PATHS (Cli.relPath_of env filePath)); cbn [negb].
  { rewrite app_nil_r. split; [reflexivity|lia]. }
  destruct (Fs.readFileSync root filePath) as [content|msg].
  2:{ cbn [snd Cli.allFindings Cli.totalFiles]. rewrite app_nil_r.
      split; [reflexivity|lia]. }
  destruct (bool_decide (detectContentType filePath = unknown)) eqn:Eu.
  { apply bool_decide_eq_true in Eu. rewrite Eu.
    rewrite scan_unknown. cbn [fst snd map Cli.allFindings Cli.totalFiles].
    rewrite app_nil_r. split; [reflexivity|lia]. }
  pose proof (scanContent_fst JSON_parse JSON_stringify (regexes (fst st)) ∅
                content (detectContentType filePath) config) as Hh.
  destruct (scanContent JSON_parse JSON_stringify (regexes (fst st)) content
              (detectContentType filePath) config) as [r h].
  cbn [fst] in Hh. rewrite <- Hh.
  destruct r as [findings|msg]; cbn [snd Cli.allFindings Cli.totalFiles].
  - split; [reflexivity|lia].
  - rewrite app_nil_r. split; [reflexivity|lia].
Qed.

Lemma scan_files_tally (env : Env) (root : Fs.node) (config : option Config)
    (files : list string) :
  forall st : World * Cli.Tally,
    Cli.allFindings (snd (fold_left (scan_file env root config) files st))
    = Cli.allFindings (snd st) ++ flat_map (found_in env root config) files
    /\ Cli.totalFiles (snd (fold_left (scan_file env root config) files st))
       = Cli.totalFiles (snd st) + length (List.filter (taken_up env) files).
Proof.
  induction files as [|f rest IH]; intros st; cbn [fold_left flat_map List.filter].
  - rewrite app_nil_r. split; [reflexivity|simpl; lia].
  - destruct (IH (scan_file env root config st f)) as [-> ->].
    destruct (scan_file_tally env root config st f) as [-> ->].
    rewrite <- app_assoc. split; [reflexivity|].
    destruct (taken_up env f); simpl; lia.
Qed.

Lemma scan_dirs_tally (env : Env) (root : Fs.node) (config : option Config)
    (dirs : list string) :
  forall st : World * Cli.Tally,
    Cli.allFindings (snd (fold_left (scan_dir env root config) dirs st))
    = Cli.allFindings (snd st)
      ++ flat_map (found_in env root config) (files_below root dirs)
    /\ Cli.totalFiles (snd (fold_left (scan_dir env root config) dirs st))
       = Cli.totalFiles (snd st)
         + length (List.filter (taken_up env) (files_below root dirs)).
Proof.
  unfold files_below.
  induction dirs as [|d rest IH]; intros st; cbn [fold_left flat_map].
  - cbn [List.filter]. rewrite app_nil_r. split; [reflexivity|simpl; lia].
  - destruct (IH (scan_dir env root config st d)) as [-> ->].
    unfold Cli.scan_dir.
    destruct (Fs.existsSync root d); cbn [negb].
    + destruct (scan_files_tally env root config (fst (Cli.walkDir root d))
                  (console_errors (fst st) (snd (Cli.walkDir root d)), snd st))
        as [-> ->].
      cbn [snd]. rewrite flat_map_app, List.filter_app, length_app, <- app_assoc.
      split; [reflexivity|lia].
    + cbn [app]. split; reflexivity.
Qed.

Lemma of_severity_critical (findings : list Cli.FileFinding) :
  (0 <? length (Cli.of_severity CRITICAL findings))%nat = any_critical findings.
Proof.
  unfold Cli.of_severity, any_critical.
  induction findings as [|f r IH]; simpl; [reflexivity|].
  destruct (bool_decide (Cli.ff_severity f = CRITICAL)); simpl; [reflexivity|].
  exact IH.
Qed.

(** X16. Scan mode, on a root that its guard accepts.  The findings are
    those of the walked files, file by file in the order of the walk, each
    file scanned on its own: a file contributes what [scanContent] finds
    in it, under its path relative to the plugin directory, and nothing if
    its name does not end in [.md], [.js] or [.json] (in lower case), if it
    is one of the scanner's own files, if it cannot be read, or if the
    scanner throws on it.  The count of scanned files is that of the files
    taken up, readable or not.  The audit log gets one entry with these,
    unless its path cannot be resolved (the configuration is [null], or
    [auditLogPath] is a truthy value that is not a string) or the append
    fails, and the exit status is 1 exactly when some finding is
    CRITICAL. *)
Theorem scan_mode_findings :
  forall (env : Env) (root : Fs.node) (w : World) (targetDir : option string),
    startsWith (Cli.scanRoot_of env targetDir) (PLUGIN_DIR env) = true ->
    Cli.o_log (runScanMode env root w targetDir)
    = match rbind (property (fst (loadConfig env w)) "auditLogPath" id)
                  (auditLogDestination env) with
      | Throw _ => []
      | Ok dest =>
          match append_error env dest with
          | Some _ => []
          | None =>
              [(dest,
                Cli.FullScan (now env) "full-scan" "manual"
                  (length (List.filter (taken_up env)
                             (files_below root (Cli.dirsToScan env targetDir))))
                  (length (flat_map
                             (found_in env root (fst (loadConfig env w)))
                             (files_below root
                                (Cli.dirsToScan env targetDir))))
                  (flat_map (found_in env root (fst (loadConfig env w)))
                     (files_below root (Cli.dirsToScan env targetDir))))]
          end
      end
    /\ Cli.o_exit (runScanMode env root w targetDir)
       = (if any_critical
               (flat_map (found_in env root (fst (loadConfig env w)))
                  (files_below root (Cli.dirsToScan env targetDir)))
          then 1 else 0).
Proof.
  intros env root w targetDir Hg. unfold Cli.runScanMode. rewrite Hg.
  cbn [negb Cli.o_log Cli.o_exit].
  destruct (scan_dirs_tally env root (fst (loadConfig env w))
              (Cli.dirsToScan env targetDir)
              (snd (loadConfig env w), Cli.mkTally 0 [])) as [Hf Ht].
  cbn [snd Cli.allFindings Cli.totalFiles app] in Hf, Ht.
  rewrite Hf, Ht, of_severity_critical. split; [|reflexivity].
  unfold Cli.writeAuditLog.
  destruct (rbind _ _) as [dest|msg]; [|reflexivity].
  destruct (append_error env dest); reflexivity.
Qed.
End ScanMode.

Lemma scan_mode_findings_witness :
  Cli.o_log (Samples.scan_mode None)
  = match rbind (property (fst (loadConfig (Samples.env_with Samples.no_config)
                                  Samples.fresh)) "auditLogPath" id)
                (auditLogDestination (Samples.env_with Samples.no_config)) with
    | Throw _ => []
    | Ok dest =>
        match append_error (Samples.env_with Samples.no_config) dest with
        | Some _ => []
        | None =>
            [(dest,
              Cli.FullScan (now (Samples.env_with Samples.no_config))
                "full-scan" "manual"
                (length (List.filter
                           (taken_up (Samples.env_with Samples.no_config))
                           (files_below Samples.plugin_tree
                              (Cli.dirsToScan
                                 (Samples.env_with Samples.no_config) None))))
                (length (flat_map
                           (found_in SampleHost.JSON_parse
                              SampleHost.JSON_stringify
                              (Samples.env_with Samples.no_config)
                              Samples.plugin_tree
                              (fst (loadConfig
                                      (Samples.env_with Samples.no_config)
                                      Samples.fresh)))
                           (files_below Samples.plugin_tree
                              (Cli.dirsToScan
                                 (Samples.env_with Samples.no_config) None))))
                (flat_map
                   (found_in SampleHost.JSON_parse SampleHost.JSON_stringify
                      (Samples.env_with Samples.no_config) Samples.plugin_tree
                      (fst (loadConfig (Samples.env_with Samples.no_config)
                              Samples.fresh)))
                   (files_below Samples.plugin_tree
                      (Cli.dirsToScan (Samples.env_with Samples.no_config)
                         None))))]
        end
    end
  /\ Cli.o_exit (Samples.scan_mode None)
     = (if any_critical
             (flat_map
                (found_in SampleHost.JSON_parse SampleHost.JSON_stringify
                   (Samples.env_with Samples.no_config) Samples.plugin_tree
                   (fst (loadConfig (Samples.env_with Samples.no_config)
                           Samples.fresh)))
                (files_below Samples.plugin_tree
                   (Cli.dirsToScan (Samples.env_with Samples.no_config) None)))
        then 1 else 0).
Proof.
  apply (scan_mode_findings SampleHost.JSON_parse SampleHost.JSON_stringify
           (Samples.env_with Samples.no_config) Samples.plugin_tree
           Samples.fresh None).
  vm_compute. reflexivity.
Defined.

(** The sample plugin in scan mode: of the six files walked, four are
    taken up, and one finding is reported; the secret in the agent on
    which the scanner throws is not. *)
Example scan_mode_sample :
  Cli.o_exit (Samples.scan_mode None) = 1
  /\ Cli.o_log (Samples.scan_mode None)
     = [("/opt/ewave/logs/security-audit.jsonl",
         Cli.FullScan "2026-01-01T00:00:00.000Z" "full-scan" "manual" 4 1
           [Cli.mkFileFinding Samples.secret_finding "agents/x.md"])]
  /\ stderr (Cli.o_world (Samples.scan_mode None))
     = [ "[SCAN] Error reading /opt/ewave/agents/broken.md: (frontmatter.name || "
           +:+ quote +:+ quote +:+ ").toLowerCase is not a function";
         "[SCAN] Error reading /opt/ewave/agents/locked.md: EACCES: permission denied";
         "[SCAN] Cannot read directory /opt/ewave/rules: EACCES: permission denied" ].
Proof. vm_compute. repeat split; reflexivity. Qed.

(** ** Check-path mode *)

Lemma readFileSync_exists (root : Fs.node) (p content : string) :
  Fs.readFileSync root p = Ok content -> Fs.existsSync root p = true.
Proof.
  unfold Fs.readFileSync, Fs.existsSync.
  destruct (Fs.at_path root p) as [[c|d]|]; [reflexivity|reflexivity|discriminate].
Qed.

Lemma cli_writeAuditLog_world (env : Env) (w : World)
    (config : option Config) (entry : string -> Cli.LogEntry) :
  stdout (fst (Cli.writeAuditLog env w config entry)) = stdout w
  /\ snd (Cli.writeAuditLog env w config entry)
     = match rbind (property config "auditLogPath" id)
                   (auditLogDestination env) with
       | Throw _ => []
       | Ok dest =>
           match append_error env dest with
           | Some _ => []
           | None => [(dest, entry (now env))]
           end
       end.
Proof.
  unfold Cli.writeAuditLog.
  destruct (rbind _ _) as [dest|msg]; [|split; reflexivity].
  destruct (append_error env dest); split; reflexivity.
Qed.

Section CheckPath.
Variable JSON_parse : string -> option (list jsval).
Variable JSON_stringify : list jsval -> string.

Abbreviation scanContent := (scanContent JSON_parse JSON_stringify).
Abbreviation runCheckPathMode :=
  (Cli.runCheckPathMode JSON_parse JSON_stringify).

(** X17. Check-path mode reports and does not block.  Once the path is
    resolved, the exit status is 0 whatever is found.  A file that is
    read, classified and scanned, and for whose findings [getAction]
    returns an action, gives one entry in the audit log (unless the path
    of the log cannot be resolved or the append fails), with the findings
    and that action, and nothing on standard output but the line that
    calls a file without findings clean.  A file that is missing,
    unreadable or of no known category, or on which the scanner or
    [getAction] throws, gives no entry.  The path is resolved outside the
    [try] block: when [process.cwd()] throws on a relative path, nothing
    is logged or printed on standard output, and the exit status is the 1
    of an error that nothing catches. *)
Theorem check_path_advisory :
  forall (env : Env) (root : Fs.node) (w : World) (filePath : string),
    (forall resolved,
       resolve_cwd env filePath = Ok resolved ->
       Cli.o_exit (runCheckPathMode env root w filePath) = 0
       /\ (forall content findings action,
             Fs.readFileSync root resolved = Ok content ->
             detectContentType resolved <> unknown ->
             fst (scanContent (regexes w) content
                    (detectContentType resolved)
                    (fst (loadConfig env w))) = Ok findings ->
             getAction findings (fst (loadConfig env w)) = Ok action ->
             Cli.o_log (runCheckPathMode env root w filePath)
             = match rbind (property (fst (loadConfig env w))
                              "auditLogPath" id)
                           (auditLogDestination env) with
               | Throw _ => []
               | Ok dest =>
                   match append_error env dest with
                   | Some _ => []
                   | None =>
                       [(dest,
                         Cli.CheckPath (now env) "check-path"
                           "PostToolUse-Bash" resolved
                           (detectContentType resolved) findings action)]
                   end
               end
             /\ stdout (Cli.o_world (runCheckPathMode env root w filePath))
                = stdout w
                  ++ (if (length findings =? 0)%nat
                      then ["[SECURITY GATE] "
                            +:+ Path.basename resolved +:+ ": CLEAN"]
                      else []))
       /\ ((forall content,
              Fs.readFileSync root resolved = Ok content ->
              detectContentType resolved = unknown
              \/ (exists msg,
                    fst (scanContent (regexes w) content
                           (detectContentType resolved)
                           (fst (loadConfig env w))) = Throw msg)
              \/ (exists findings msg,
                    fst (scanContent (regexes w) content
                           (detectContentType resolved)
                           (fst (loadConfig env w))) = Ok findings
                    /\ getAction findings (fst (loadConfig env w))
                       = Throw msg)) ->
           Cli.o_log (runCheckPathMode env root w filePath) = []))
    /\ (forall msg,
          resolve_cwd env filePath = Throw msg ->
          Cli.o_exit (runCheckPathMode env root w filePath) = 1
          /\ Cli.o_log (runCheckPathMode env root w filePath) = []
          /\ stdout (Cli.o_world (runCheckPathMode env root w filePath))
             = stdout w).
Proof.
  intros env root w filePath.
  pose proof (loadConfig_world env w) as (Hout & _ & Hre).
  unfold Cli.runCheckPathMode.
  set (config := fst (loadConfig env w)).
  set (w1 := snd (loadConfig env w)) in *.
  destruct (resolve_cwd env filePath) as [resolved|e].
  2:{ split; [discriminate|]. intros msg _. cbn [Cli.o_exit Cli.o_log Cli.o_world].
      rewrite (proj1 (console_errors_world _ w1)). auto. }
  split; [|discriminate]. intros r [= <-].
  destruct (Fs.existsSync root resolved) eqn:Eex; cbn [negb].
  2:{ split; [reflexivity|]. split; [|reflexivity].
      intros content findings action Hread.
      apply readFileSync_exists in Hread. congruence. }
  destruct (Fs.readFileSync root resolved) as [content|msg] eqn:Eread.
  2:{ split; [reflexivity|]. split; [discriminate|reflexivity]. }
  destruct (bool_decide (detectContentType resolved = unknown)) eqn:Eu.
  { apply bool_decide_eq_true in Eu.
    split; [reflexivity|]. split; [|reflexivity].
    intros c fs ac _ Hne. contradiction. }
  apply bool_decide_eq_false in Eu. rewrite Hre.
  destruct (scanContent (regexes w) content (detectContentType resolved)
              config) as [[findings|msg] h] eqn:Es;
    cbn [Cli.o_exit Cli.o_log Cli.o_world].
  2:{ split; [reflexivity|]. split; [|reflexivity].
      intros c fs ac [= <-]. rewrite Es. cbn [fst]. intros _ H.
      discriminate H. }
  split; [reflexivity|]. unfold Cli.check_report.
  destruct (getAction findings config) as [action|e] eqn:Ea.
  2:{ cbn [fst snd]. split; [|reflexivity].
      intros c fs ac [= <-]. rewrite Es. cbn [fst]. intros _ [= <-].
      rewrite Ea. discriminate. }
  cbv zeta.
  match goal with
  | |- context [Cli.writeAuditLog env ?w2 config ?entry] =>
      destruct (cli_writeAuditLog_world env w2 config entry) as [Hwo Hwl];
      set (logged := Cli.writeAuditLog env w2 config entry) in *
  end.
  cbn [stdout set_regexes] in Hwo. cbn [fst snd]. split.
  - intros c fs ac [= <-]. rewrite Es. cbn [fst]. intros _ [= <-].
    rewrite Ea. intros [= <-].
    split; [exact Hwl|].
    destruct (length findings =? 0)%nat.
    + cbn [stdout console_log]. now rewrite Hwo, Hout.
    + rewrite app_nil_r.
      destruct (0 <? length (with_severity CRITICAL findings))%nat;
        rewrite (proj1 (console_errors_world _ (fst logged))), Hwo;
        exact Hout.
  - intros Hnone.
    destruct (Hnone content eq_refl)
      as [Hu|[(msg & Hm)|(fs & msg & Hm & Hg)]].
    + contradiction.
    + rewrite Es in Hm. cbn [fst] in Hm. discriminate.
    + rewrite Es in Hm. cbn [fst] in Hm. injection Hm as <-.
      rewrite Ea in Hg. discriminate.
Qed.
End CheckPath.

Lemma check_path_advisory_witness :
  Cli.o_log (Samples.check_path "agents/x.md")
  = match rbind (property (fst (loadConfig (Samples.env_with Samples.no_config)
                                  Samples.fresh)) "auditLogPath" id)
                (auditLogDestination (Samples.env_with Samples.no_config)) with
    | Throw _ => []
    | Ok dest =>
        match append_error (Samples.env_with Samples.no_config) dest with
        | Some _ => []
        | None =>
            [(dest,
              Cli.CheckPath (now (Samples.env_with Samples.no_config))
                "check-path" "PostToolUse-Bash" "/opt/ewave/agents/x.md"
                (detectContentType "/opt/ewave/agents/x.md")
                [Samples.secret_finding] BLOCK)]
        end
    end
  /\ stdout (Cli.o_world (Samples.check_path "agents/x.md"))
     = stdout Samples.fresh
       ++ (if (length [Samples.secret_finding] =? 0)%nat
           then ["[SECURITY GATE] "
                 +:+ Path.basename "/opt/ewave/agents/x.md" +:+ ": CLEAN"]
           else []).
Proof.
  apply (proj1 (proj2 (proj1 (check_path_advisory SampleHost.JSON_parse
                                SampleHost.JSON_stringify
                                (Samples.env_with Samples.no_config)
                                Samples.plugin_tree Samples.fresh
                                "agents/x.md")
                         "/opt/ewave/agents/x.md" eq_refl))
           Samples.secret_line [Samples.secret_finding] BLOCK).
  - vm_compute. reflexivity.
  - vm_compute. discriminate.
  - vm_compute. reflexivity.
  - vm_compute. reflexivity.
Defined.

(** With the working directory gone, a relative path is not resolved:
    nothing is scanned or logged, and the exit status is 1. *)
Example check_path_cwd_gone :
  Cli.o_exit
    (Cli.runCheckPathMode SampleHost.JSON_parse SampleHost.JSON_stringify
       (mkEnv "/opt/ewave"
          (Throw "ENOENT: no such file or directory, uv_cwd")
          (Loaded (Some Samples.no_config)) "2026-01-01T00:00:00.000Z"
          (fun _ => None) (fun _ => "") (fun msg => ["Uncaught " +:+ msg]))
       Samples.plugin_tree Samples.fresh "agents/x.md") = 1.
Proof. reflexivity. Qed.

(** The same secret, checked after the fact: it is logged as blocked and
    reported on standard error, and the exit status is 0. *)
Example check_path_sample :
  Cli.o_exit (Samples.check_path "agents/x.md") = 0
  /\ Cli.o_log (Samples.check_path "agents/x.md")
     = [("/opt/ewave/logs/security-audit.jsonl",
         Cli.CheckPath "2026-01-01T00:00:00.000Z" "check-path"
           "PostToolUse-Bash" "/opt/ewave/agents/x.md" agent
           [Samples.secret_finding] BLOCK)]
  /\ stdout (Cli.o_world (Samples.check_path "agents/x.md")) = [].
Proof. vm_compute. repeat split; reflexivity. Qed.

(* ===================================================================== *)
(** * Rules given by a regular expression *)
(* ===================================================================== *)

Lemma test_smatch (re : regexp) (line : string) :
  test re line = true <-> exists m, smatch re line = Some m.
Proof.
  unfold test, smatch. destruct (fst (exec re 0 line)) as [m|].
  - split; [intros _; now exists m|reflexivity].
  - split; [discriminate|]. intros (m & H). discriminate.
Qed.

Lemma match_rule_smatch (h : heap) (id : string) (re : regexp) (s : string) :
  re_global re = false -> fst (match_rule h id re s) = smatch re s.
Proof.
  intros Hg. unfold match_rule, smatch.
  destruct (exec_no_g re (default 0 (h !! id)) 0 s Hg) as [E _].
  destruct (exec re (default 0 (h !! id)) s) as [m li]. exact E.
Qed.

(** The loop over the lines stops at the first line that matches. *)
Lemma scan_lines_first (p : Pattern) (re : regexp) :
  re_global re = false ->
  forall (ls : list string) (h : heap) (i : nat),
    match fst (scan_lines h p re ls i) with
    | Some f =>
        exists k line m,
          ls !! k = Some line /\ smatch re line = Some m
          /\ (forall j l, j < k -> ls !! j = Some l -> test re l = false)
          /\ f = mkFinding (p_severity p) (p_id p) (p_description p)
                   (i + k + 1) (truncate (m0 m) 120)
    | None => forall k l, ls !! k = Some l -> test re l = false
    end.
Proof.
  intros Hg. induction ls as [|l rest IH]; intros h i; cbn [scan_lines].
  - cbn [fst]. intros k l H. destruct k; discriminate.
  - pose proof (match_rule_smatch h (p_id p) re l Hg) as Hm.
    destruct (match_rule h (p_id p) re l) as [[m|] h1]; cbn [fst] in Hm.
    + cbn [fst]. exists 0, l, m. split; [reflexivity|].
      split; [now symmetry|]. split; [intros j ? Hj; lia|].
      now rewrite Nat.add_0_r.
    + assert (test re l = false) as Hl.
      { destruct (test re l) eqn:E; [|reflexivity].
        apply test_smatch in E. destruct E as (m & E). congruence. }
      specialize (IH h1 (S i)).
      destruct (fst (scan_lines h1 p re rest (S i))) as [f|].
      * destruct IH as (k & line & m & Hk & Hs & Hfirst & ->).
        exists (S k), line, m. split; [exact Hk|]. split; [exact Hs|].
        split.
        -- intros [|j] x Hj Hx; [now injection Hx as <-|].
           apply (Hfirst j x); [lia|exact Hx].
        -- f_equal. lia.
      * intros [|k] x Hx; [now injection Hx as <-|]. now apply (IH k x).
Qed.

Section Complete.
Variables (content : string) (lines : list string)
          (fm : option frontmatter) (config : option Config)
          (contentType : ContentType) (allowed : json).

(** A finding that the loop has, it keeps; and what a rule that applies
    pushes is among the findings at the end. *)
Lemma scan_patterns_complete (ps : list Pattern) :
  Forall stateless ps ->
  forall (h h' : heap) (acc fs : list Finding),
    scan_patterns h ps content lines fm config contentType allowed acc
      = (Ok fs, h') ->
    (forall f, In f acc -> In f fs)
    /\ forall p f h0,
         In p ps -> includes (p_contentTypes p) contentType = true ->
         includes_id allowed (p_id p) = Ok false ->
         fst (apply_pattern h0 p content lines fm config) = Ok (Some f) ->
         In f fs.
Proof.
  induction 1 as [|q rest Hq _ IH]; intros h h' acc fs; cbn [scan_patterns].
  - intros [= <- <-]. split; [auto|]. intros p f h0 [].
  - destruct (includes (p_contentTypes q) contentType) eqn:Et; cbn [negb].
    2:{ intros H. destruct (IH _ _ _ _ H) as [Hacc Hall].
        split; [exact Hacc|]. intros p f h0 [<-|Hin] Ht; [congruence|].
        now apply Hall. }
    destruct (includes_id allowed (p_id q)) as [[|]|e] eqn:Ea;
      [|cbn [negb]|discriminate].
    { intros H. destruct (IH _ _ _ _ H) as [Hacc Hall].
      split; [exact Hacc|]. intros p f h0 [<-|Hin] Ht Hal; [congruence|].
      now apply Hall. }
    destruct (apply_pattern h q content lines fm config) as [[[g|]|e] h1] eqn:Ep;
      [| |discriminate].
    + intros H. destruct (IH _ _ _ _ H) as [Hacc Hall]. split.
      * intros f Hf. apply Hacc, in_or_app. now left.
      * intros p f h0 [<-|Hin] Ht Hal Hap; [|now apply (Hall p f h0)].
        rewrite (apply_pattern_stateless h0 h q _ _ _ _ Hq), Ep in Hap.
        injection Hap as <-. apply Hacc, in_or_app. right. now left.
    + intros H. destruct (IH _ _ _ _ H) as [Hacc Hall].
      split; [exact Hacc|].
      intros p f h0 [<-|Hin] Ht Hal Hap; [|now apply (Hall p f h0)].
      rewrite (apply_pattern_stateless h0 h q _ _ _ _ Hq), Ep in Hap.
      discriminate.
Qed.
End Complete.

Lemma NoDup_ids_inj (ps : list Pattern) (p q : Pattern) :
  NoDup (map p_id ps) -> In p ps -> In q ps -> p_id p = p_id q -> p = q.
Proof.
  induction ps as [|x ps IH]; cbn [map]; intros Hnd Hp Hq Hid; [destruct Hp|].
  apply NoDup_cons in Hnd. destruct Hnd as [Hx Hnd].
  destruct Hp as [->|Hp], Hq as [->|Hq].
  - reflexivity.
  - exfalso. apply Hx. rewrite Hid. apply list_elem_of_In. now apply in_map.
  - exfalso. apply Hx. rewrite <- Hid. apply list_elem_of_In. now apply in_map.
  - now apply IH.
Qed.

(** The rule of a table with distinct ids and without [g] flags, on a
    scan that returns. *)
Lemma scan_with_line_rule JP (ps : list Pattern) (allowed : json)
    (h : heap) (content : string) (contentType : ContentType)
    (config : option Config) (findings : list Finding)
    (p : Pattern) (re : regexp) :
  Forall stateless ps -> NoDup (map p_id ps) ->
  fst (scan_with JP ps allowed h content contentType config) = Ok findings ->
  In p ps -> p_check p = None -> p_regex p = Some re -> p_multiline p = false ->
  includes (p_contentTypes p) contentType = true ->
  includes_id allowed (p_id p) = Ok false ->
  (forall i,
     first_matching re (split LF content) i ->
     exists f line m,
       In f findings
       /\ split LF content !! i = Some line /\ smatch re line = Some m
       /\ f = mkFinding (p_severity p) (p_id p) (p_description p) (i + 1)
                (truncate (m0 m) 120))
  /\ (forall f,
        In f findings -> f_id f = p_id p ->
        1 <= f_line f /\ first_matching re (split LF content) (f_line f - 1)).
Proof.
  intros Hst Hnd Hscan Hin Hc Hr Hm Ht Ha.
  assert (re_global re = false) as Hg.
  { pose proof (proj1 (List.Forall_forall _ _) Hst p Hin) as Hp.
    unfold stateless in Hp. now rewrite Hr in Hp. }
  set (lines := split LF content) in *.
  set (fm := if includes [agent; skill; command; rule] contentType
             then parseFrontmatter JP content else None).
  assert (forall h0, fst (apply_pattern h0 p content lines fm config)
                     = Ok (fst (scan_lines h0 p re lines 0))) as Hap.
  { intros h0. unfold apply_pattern. rewrite Hc, Hr, Hm.
    now destruct (scan_lines h0 p re lines 0). }
  split.
  - intros i [(line & Hi & Htest) Hfirst].
    pose proof (scan_lines_first p re Hg lines h 0) as Hsl.
    destruct (fst (scan_lines h p re lines 0)) as [f|] eqn:Ef.
    2:{ rewrite (Hsl i line Hi) in Htest. discriminate. }
    destruct Hsl as (k & l & m & Hk & Hs & Hbefore & ->).
    assert (k = i) as ->.
    { destruct (Nat.lt_trichotomy k i) as [Hlt|[->|Hgt]]; [|reflexivity|].
      - assert (test re l = true) as Hl by (apply test_smatch; now exists m).
        rewrite (Hfirst k l Hlt Hk) in Hl. discriminate.
      - rewrite (Hbefore i line Hgt Hi) in Htest. discriminate. }
    eexists _, l, m. split; [|split; [exact Hk|split; [exact Hs|reflexivity]]].
    unfold scan_with in Hscan. fold lines fm in Hscan.
    destruct (scan_patterns h ps content lines fm config contentType allowed [])
      as [[found|e] h'] eqn:E; [|discriminate].
    cbn [fst] in Hscan. injection Hscan as <-. apply sort_In.
    apply (proj2 (scan_patterns_complete _ _ _ _ _ _ ps Hst _ _ _ _ E) p _ h);
      try assumption.
    now rewrite Hap, Ef.
  - intros f Hf Hid.
    destruct (scan_with_origin JP ps allowed h content contentType config
                findings f Hscan Hf)
      as (q & h0 & h1 & Hq & Hqt & Hqa & Hqap).
    fold lines fm in Hqap.
    pose proof (apply_pattern_some _ _ _ _ _ _ _ _ Hqap) as [Hidq _].
    assert (q = p) as -> by (apply (NoDup_ids_inj ps); congruence).
    pose proof (Hap h0) as Hap0. rewrite Hqap in Hap0. cbn [fst] in Hap0.
    injection Hap0 as Hsl0.
    pose proof (scan_lines_first p re Hg lines h0 0) as Hsl.
    rewrite <- Hsl0 in Hsl.
    destruct Hsl as (k & l & m & Hk & Hs & Hbefore & ->).
    cbn [f_line]. split; [lia|].
    replace (0 + k + 1 - 1) with k by lia.
    split; [|exact Hbefore].
    exists l. split; [exact Hk|]. apply test_smatch. now exists m.
Qed.

(** X18. A rule of the table that is given by a regular expression and
    scans line by line reports the first line on which its expression
    matches, with the rule's id, severity and description, the number of
    that line, and the matched text cut to 120 characters; it reports
    nothing when no line matches.  This holds for every such rule that
    applies to the content type and is not exempted, on every scan that
    returns. *)
Theorem scanContent_line_rule :
  forall JP JS (h : heap) (content : string) (contentType : ContentType)
         (config : option Config) (findings : list Finding)
         (p : Pattern) (re : regexp),
    fst (scanContent JP JS h content contentType config) = Ok findings ->
    In p (PATTERNS JS) ->
    p_check p = None -> p_regex p = Some re -> p_multiline p = false ->
    includes (p_contentTypes p) contentType = true ->
    includes_id (exemptions config) (p_id p) = Ok false ->
    (forall i,
       first_matching re (split LF content) i ->
       exists f line m,
         In f findings
         /\ split LF content !! i = Some line /\ smatch re line = Some m
         /\ f = mkFinding (p_severity p) (p_id p) (p_description p) (i + 1)
                  (truncate (m0 m) 120))
    /\ (forall f,
          In f findings -> f_id f = p_id p ->
          1 <= f_line f
          /\ first_matching re (split LF content) (f_line f - 1)).
Proof.
  intros JP JS h content contentType config findings p re Hscan.
  rewrite scanContent_eq in Hscan. revert Hscan.
  apply scan_with_line_rule.
  - apply PATTERNS_stateless.
  - apply PATTERNS_ids_NoDup.
Qed.

Lemma scanContent_line_rule_witness :
  exists f line m,
    In f [Samples.force_finding 2; Samples.secret_finding]
    /\ split LF Samples.secret_and_force !! 1 = Some line
    /\ smatch high003_re line = Some m
    /\ f = mkFinding HIGH "HIGH-003"
             "Suggesting --no-verify, --force, or --skip-hooks flags" (1 + 1)
             (truncate (m0 m) 120).
Proof.
  apply (proj1 (scanContent_line_rule
                  SampleHost.JSON_parse SampleHost.JSON_stringify ∅
                  Samples.secret_and_force agent None
                  [Samples.force_finding 2; Samples.secret_finding]
                  (by_regex "HIGH-003" HIGH
                     "Suggesting --no-verify, --force, or --skip-hooks flags"
                     high003_re docs false)
                  high003_re
                  ltac:(vm_compute; reflexivity)
                  ltac:(unfold PATTERNS; cbn [In];
                        repeat (first [left; reflexivity | right]))
                  eq_refl eq_refl eq_refl eq_refl eq_refl) 1).
  split.
  - exists "git push --force". split; vm_compute; reflexivity.
  - intros [|j] l Hj Hl; [|lia].
    vm_compute in Hl. injection Hl as <-. vm_compute. reflexivity.
Defined.

(** X19. No rule of the table names the category hook-config, the one
    of [hooks/hooks.json]: a scan of such content returns no finding,
    whatever the content and the configuration, and leaves the regular
    expressions alone. *)
Theorem hook_config_never_flagged :
  forall JP JS (h : heap) (content : string) (config : option Config),
    Forall (fun p => includes (p_contentTypes p) hook_config = false)
           (PATTERNS JS)
    /\ scanContent JP JS h content hook_config config = (Ok [], h).
Proof.
  intros JP JS h content config. split.
  - unfold PATTERNS. repeat constructor.
  - reflexivity.
Qed.
